(** * The live session bridge of the Ebo client

    A shallow embedding of the real-time audio/video bridge of
    [src/components/EboLens.tsx] and [src/components/LiveMode.tsx]:
    the 16-bit PCM helpers, the playback scheduler, the tool-call loops
    and the capture callback, with the properties the specification
    states about them.  ([LiveMode.tsx] holds, after its line 327, an
    earlier copy of the lens; the lens embedded here is the one of
    [EboLens.tsx].)

    Conventions.
    - A JS number that holds a sample, a time or a duration is an exact
      rational ([Q]): samples are binary fractions, and multiplying or
      dividing by 32768 is exact on them.  [Math.sqrt] is the real square
      root ([R]).  The rounding and the overflow of double arithmetic, in
      the sums of times and of squares and in the numbers a text converts
      to, are left out.
    - A JS "binary string" (one character per byte) and a base64 string are
      lists of 8-bit characters ([list ascii]).
    - A typed array is the list of its elements, an [Int16Array] element an
      integer of [-32768, 32767], a [Uint8Array] element one of [0, 255].
    - A JS string is the list of its characters, each of a code below 256.
    - A handler that throws returns its error; what it changed before the
      throw stays changed, what comes after is skipped.
    - A handler runs from one [await] of a platform event to the next
      without anything in between; at such an [await] it is set aside with
      what it still has to do, other handlers run, and it goes on when the
      event arrives.  An [await] of a value that is already there (the
      [decodeAudioData] of this file) lets no other handler in. *)

From Stdlib Require Import ZArith QArith Qminmax Qabs Lqa Reals Qreals Lra Lia List String Ascii Bool.
From stdpp Require Import base gmap strings pretty.
Import ListNotations.

Local Open Scope Z_scope.

(* ------------------------------------------------------------------ *)
(** ** Host-language values *)

Module Js.

(** The primitive values a tool call's [any]-typed argument can hold on
    the wire. *)
Inductive JsVal : Type :=
| JUndefined
| JNull
| JBool (b : bool)
| JNum (q : Q)
| JStr (s : string).

(** [ToBoolean]: [undefined], [null], [false], [0] and [''] are falsy. *)
Definition truthy (v : JsVal) : bool :=
  match v with
  | JUndefined | JNull => false
  | JBool b => b
  | JNum q => negb (Qeq_bool q 0)
  | JStr s => negb (String.eqb s "")
  end.

(** [a || b]. *)
Definition js_or (a b : JsVal) : JsVal := if truthy a then a else b.

(** An object used as a map; a property that is absent reads [undefined]. *)
Definition get (o : gmap string JsVal) (k : string) : JsVal :=
  default JUndefined (o !! k).

(** [o?.k] on an object that may be missing ([None] is [undefined] or
    [null]). *)
Definition optGet (o : option (gmap string JsVal)) (k : string) : JsVal :=
  match o with
  | Some o => get o k
  | None => JUndefined
  end.

(** The faults the handlers meet. *)
Inductive JsError : Type :=
| InvalidCharacterError   (* atob on a string that is not base64 *)
| RangeError              (* Int16Array over a buffer of odd byte length *)
| NotSupportedError       (* createBuffer with zero frames *)
| TypeError               (* a property read on undefined or null *)
| ReadError.              (* the error event a FileReader promise is rejected with *)

(** What arithmetic gives: a number, [NaN], or an infinity. *)
Inductive JsNumber : Type :=
| Finite (q : Q)
| NaN
| Infinity (negative : bool).

(** The characters [StringToNumber] trims: TAB, LF, VT, FF, CR, SPACE and
    the no-break space. *)
Definition isStrWhiteSpaceChar (c : ascii) : bool :=
  let n := nat_of_ascii c in
  (n =? 9)%nat || (n =? 10)%nat || (n =? 11)%nat || (n =? 12)%nat
  || (n =? 13)%nat || (n =? 32)%nat || (n =? 160)%nat.

Fixpoint trimStart (s : list ascii) : list ascii :=
  match s with
  | c :: r => if isStrWhiteSpaceChar c then trimStart r else s
  | [] => []
  end.

Definition trim (s : list ascii) : list ascii :=
  rev (trimStart (rev (trimStart s))).

(** The value of a digit of the radix, letters in either case. *)
Definition digit (radix : nat) (c : ascii) : option Z :=
  let n := nat_of_ascii c in
  let v :=
    if (48 <=? n)%nat && (n <=? 57)%nat then Some (n - 48)%nat
    else if (97 <=? n)%nat && (n <=? 102)%nat then Some (n - 87)%nat
    else if (65 <=? n)%nat && (n <=? 70)%nat then Some (n - 55)%nat
    else None in
  match v with
  | Some d => if (d <? radix)%nat then Some (Z.of_nat d) else None
  | None => None
  end.

(** The digits a text starts with: their value after [value], how many
    they are after [count], and the rest of the text. *)
Fixpoint readDigits (radix : nat) (s : list ascii) (value : Z) (count : nat)
  : Z * nat * list ascii :=
  match s with
  | c :: r =>
      match digit radix c with
      | Some d => readDigits radix r (value * Z.of_nat radix + d) (S count)
      | None => (value, count, s)
      end
  | [] => (value, count, [])
  end.

Definition isExponentIndicator (c : ascii) : bool :=
  Ascii.eqb c "e"%char || Ascii.eqb c "E"%char.

(** [StrUnsignedDecimalLiteral]: [Infinity], or digits with an optional
    fraction and an optional exponent, at least one digit before the
    exponent. *)
Definition StrUnsignedDecimalLiteral (s : list ascii) : JsNumber :=
  if String.eqb (string_of_list_ascii s) "Infinity" then Infinity false
  else
    let '(int, ni, r1) := readDigits 10 s 0 0 in
    let '(frac, nf, r2) :=
      match r1 with
      | c :: r => if Ascii.eqb c "."%char then readDigits 10 r 0 0 else (0, 0%nat, r1)
      | [] => (0, 0%nat, r1)
      end in
    if (ni =? 0)%nat && (nf =? 0)%nat then NaN
    else
      let mantissa := (inject_Z int + inject_Z frac / inject_Z (10 ^ Z.of_nat nf))%Q in
      match r2 with
      | [] => Finite mantissa
      | c :: r3 =>
          if isExponentIndicator c then
            let '(negative, r4) :=
              match r3 with
              | d :: r =>
                  if Ascii.eqb d "+"%char then (false, r)
                  else if Ascii.eqb d "-"%char then (true, r)
                  else (false, r3)
              | [] => (false, r3)
              end in
            let '(e, ne, r5) := readDigits 10 r4 0 0 in
            match ne, r5 with
            | S _, [] => Finite (mantissa * Qpower 10 (if negative then - e else e))%Q
            | _, _ => NaN
            end
          else NaN
      end.

(** [0x], [0o] and [0b] literals: digits of the radix to the end. *)
Definition NonDecimalIntegerLiteral (radix : nat) (s : list ascii) : JsNumber :=
  match readDigits radix s 0 0 with
  | (v, S _, []) => Finite (inject_Z v)
  | _ => NaN
  end.

Definition negate (n : JsNumber) : JsNumber :=
  match n with
  | Finite q => Finite (- q)%Q
  | NaN => NaN
  | Infinity negative => Infinity (negb negative)
  end.

(** [StringToNumber]: the text without the white space around it is
    empty (zero), a literal, or not a number. *)
Definition StringToNumber (s : list ascii) : JsNumber :=
  match trim s with
  | [] => Finite 0
  | c :: r =>
      if Ascii.eqb c "+"%char then StrUnsignedDecimalLiteral r
      else if Ascii.eqb c "-"%char then negate (StrUnsignedDecimalLiteral r)
      else
        match r with
        | p :: digits =>
            if Ascii.eqb c "0"%char
               && (Ascii.eqb p "x"%char || Ascii.eqb p "X"%char)
            then NonDecimalIntegerLiteral 16 digits
            else if Ascii.eqb c "0"%char
                    && (Ascii.eqb p "o"%char || Ascii.eqb p "O"%char)
            then NonDecimalIntegerLiteral 8 digits
            else if Ascii.eqb c "0"%char
                    && (Ascii.eqb p "b"%char || Ascii.eqb p "B"%char)
            then NonDecimalIntegerLiteral 2 digits
            else StrUnsignedDecimalLiteral (c :: r)
        | [] => StrUnsignedDecimalLiteral [c]
        end
  end.

(** [ToNumber], the conversion an arithmetic operator applies. *)
Definition ToNumber (v : JsVal) : JsNumber :=
  match v with
  | JUndefined => NaN
  | JNull => Finite 0
  | JBool b => Finite (if b then 1 else 0)
  | JNum q => Finite q
  | JStr s => StringToNumber (list_ascii_of_string s)
  end.

(** [a * b] on numbers. *)
Definition multiply (a b : JsNumber) : JsNumber :=
  match a, b with
  | Finite x, Finite y => Finite (x * y)%Q
  | NaN, _ | _, NaN => NaN
  | Infinity s, Infinity s' => Infinity (xorb s s')
  | Infinity s, Finite y | Finite y, Infinity s =>
      if Qeq_bool y 0 then NaN
      else Infinity (xorb s (match Qnum y with Z.neg _ => true | _ => false end))
  end.

End Js.

(* ------------------------------------------------------------------ *)
(** ** The platform's [btoa] and [atob]

    [btoa] is RFC 4648 base64 with padding; [atob] is the forgiving
    decoder of the WHATWG Infra standard: ASCII whitespace is dropped, one
    or two closing [=] are dropped when the length is a multiple of four, a
    length of 1 modulo 4 or a character outside the alphabet is a failure,
    and the bits left over after the last whole byte are discarded. *)

Module Base64.

(** Six bits, most significant first. *)
Inductive sextet : Type := Sextet (b5 b4 b3 b2 b1 b0 : bool).

Definition sextet_index (s : sextet) : nat :=
  let 'Sextet b5 b4 b3 b2 b1 b0 := s in
  (Nat.b2n b5 * 32 + Nat.b2n b4 * 16 + Nat.b2n b3 * 8
   + Nat.b2n b2 * 4 + Nat.b2n b1 * 2 + Nat.b2n b0)%nat.

Definition sextet_of_index (n : nat) : sextet :=
  Sextet (Nat.testbit n 5) (Nat.testbit n 4) (Nat.testbit n 3)
         (Nat.testbit n 2) (Nat.testbit n 1) (Nat.testbit n 0).

Definition alphabet : list ascii :=
  list_ascii_of_string
    "ABCDEFGHIJKLMNOPQRSTUVWXYZabcdefghijklmnopqrstuvwxyz0123456789+/".

Definition b64char (s : sextet) : ascii :=
  nth (sextet_index s) alphabet "A"%char.

Fixpoint index_of (c : ascii) (l : list ascii) : option nat :=
  match l with
  | [] => None
  | x :: r => if Ascii.eqb c x then Some 0%nat
              else option_map S (index_of c r)
  end.

Definition b64val (c : ascii) : option sextet :=
  option_map sextet_of_index (index_of c alphabet).

Definition pad : ascii := "="%char.

Definition enc3 (a b c : ascii) : list ascii :=
  let 'Ascii a0 a1 a2 a3 a4 a5 a6 a7 := a in
  let 'Ascii b0 b1 b2 b3 b4 b5 b6 b7 := b in
  let 'Ascii c0 c1 c2 c3 c4 c5 c6 c7 := c in
  [ b64char (Sextet a7 a6 a5 a4 a3 a2);
    b64char (Sextet a1 a0 b7 b6 b5 b4);
    b64char (Sextet b3 b2 b1 b0 c7 c6);
    b64char (Sextet c5 c4 c3 c2 c1 c0) ].

Definition enc2 (a b : ascii) : list ascii :=
  let 'Ascii a0 a1 a2 a3 a4 a5 a6 a7 := a in
  let 'Ascii b0 b1 b2 b3 b4 b5 b6 b7 := b in
  [ b64char (Sextet a7 a6 a5 a4 a3 a2);
    b64char (Sextet a1 a0 b7 b6 b5 b4);
    b64char (Sextet b3 b2 b1 b0 false false) ].

Definition enc1 (a : ascii) : list ascii :=
  let 'Ascii a0 a1 a2 a3 a4 a5 a6 a7 := a in
  [ b64char (Sextet a7 a6 a5 a4 a3 a2);
    b64char (Sextet a1 a0 false false false false) ].

(** [btoa] on a binary string. *)
Fixpoint btoa (l : list ascii) : list ascii :=
  match l with
  | a :: b :: c :: r => enc3 a b c ++ btoa r
  | [a; b] => enc2 a b ++ [pad]
  | [a] => enc1 a ++ [pad; pad]
  | [] => []
  end.

(** TAB, LF, FF, CR and SPACE. *)
Definition is_ascii_whitespace (c : ascii) : bool :=
  let n := nat_of_ascii c in
  (n =? 9)%nat || (n =? 10)%nat || (n =? 12)%nat || (n =? 13)%nat || (n =? 32)%nat.

(** Drops one or two [=] that close the string. *)
Fixpoint strip_padding (l : list ascii) : list ascii :=
  match l with
  | [] => []
  | c :: r =>
      if Ascii.eqb c pad then
        match r with
        | [] => []
        | [d] => if Ascii.eqb d pad then [] else c :: strip_padding r
        | _ => c :: strip_padding r
        end
      else c :: strip_padding r
  end.

Fixpoint sextets (l : list ascii) : option (list sextet) :=
  match l with
  | [] => Some []
  | c :: r =>
      match b64val c, sextets r with
      | Some s, Some ss => Some (s :: ss)
      | _, _ => None
      end
  end.

Definition dec3 (s0 s1 s2 s3 : sextet) : list ascii :=
  let 'Sextet a7 a6 a5 a4 a3 a2 := s0 in
  let 'Sextet a1 a0 b7 b6 b5 b4 := s1 in
  let 'Sextet b3 b2 b1 b0 c7 c6 := s2 in
  let 'Sextet c5 c4 c3 c2 c1 c0 := s3 in
  [ Ascii a0 a1 a2 a3 a4 a5 a6 a7;
    Ascii b0 b1 b2 b3 b4 b5 b6 b7;
    Ascii c0 c1 c2 c3 c4 c5 c6 c7 ].

(** Whole groups give three bytes; 18 left-over bits give two bytes and
    12 give one, the low bits discarded. *)
Fixpoint dec_groups (l : list sextet) : list ascii :=
  match l with
  | s0 :: s1 :: s2 :: s3 :: r => dec3 s0 s1 s2 s3 ++ dec_groups r
  | [s0; s1; s2] => firstn 2 (dec3 s0 s1 s2 (Sextet false false false false false false))
  | [s0; s1] =>
      firstn 1 (dec3 s0 s1 (Sextet false false false false false false)
                           (Sextet false false false false false false))
  | _ => []
  end.

(** [atob]; [None] stands for the [InvalidCharacterError] it throws. *)
Definition atob (data : list ascii) : option (list ascii) :=
  let d1 := List.filter (fun c => negb (is_ascii_whitespace c)) data in
  let d2 := if (length d1 mod 4 =? 0)%nat then strip_padding d1 else d1 in
  if (length d2 mod 4 =? 1)%nat then None
  else option_map dec_groups (sextets d2).

End Base64.


(* ------------------------------------------------------------------ *)
(** ** The audio helpers

    [encode], [createBlob] and [decodeAudioData] of [EboLens.tsx]
    (lines 7-31); [encodeBase64], [createAudioBlob] and [decodeAudioData]
    of [LiveMode.tsx] (lines 7-36) are the same functions under other
    names. *)

Module Pcm.

Import Js Base64.

(** A sample of [-1, 1], and a byte. *)
Definition normalized (x : Q) : Prop := (-1 <= x /\ x <= 1)%Q.

Definition is_byte (b : Z) : Prop := 0 <= b < 256.

(** Truncation toward zero: the integer part of a number. *)
Definition Qtrunc (x : Q) : Z := Z.quot (Qnum x) (Z.pos (Qden x)).

(** The integer modulo 2^16, read as a signed 16-bit value. *)
Definition wrap16 (z : Z) : Z :=
  let r := z mod 65536 in
  if r >=? 32768 then r - 65536 else r.

(** What a store into an [Int16Array] keeps of a number ([ToInt16]): the
    fraction is dropped, then the low 16 bits are kept. *)
Definition ToInt16 (x : Q) : Z := wrap16 (Qtrunc x).

(** The two bytes of an [Int16Array] element in its buffer, low byte first
    (the byte order of every platform the client runs on). *)
Definition int16_bytes (v : Z) : list Z :=
  let w := v mod 65536 in [w mod 256; w / 256].

(** [new Uint8Array(int16.buffer)]. *)
Definition Uint8Array_of_buffer (int16 : list Z) : list Z :=
  flat_map int16_bytes int16.

(** [String.fromCharCode] and [charCodeAt] on byte-sized codes. *)
Definition fromCharCode (b : Z) : ascii := ascii_of_N (Z.to_N b).

Definition charCodeAt (c : ascii) : Z := Z.of_N (N_of_ascii c).

(** [encode(bytes)]: the bytes as a binary string, through [btoa]. *)
Definition encode (bytes : list Z) : list ascii :=
  btoa (map fromCharCode bytes).

Record Blob : Type := mkBlob { data : list ascii; mimeType : string }.

(** [createBlob(data)]: [int16[i] = data[i] * 32768] for every sample. *)
Definition createBlob (samples : list Q) : Blob :=
  let int16 := map (fun x => ToInt16 (x * 32768)%Q) samples in
  {| data := encode (Uint8Array_of_buffer int16);
     mimeType := "audio/pcm;rate=16000" |}.

(** [new Int16Array(bytes.buffer)] on a buffer of even length. *)
Fixpoint Int16Array_of_buffer (bytes : list Z) : list Z :=
  match bytes with
  | lo :: hi :: r => wrap16 (lo + 256 * hi) :: Int16Array_of_buffer r
  | _ => []
  end.

(** An [AudioBuffer] of one channel at 24 kHz. *)
Record AudioBuffer : Type := mkBuffer { channelData : list Q }.

Definition sampleRate : Q := 24000%Q.

(** [buffer.duration]: the number of frames over the sample rate. *)
Definition duration (b : AudioBuffer) : Q :=
  (inject_Z (Z.of_nat (length (channelData b))) / sampleRate)%Q.

(** [decodeAudioData(base64, ctx)].  [atob] throws on a string that is not
    base64, the [Int16Array] constructor on a buffer of odd length, and
    [ctx.createBuffer] on a length of zero. *)
Definition decodeAudioData (base64 : list ascii) : JsError + AudioBuffer :=
  match atob base64 with
  | None => inl InvalidCharacterError
  | Some binaryString =>
      let bytes := map charCodeAt binaryString in
      if Nat.odd (length bytes) then inl RangeError
      else
        let dataInt16 := Int16Array_of_buffer bytes in
        if (length dataInt16 =? 0)%nat then inl NotSupportedError
        else inr {| channelData := map (fun v => (inject_Z v / 32768)%Q) dataInt16 |}
  end.

End Pcm.

(* ------------------------------------------------------------------ *)
(** ** The playback scheduler

    The cursor [nextStartTimeRef] and the three statements that move it
    ([EboLens.tsx] lines 127-133, [LiveMode.tsx] lines 238-243):
    [next = Math.max(next, ctx.currentTime); source.start(next);
     next += buffer.duration]. *)

Module Playback.

Import Pcm.

Record Scheduler : Type := mkScheduler {
  nextStartTime : Q;                     (* nextStartTimeRef.current *)
  started : list (Q * AudioBuffer)       (* every source.start(t), oldest first *)
}.

Definition initial : Scheduler := {| nextStartTime := 0%Q; started := [] |}.

Definition schedule (buffer : AudioBuffer) (currentTime : Q) (p : Scheduler)
  : Scheduler :=
  let startTime := Qmax (nextStartTime p) currentTime in
  {| nextStartTime := (startTime + duration buffer)%Q;
     started := started p ++ [(startTime, buffer)] |}.

(** Buffers enqueued one after the other, each with the device time read
    when it is scheduled. *)
Definition enqueueAll (arrivals : list (Q * AudioBuffer)) (p : Scheduler)
  : Scheduler :=
  fold_left (fun p a => schedule (snd a) (fst a) p) arrivals p.

End Playback.

(* ------------------------------------------------------------------ *)
(** ** The session: what it delivers and what is sent on it *)

Module Session.

Import Js Pcm.

(** One entry of [msg.toolCall.functionCalls]: [{id, name, args}].  The
    session protocol declares [args] optional: [None] is a call that
    carries no [args]. *)
Record FunctionCall : Type := mkCall {
  fc_id : string;
  fc_name : string;
  fc_args : option (gmap string JsVal)
}.

(** One entry of [functionResponses]: [{id, name, response}]. *)
Record FunctionResponse : Type := mkResponse {
  fr_id : string;
  fr_name : string;
  fr_response : gmap string JsVal
}.

(** The object a tool loop pushes: [{ id: fc.id, name: fc.name, response }]. *)
Definition acknowledge (fc : FunctionCall) (response : gmap string JsVal)
  : FunctionResponse :=
  {| fr_id := fc_id fc; fr_name := fc_name fc; fr_response := response |}.

Inductive Outgoing : Type :=
| RealtimeInput (media : Blob)                              (* sendRealtimeInput({media}) *)
| ToolResponse (functionResponses : list FunctionResponse). (* sendToolResponse({functionResponses}) *)

(** What the handlers read of a [LiveServerMessage]:
    [serverContent?.modelTurn?.parts?.[0]?.inlineData?.data] and
    [toolCall?.functionCalls]. *)
Record Message : Type := mkMessage {
  audio : option (list ascii);
  toolCall : option (list FunctionCall)
}.

(** [sessionPromise] and the sends chained on it with [.then]: while the
    promise is pending they wait, in the order they were chained. *)
Inductive PromiseState : Type :=
| Pending (waiting : list Outgoing)
| Fulfilled.

Record Promise : Type := mkPromise {
  state : PromiseState;
  sent : list Outgoing        (* what went out on the session, oldest first *)
}.

Definition pending : Promise := {| state := Pending []; sent := [] |}.

(** [sessionPromise.then(s => s.send...(x))]. *)
Definition thenSend (x : Outgoing) (p : Promise) : Promise :=
  match state p with
  | Fulfilled => {| state := Fulfilled; sent := sent p ++ [x] |}
  | Pending waiting => {| state := Pending (waiting ++ [x]); sent := sent p |}
  end.

(** The promise is fulfilled: the sends that waited go out. *)
Definition fulfil (p : Promise) : Promise :=
  match state p with
  | Fulfilled => p
  | Pending waiting => {| state := Fulfilled; sent := sent p ++ waiting |}
  end.

(** Everything handed to the send path: sent, or waiting for the session. *)
Definition handed (p : Promise) : list Outgoing :=
  match state p with
  | Fulfilled => sent p
  | Pending waiting => sent p ++ waiting
  end.

(** The tool responses among some sends. *)
Definition toolResponses (l : list Outgoing) : list (list FunctionResponse) :=
  flat_map (fun o => match o with ToolResponse r => [r] | _ => [] end) l.

(** The media packets among some sends. *)
Definition mediaPackets (l : list Outgoing) : list Blob :=
  flat_map (fun o => match o with RealtimeInput m => [m] | _ => [] end) l.

End Session.

(** The root-mean-square of a frame of at least one sample:
    [Math.sqrt(sum / data.length)] with [sum] the sum of the squares. *)
Definition sumSquares (data : list Q) : Q :=
  fold_left (fun sum x => (sum + x * x)%Q) data 0%Q.

Definition rms (data : list Q) : R :=
  sqrt (Q2R (sumSquares data / inject_Z (Z.of_nat (length data)))).

(* ------------------------------------------------------------------ *)
(** ** The bridge of [EboLens.tsx] *)

Module EboLens.

Import Js Pcm Session.

(** A [MediaRecorder]: recording; stopped, by [recorder.stop()] or because
    the tracks of its stream were stopped, with its [stop] event still to
    come; done once [onstop] has run. *)
Inductive Recorder : Type := Recording | Stopped | Done.

Inductive Action : Type :=
| ClearCapturing                 (* () => setIsCapturing(false) *)
| StopRecorder (recorder : nat). (* () => { if (recorder.state === 'recording') recorder.stop() } *)

(** A [setTimeout]: the delay it is given, what it runs, and whether it
    has run. *)
Record Timer : Type := mkTimer {
  delay : JsNumber;
  action : Action;
  fired : bool
}.

(** What [a.click()] offers for saving: the name and the chunks of the blob. *)
Record Download : Type := mkDownload {
  filename : string;
  chunks : list string
}.

Record Lens : Type := mkLens {
  isActive : bool;                 (* the effect's [let isActive] *)
  isCapturing : bool;              (* useState *)
  isRecording : bool;              (* useState, as the next render reads it *)
  volume : R;                      (* useState *)
  isAiSpeaking : bool;             (* useState *)
  stream : bool;                   (* streamRef.current is set *)
  video : bool;                    (* hiddenVideoRef.current && canvasRef.current *)
  outputCtx : bool;                (* outputCtxRef.current is set *)
  playback : Playback.Scheduler;   (* nextStartTimeRef and the sources started *)
  session : Promise;               (* sessionPromise *)
  videoChunks : list string;       (* videoChunksRef.current *)
  recorders : list Recorder;       (* every MediaRecorder created, oldest first *)
  timers : list Timer;             (* every setTimeout, oldest first *)
  downloads : list Download
}.

Definition set_isActive v st := mkLens v (isCapturing st) (isRecording st) (volume st) (isAiSpeaking st) (stream st) (video st) (outputCtx st) (playback st) (session st) (videoChunks st) (recorders st) (timers st) (downloads st).
Definition set_isCapturing v st := mkLens (isActive st) v (isRecording st) (volume st) (isAiSpeaking st) (stream st) (video st) (outputCtx st) (playback st) (session st) (videoChunks st) (recorders st) (timers st) (downloads st).
Definition set_isRecording v st := mkLens (isActive st) (isCapturing st) v (volume st) (isAiSpeaking st) (stream st) (video st) (outputCtx st) (playback st) (session st) (videoChunks st) (recorders st) (timers st) (downloads st).
Definition set_volume v st := mkLens (isActive st) (isCapturing st) (isRecording st) v (isAiSpeaking st) (stream st) (video st) (outputCtx st) (playback st) (session st) (videoChunks st) (recorders st) (timers st) (downloads st).
Definition set_isAiSpeaking v st := mkLens (isActive st) (isCapturing st) (isRecording st) (volume st) v (stream st) (video st) (outputCtx st) (playback st) (session st) (videoChunks st) (recorders st) (timers st) (downloads st).
Definition set_playback v st := mkLens (isActive st) (isCapturing st) (isRecording st) (volume st) (isAiSpeaking st) (stream st) (video st) (outputCtx st) v (session st) (videoChunks st) (recorders st) (timers st) (downloads st).
Definition set_session v st := mkLens (isActive st) (isCapturing st) (isRecording st) (volume st) (isAiSpeaking st) (stream st) (video st) (outputCtx st) (playback st) v (videoChunks st) (recorders st) (timers st) (downloads st).
Definition set_videoChunks v st := mkLens (isActive st) (isCapturing st) (isRecording st) (volume st) (isAiSpeaking st) (stream st) (video st) (outputCtx st) (playback st) (session st) v (recorders st) (timers st) (downloads st).
Definition set_recorders v st := mkLens (isActive st) (isCapturing st) (isRecording st) (volume st) (isAiSpeaking st) (stream st) (video st) (outputCtx st) (playback st) (session st) (videoChunks st) v (timers st) (downloads st).
Definition set_timers v st := mkLens (isActive st) (isCapturing st) (isRecording st) (volume st) (isAiSpeaking st) (stream st) (video st) (outputCtx st) (playback st) (session st) (videoChunks st) (recorders st) v (downloads st).
Definition set_downloads v st := mkLens (isActive st) (isCapturing st) (isRecording st) (volume st) (isAiSpeaking st) (stream st) (video st) (outputCtx st) (playback st) (session st) (videoChunks st) (recorders st) (timers st) v.

(** The bridge once [init] has opened the devices and asked for the
    session: nothing recorded, nothing scheduled, nothing sent. *)
Definition mounted : Lens :=
  {| isActive := true; isCapturing := false; isRecording := false;
     volume := 0%R; isAiSpeaking := false;
     stream := true; video := true; outputCtx := true;
     playback := Playback.initial; session := pending;
     videoChunks := []; recorders := []; timers := []; downloads := [] |}.

Definition sendLater (x : Outgoing) (st : Lens) : Lens :=
  set_session (thenSend x (session st)) st.

Definition setTimeout (a : Action) (ms : JsNumber) (st : Lens) : Lens :=
  set_timers (timers st ++ [mkTimer ms a false]) st.

(** [sec * 1000]: the operator converts [sec] to a number first. *)
Definition milliseconds (sec : JsVal) : JsNumber :=
  multiply (ToNumber sec) (Finite 1000).

(** [processor.onaudioprocess] (lines 108-116). *)
Definition onaudioprocess (data : list Q) (st : Lens) : Lens :=
  if negb (isActive st) then st
  else
    let st := set_volume (rms data * 200)%R st in
    sendLater (RealtimeInput (createBlob data)) st.

(** [startRec] (lines 172-190), with the [isRecording] its closure holds,
    on a platform whose [MediaRecorder] records [video/webm] and while the
    tracks of the stream are live (they are until the cleanup stops
    them). *)
Definition startRec (isRecording : bool) (sec : JsVal) (st : Lens) : Lens :=
  if isRecording || negb (stream st) then st
  else
    let st := set_isRecording true st in
    let st := set_videoChunks [] st in
    let recorder := length (recorders st) in
    let st := set_recorders (recorders st ++ [Recording]) st in
    setTimeout (StopRecorder recorder) (milliseconds sec) st.

(** The [isRecording] of the [startRec] that [onmessage] calls.  The session
    callbacks are created once, by the effect of the first render (its
    dependency list is []), and [isRecording] is a [const] of the render that
    made the closure: here the first one, where it is [useState(false)]'s
    initial value.  [setIsRecording] changes what later renders read, never
    this constant. *)
Definition isRecording_in_effect : bool := false.

(** One turn of [for (const fc of msg.toolCall.functionCalls)]
    (lines 138-150); [frame] is the JPEG the canvas gives for the current
    video frame, as base64. *)
Definition dispatch (frame : list ascii) (acc : Lens * list FunctionResponse)
  (fc : FunctionCall) : Lens * list FunctionResponse :=
  let '(st, responses) := acc in
  let st :=
    if String.eqb (fc_name fc) "capture_and_analyze" then
      let st := set_isCapturing true st in
      let st :=
        if video st
        then sendLater (RealtimeInput {| data := frame; mimeType := "image/jpeg" |}) st
        else st in
      setTimeout ClearCapturing (Finite 2000) st
    else st in
  let st :=
    if String.eqb (fc_name fc) "record_video_clip"
    then startRec isRecording_in_effect (js_or (optGet (fc_args fc) "duration") (JNum 10)) st
    else st in
  (st, responses ++ [ acknowledge fc {[ "ok" := JBool true ]} ]).

(** [if (msg.toolCall) { ... }] (lines 135-153). *)
Definition toolDispatch (frame : list ascii) (calls : list FunctionCall)
  (st : Lens) : Lens :=
  let '(st, responses) := fold_left (dispatch frame) calls (st, []) in
  sendLater (ToolResponse responses) st.

(** [onmessage] (lines 120-154): the state it leaves, and the fault it
    throws if it throws.  [currentTime] is [ctx.currentTime] when the buffer
    is scheduled. *)
Definition onmessage (currentTime : Q) (frame : list ascii) (msg : Message)
  (st : Lens) : Lens * option JsError :=
  if negb (isActive st) then (st, None)
  else
    let afterAudio :=
      match audio msg with
      | Some (c :: payload) =>
          if outputCtx st then
            let st := set_isAiSpeaking true st in
            match decodeAudioData (c :: payload) with
            | inl e => (st, Some e)
            | inr buffer =>
                (set_playback (Playback.schedule buffer currentTime (playback st)) st, None)
            end
          else (st, None)
      | _ => (st, None)
      end in
    match afterAudio with
    | (st, Some e) => (st, Some e)
    | (st, None) =>
        match toolCall msg with
        | Some calls => (toolDispatch frame calls st, None)
        | None => (st, None)
        end
    end.

(** What the timer does when it runs. *)
Definition runAction (a : Action) (st : Lens) : Lens :=
  match a with
  | ClearCapturing => set_isCapturing false st
  | StopRecorder r =>
      match recorders st !! r with
      | Some Recording => set_recorders (<[ r := Stopped ]> (recorders st)) st
      | _ => st
      end
  end.

(** [recorder.onstop] (lines 178-185); [now] is [Date.now()]. *)
Definition onstop (now : Z) (st : Lens) : Lens :=
  let st :=
    set_downloads
      (downloads st ++ [ {| filename := "EBO_REC_" +:+ pretty now +:+ ".webm";
                            chunks := videoChunks st |} ]) st in
  set_isRecording false st.

(** What stopping the tracks of its stream does to a recorder: one that is
    recording becomes inactive, and its [stop] event follows. *)
Definition trackStopped (r : Recorder) : Recorder :=
  match r with
  | Recording => Stopped
  | r => r
  end.

(** The effect's cleanup (lines 164-169):
    [isActive = false; streamRef.current?.getTracks().forEach(t => t.stop())].
    Closing the two contexts changes nothing the handlers read. *)
Definition cleanup (st : Lens) : Lens :=
  let st := set_isActive false st in
  if stream st then set_recorders (map trackStopped (recorders st)) st else st.

Inductive Event : Type :=
| SessionReady                                   (* sessionPromise is fulfilled *)
| AudioProcess (data : list Q)
| ServerMessage (currentTime : Q) (frame : list ascii) (msg : Message)
| TimerFired (n : nat)
| DataAvailable (chunk : string)                 (* recorder.ondataavailable *)
| RecorderStop (recorder : nat) (now : Z)        (* the [stop] event of a recorder *)
| Cleanup.

(** One event.  A recorder gets its [stop] event once, after
    [recorder.stop()], after its tracks were stopped, or when the platform
    ends the recording by itself; [onstop] runs on it whatever stopped the
    recorder. *)
Definition step (st : Lens) (e : Event) : Lens :=
  match e with
  | SessionReady => set_session (fulfil (session st)) st
  | AudioProcess data => onaudioprocess data st
  | ServerMessage t frame msg => fst (onmessage t frame msg st)
  | TimerFired n =>
      match timers st !! n with
      | Some (mkTimer d a false) =>
          runAction a (set_timers (<[ n := mkTimer d a true ]> (timers st)) st)
      | _ => st
      end
  | DataAvailable chunk => set_videoChunks (videoChunks st ++ [chunk]) st
  | RecorderStop r now =>
      match recorders st !! r with
      | Some Recording | Some Stopped =>
          onstop now (set_recorders (<[ r := Done ]> (recorders st)) st)
      | _ => st
      end
  | Cleanup => cleanup st
  end.

Definition run (events : list Event) (st : Lens) : Lens :=
  fold_left step events st.

End EboLens.

(* ------------------------------------------------------------------ *)
(** ** The bridge of [LiveMode.tsx] *)

Module LiveMode.

Import Js Pcm Session.

(** [createAudioBlob] (lines 16-24) is [createBlob] under another name. *)
Definition createAudioBlob : list Q -> Blob := createBlob.

(** [NavigationData] of [types.ts], with the [any]-typed values that
    [startNavigation] stores in it. *)
Record NavigationData : Type := mkNav {
  nav_isActive : bool;
  destination : JsVal;
  direction : JsVal;
  distance : JsVal;
  eta : string
}.

(** A template string with one hole, kept as its text and the value that
    fills the hole. *)
Inductive Template : Type := Tpl (text : string) (hole : JsVal).

(** An [onmessage] set aside at
    [await blobToBase64(await new Promise(r => canvas.toBlob(r, 'image/jpeg')))]
    (line 217): the call whose snapshot it waits for, the calls after it, the
    responses pushed so far, and the message it handles. *)
Record Task : Type := mkTask {
  awaiting : FunctionCall;
  remaining : list FunctionCall;
  pushed : list FunctionResponse;
  message : Message
}.

Record Live : Type := mkLive {
  mountedRef : bool;                   (* mountedRef.current *)
  volume : R;                          (* useState *)
  navData : option NavigationData;     (* useState; None is null *)
  generatedImage : option Template;    (* useState; None is null *)
  isAnalyzing : bool;                  (* useState *)
  video : bool;                        (* videoRef.current && canvasRef.current *)
  outputContext : bool;                (* outputContextRef.current is set *)
  playback : Playback.Scheduler;       (* nextStartTimeRef and the sources started *)
  session : Promise;                   (* sessionPromise *)
  suspended : list Task                (* the handlers that wait for a snapshot *)
}.

Definition set_mountedRef v st := mkLive v (volume st) (navData st) (generatedImage st) (isAnalyzing st) (video st) (outputContext st) (playback st) (session st) (suspended st).
Definition set_volume v st := mkLive (mountedRef st) v (navData st) (generatedImage st) (isAnalyzing st) (video st) (outputContext st) (playback st) (session st) (suspended st).
Definition setNavData v st := mkLive (mountedRef st) (volume st) v (generatedImage st) (isAnalyzing st) (video st) (outputContext st) (playback st) (session st) (suspended st).
Definition setGeneratedImage v st := mkLive (mountedRef st) (volume st) (navData st) v (isAnalyzing st) (video st) (outputContext st) (playback st) (session st) (suspended st).
Definition setIsAnalyzing v st := mkLive (mountedRef st) (volume st) (navData st) (generatedImage st) v (video st) (outputContext st) (playback st) (session st) (suspended st).
Definition set_playback v st := mkLive (mountedRef st) (volume st) (navData st) (generatedImage st) (isAnalyzing st) (video st) (outputContext st) v (session st) (suspended st).
Definition set_session v st := mkLive (mountedRef st) (volume st) (navData st) (generatedImage st) (isAnalyzing st) (video st) (outputContext st) (playback st) v (suspended st).
Definition set_suspended v st := mkLive (mountedRef st) (volume st) (navData st) (generatedImage st) (isAnalyzing st) (video st) (outputContext st) (playback st) (session st) v.

(** The bridge once [initARSession] has opened the devices and asked for
    the session. *)
Definition mounted : Live :=
  {| mountedRef := true; volume := 0%R;
     navData := None; generatedImage := None; isAnalyzing := false;
     video := true; outputContext := true;
     playback := Playback.initial; session := pending; suspended := [] |}.

Definition sendLater (x : Outgoing) (st : Live) : Live :=
  set_session (thenSend x (session st)) st.

(** [processor.onaudioprocess] (lines 179-186). *)
Definition onaudioprocess (inputData : list Q) (st : Live) : Live :=
  let st := if mountedRef st then set_volume (rms inputData * 100)%R st else st in
  let pcmBlob := createAudioBlob inputData in
  sendLater (RealtimeInput pcmBlob) st.

(** How the [if / else if] chain of one call ends: it runs to its end, it
    throws, or it reaches the [await] of the snapshot; each with the state it
    has set by then. *)
Inductive Branch : Type :=
| Completes (st : Live)
| Throws (st : Live) (e : JsError)
| Awaits (st : Live).

(** The chain of lines 197-228, up to its end, its throw or its [await].
    [startNavigation] reads [args.destination] and [generateHologram] reads
    [(fc.args as any).prompt] with no guard: on a call without [args] the
    read throws, in [startNavigation] before anything is set, in
    [generateHologram] after the two setters ahead of it. *)
Definition handleCall (fc : FunctionCall) (st : Live) : Branch :=
  if String.eqb (fc_name fc) "startNavigation" then
    match fc_args fc with
    | None => Throws st TypeError
    | Some args =>
        let st :=
          setNavData
            (Some {| nav_isActive := true;
                     destination := get args "destination";
                     direction := js_or (get args "direction") (JStr "STRAIGHT");
                     distance := js_or (get args "estimatedDistance") (JStr "...");
                     eta := "5 min" |}) st in
        let st := setGeneratedImage None st in
        Completes (setIsAnalyzing false st)
    end
  else if String.eqb (fc_name fc) "analyzeSurroundings" then
    let st := setIsAnalyzing true st in
    let st := setNavData None st in
    if video st then Awaits st else Completes st
  else if String.eqb (fc_name fc) "generateHologram" then
    let st := setNavData None st in
    let st := setIsAnalyzing false st in
    match fc_args fc with
    | None => Throws st TypeError
    | Some args =>
        Completes
          (setGeneratedImage
             (Some (Tpl "https://source.unsplash.com/random/800x800/?futuristic,"
                        (get args "prompt"))) st)
    end
  else if String.eqb (fc_name fc) "stopSystem" then
    let st := setNavData None st in
    let st := setGeneratedImage None st in
    Completes (setIsAnalyzing false st)
  else Completes st.

(** How the loop over the calls is left: at its end, with the responses
    pushed; by a throw; or at the [await] of a call, with the calls that
    follow it and the responses pushed before it. *)
Inductive LoopEnd : Type :=
| Finished (functionResponses : list FunctionResponse)
| Faulted (e : JsError)
| Waiting (fc : FunctionCall) (rest : list FunctionCall)
          (functionResponses : list FunctionResponse).

(** [let result: any = { status: "ok" }]. *)
Definition result : gmap string JsVal := {[ "status" := JStr "ok" ]}.

(** [for (const fc of msg.toolCall.functionCalls)] (lines 195-230) from
    some call on, with the responses pushed before it. *)
Fixpoint forCalls (calls : list FunctionCall)
  (functionResponses : list FunctionResponse) (st : Live) : Live * LoopEnd :=
  match calls with
  | [] => (st, Finished functionResponses)
  | fc :: rest =>
      match handleCall fc st with
      | Completes st => forCalls rest (functionResponses ++ [acknowledge fc result]) st
      | Throws st e => (st, Faulted e)
      | Awaits st => (st, Waiting fc rest functionResponses)
      end
  end.

(** The loop and, when it is left at its end, the [sendToolResponse] that
    follows it (line 231). *)
Definition respond (calls : list FunctionCall)
  (functionResponses : list FunctionResponse) (st : Live) : Live * LoopEnd :=
  match forCalls calls functionResponses st with
  | (st, Finished functionResponses) =>
      (sendLater (ToolResponse functionResponses) st, Finished functionResponses)
  | other => other
  end.

(** [if (msg.toolCall) { ... }] (lines 193-232), up to where it is left. *)
Definition toolDispatch (calls : list FunctionCall) (st : Live) : Live * LoopEnd :=
  respond calls [] st.

(** How a run of the handler ends: it returns, it throws, or it is set
    aside at an [await]. *)
Inductive Outcome : Type :=
| Returned
| Threw (e : JsError)
| Awaiting.

(** The audio lines of [onmessage] (lines 234-244); [currentTime] is
    [ctx.currentTime] when the buffer is scheduled. *)
Definition playAudio (currentTime : Q) (msg : Message) (st : Live) : Live * Outcome :=
  match audio msg with
  | Some (c :: payload) =>
      if outputContext st then
        match decodeAudioData (c :: payload) with
        | inl e => (st, Threw e)
        | inr buffer =>
            (set_playback (Playback.schedule buffer currentTime (playback st)) st,
             Returned)
        end
      else (st, Returned)
  | _ => (st, Returned)
  end.

(** The handler from some call of the tool loop to where it next stops:
    the rest of the loop, the tool response and the audio lines, or the
    [await] at which it is set aside.  The transcript lines, which touch
    nothing modelled here, are left out. *)
Definition proceed (currentTime : Q) (msg : Message) (calls : list FunctionCall)
  (functionResponses : list FunctionResponse) (st : Live) : Live * Outcome :=
  match respond calls functionResponses st with
  | (st, Finished _) => playAudio currentTime msg st
  | (st, Faulted e) => (st, Threw e)
  | (st, Waiting fc rest functionResponses) =>
      (set_suspended (suspended st ++ [mkTask fc rest functionResponses msg]) st,
       Awaiting)
  end.

(** [onmessage] (lines 190-250) from its start. *)
Definition onmessage (currentTime : Q) (msg : Message) (st : Live) : Live * Outcome :=
  if negb (mountedRef st) then (st, Returned)
  else
    match toolCall msg with
    | Some calls => proceed currentTime msg calls [] st
    | None => playAudio currentTime msg st
    end.

(** A handler goes on after its [await].  A snapshot that failed (the
    canvas gave no blob, the reader reported an error) makes the handler
    throw; one that succeeded is sent, as the base64 text [blobToBase64]
    resolved to, the response of its call is pushed and the loop goes on.
    The mounted flag is not read again. *)
Definition resume (snapshot : JsError + list ascii) (currentTime : Q) (k : Task)
  (st : Live) : Live * Outcome :=
  match snapshot with
  | inl e => (st, Threw e)
  | inr base64 =>
      let st := sendLater (RealtimeInput {| data := base64; mimeType := "image/jpeg" |}) st in
      proceed currentTime (message k) (remaining k)
        (pushed k ++ [acknowledge (awaiting k) result]) st
  end.

(** The effect's cleanup (lines 260-265). *)
Definition cleanup (st : Live) : Live := set_mountedRef false st.

Inductive Event : Type :=
| SessionReady
| AudioProcess (inputData : list Q)
| ServerMessage (currentTime : Q) (msg : Message)
| SnapshotSettled (n : nat) (snapshot : JsError + list ascii) (currentTime : Q)
    (* the snapshot the n-th waiting handler awaits has succeeded or failed *)
| Cleanup.

Definition step (st : Live) (e : Event) : Live :=
  match e with
  | SessionReady => set_session (fulfil (session st)) st
  | AudioProcess inputData => onaudioprocess inputData st
  | ServerMessage t msg => fst (onmessage t msg st)
  | SnapshotSettled n snapshot t =>
      match suspended st !! n with
      | Some k => fst (resume snapshot t k (set_suspended (delete n (suspended st)) st))
      | None => st
      end
  | Cleanup => cleanup st
  end.

Definition run (events : list Event) (st : Live) : Live :=
  fold_left step events st.

(** The overlays that show: the render tests [navData], [isAnalyzing] and
    [generatedImage] (lines 290-310). *)
Definition overlaysShown (st : Live) : nat :=
  ((match navData st with Some _ => 1 | None => 0 end)
   + (if isAnalyzing st then 1 else 0)
   + (match generatedImage st with Some _ => 1 | None => 0 end))%nat.

End LiveMode.

(* ------------------------------------------------------------------ *)
(** ** Data URLs

    [canvas.toDataURL] and [FileReader.readAsDataURL] give a text
    [data:<type>;base64,<base64 of the bytes>], with the media type written
    as the platform writes it (in lower case, [application/octet-stream] for
    a blob without type); the components cut the payload out of it with
    [split(',')[1]] ([EboLens.tsx] line 144, [LiveMode.tsx] line 41), and
    [dataURItoBlob] of the vision studio takes it apart again. *)

Module DataUrl.

Import Base64 Pcm.

(** [s.split(sep)] for a separator of one character: the pieces between
    the separators, at least one. *)
Fixpoint split (sep : ascii) (s : list ascii) : list (list ascii) :=
  match s with
  | [] => [[]]
  | c :: r =>
      if Ascii.eqb c sep then [] :: split sep r
      else
        match split sep r with
        | piece :: pieces => (c :: piece) :: pieces
        | [] => [[c]]
        end
  end.

(** The data URL of some bytes, under the media type [type] as it is
    written in the header. *)
Definition dataURL (type : list ascii) (bytes : list ascii) : list ascii :=
  list_ascii_of_string "data:" ++ type
  ++ list_ascii_of_string ";base64," ++ btoa bytes.

(** [result.split(',')[1]]: the payload of [blobToBase64]
    ([LiveMode.tsx] lines 38-45) and of the lens's snapshot; [None] is
    [undefined]. *)
Definition blobToBase64 (result : list ascii) : option (list ascii) :=
  nth_error (split ","%char result) 1.

Inductive Fault : Type :=
| InvalidCharacter   (* atob on a string that is not base64 *)
| NotAString.        (* .split on undefined *)

(** What a [Blob] holds: its bytes and its type. *)
Record FileBlob : Type := mkFileBlob {
  blobBytes : list Z;
  blobType : list ascii
}.

Definition isPrintable (c : ascii) : bool :=
  let n := nat_of_ascii c in (32 <=? n)%nat && (n <=? 126)%nat.

(** ASCII lower case. *)
Definition toLower (c : ascii) : ascii :=
  let n := nat_of_ascii c in
  if (65 <=? n)%nat && (n <=? 90)%nat then ascii_of_nat (n + 32) else c.

(** [new Blob([ab], { type })]: a type with a character outside U+0020 to
    U+007E is replaced by the empty type, any other is put in lower case. *)
Definition newBlob (bytes : list Z) (type : list ascii) : FileBlob :=
  {| blobBytes := bytes;
     blobType := if forallb isPrintable type then map toLower type else [] |}.

(** [reader.readAsDataURL(blob)]: a blob without type is written as
    [application/octet-stream]. *)
Definition readAsDataURL (blob : FileBlob) : list ascii :=
  dataURL (match blobType blob with
           | [] => list_ascii_of_string "application/octet-stream"
           | type => type
           end)
          (map fromCharCode (blobBytes blob)).

(** [dataURItoBlob(dataURI)] of the vision studio.  [atob(undefined)]
    decodes the text "undefined". *)
Definition dataURItoBlob (dataURI : list ascii) : Fault + FileBlob :=
  let payload :=
    match nth_error (split ","%char dataURI) 1 with
    | Some text => text
    | None => list_ascii_of_string "undefined"
    end in
  match atob payload with
  | None => inl InvalidCharacter
  | Some byteString =>
      let header := hd [] (split ","%char dataURI) in
      match nth_error (split ":"%char header) 1 with
      | None => inl NotAString
      | Some rest =>
          let mimeString := hd [] (split ";"%char rest) in
          inr (newBlob (map charCodeAt byteString) mimeString)
      end
  end.

End DataUrl.

(* ------------------------------------------------------------------ *)
(** ** The transcript lines of [LiveMode.tsx] (lines 116-120, 246-249) *)

Module Transcripts.

Inductive Speaker : Type := user | ai.

Record TranscriptItem : Type := mkItem {
  item_id : string;
  speaker : Speaker;
  text : option string       (* [None] is a transcription without text *)
}.

(** [prev.slice(-1)]. *)
Definition sliceLast (prev : list TranscriptItem) : list TranscriptItem :=
  skipn (length prev - 1) prev.

(** [prev => [...prev.slice(-1), item]]. *)
Definition push (item : TranscriptItem) (prev : list TranscriptItem)
  : list TranscriptItem :=
  sliceLast prev ++ [item].

(** The two [if] lines that close [onmessage]: [it] and [ot] are the
    input and output transcriptions of the message when it has them, each
    with its text; [now1] and [now2] are what [Date.now()] gives at each
    line. *)
Definition onTranscriptions (it ot : option (option string)) (now1 now2 : Z)
  (prev : list TranscriptItem) : list TranscriptItem :=
  let prev :=
    match it with
    | Some t => push {| item_id := pretty now1; speaker := user; text := t |} prev
    | None => prev
    end in
  match ot with
  | Some t => push {| item_id := pretty now2; speaker := ai; text := t |} prev
  | None => prev
  end.

(** The transcriptions of a run of messages, from the empty list the
    component starts with. *)
Definition runTranscriptions
  (msgs : list (option (option string) * option (option string) * Z * Z))
  : list TranscriptItem :=
  fold_left (fun prev m =>
               let '(it, ot, now1, now2) := m in
               onTranscriptions it ot now1 now2 prev) msgs [].

End Transcripts.

(* ------------------------------------------------------------------ *)
(** ** The image of [generateProImage] ([geminiService.ts] lines 130-137) *)

Module ProImage.

(** A part of the response, as the loop reads it: its [inlineData.data]
    when it has inline data. *)
Definition Part : Type := option string.

(** [for (const part of response.candidates?.[0]?.content?.parts || [])]:
    the first part with inline data gives the data URL, none gives [null].
    [parts] is [None] when the response has no candidate, content or
    parts. *)
Fixpoint firstImage (parts : list Part) : option string :=
  match parts with
  | [] => None
  | Some data :: _ => Some ("data:image/png;base64," +:+ data)
  | None :: rest => firstImage rest
  end.

Definition extractImage (parts : option (list Part)) : option string :=
  firstImage (default [] parts).

End ProImage.

(* ================================================================== *)
(** * Properties *)

(* ------------------------------------------------------------------ *)
(** ** [atob] undoes [btoa] *)

Module Base64Facts.

Import Base64.

Lemma b64val_b64char (s : sextet) : b64val (b64char s) = Some s.
Proof.
  destruct s as [[] [] [] [] [] []]; reflexivity.
Qed.

Lemma b64char_not_whitespace (s : sextet) :
  is_ascii_whitespace (b64char s) = false.
Proof.
  destruct s as [[] [] [] [] [] []]; reflexivity.
Qed.

Lemma b64char_not_pad (s : sextet) : Ascii.eqb (b64char s) pad = false.
Proof.
  destruct s as [[] [] [] [] [] []]; reflexivity.
Qed.

Lemma enc3_dec3 (a b c : ascii) :
  exists s0 s1 s2 s3,
    enc3 a b c = [b64char s0; b64char s1; b64char s2; b64char s3]
    /\ dec3 s0 s1 s2 s3 = [a; b; c].
Proof.
  destruct a, b, c; cbn [enc3]; do 4 eexists; split; reflexivity.
Qed.

Lemma enc2_dec3 (a b : ascii) :
  exists s0 s1 s2,
    enc2 a b = [b64char s0; b64char s1; b64char s2]
    /\ dec_groups [s0; s1; s2] = [a; b].
Proof.
  destruct a, b; cbn [enc2]; do 3 eexists; split; reflexivity.
Qed.

Lemma enc1_dec3 (a : ascii) :
  exists s0 s1,
    enc1 a = [b64char s0; b64char s1] /\ dec_groups [s0; s1] = [a].
Proof.
  destruct a; cbn [enc1]; do 2 eexists; split; reflexivity.
Qed.

(** Induction three bytes at a time, as [btoa] recurses. *)
Lemma triples_ind (P : list ascii -> Prop) :
  P [] -> (forall a, P [a]) -> (forall a b, P [a; b]) ->
  (forall a b c r, P r -> P (a :: b :: c :: r)) ->
  forall l, P l.
Proof.
  intros H0 H1 H2 H3.
  assert (A : forall l, P l /\ (forall a, P (a :: l)) /\ (forall a b, P (a :: b :: l))).
  { induction l as [|x l (IH0 & IH1 & IH2)].
    - auto.
    - repeat split; auto. }
  intro l; apply A.
Qed.

(** [btoa] without its closing [=]. *)
Fixpoint body (l : list ascii) : list ascii :=
  match l with
  | a :: b :: c :: r => enc3 a b c ++ body r
  | [a; b] => enc2 a b
  | [a] => enc1 a
  | [] => []
  end.

Lemma mod4_step (n : nat) : (S (S (S (S n))) mod 4 = n mod 4)%nat.
Proof.
  replace (S (S (S (S n)))) with (n + 1 * 4)%nat by lia.
  apply Nat.Div0.mod_add.
Qed.

Ltac b64 :=
  repeat first
    [ rewrite b64char_not_whitespace
    | rewrite b64char_not_pad
    | rewrite b64val_b64char
    | rewrite mod4_step ].

Lemma btoa_no_whitespace (l : list ascii) :
  List.filter (fun c => negb (is_ascii_whitespace c)) (btoa l) = btoa l.
Proof.
  induction l as [| a | a b | a b c r IH] using triples_ind.
  - reflexivity.
  - destruct (enc1_dec3 a) as (s0 & s1 & E & _); cbn [btoa]; rewrite E.
    cbn [List.filter app]; b64; reflexivity.
  - destruct (enc2_dec3 a b) as (s0 & s1 & s2 & E & _); cbn [btoa]; rewrite E.
    cbn [List.filter app]; b64; reflexivity.
  - destruct (enc3_dec3 a b c) as (s0 & s1 & s2 & s3 & E & _).
    cbn [btoa]; rewrite E; cbn [List.filter app]; b64; cbn [negb].
    rewrite IH; reflexivity.
Qed.

Lemma btoa_length (l : list ascii) : (length (btoa l) mod 4 = 0)%nat.
Proof.
  induction l as [| a | a b | a b c r IH] using triples_ind.
  - reflexivity.
  - destruct (enc1_dec3 a) as (s0 & s1 & E & _); cbn [btoa]; rewrite E; reflexivity.
  - destruct (enc2_dec3 a b) as (s0 & s1 & s2 & E & _); cbn [btoa]; rewrite E; reflexivity.
  - destruct (enc3_dec3 a b c) as (s0 & s1 & s2 & s3 & E & _).
    cbn [btoa]; rewrite E; cbn [app length]; b64; exact IH.
Qed.

Lemma strip_padding_btoa (l : list ascii) : strip_padding (btoa l) = body l.
Proof.
  induction l as [| a | a b | a b c r IH] using triples_ind.
  - reflexivity.
  - destruct (enc1_dec3 a) as (s0 & s1 & E & _); cbn [btoa body]; rewrite E.
    cbn [strip_padding app]; b64; reflexivity.
  - destruct (enc2_dec3 a b) as (s0 & s1 & s2 & E & _); cbn [btoa body]; rewrite E.
    cbn [strip_padding app]; b64; reflexivity.
  - destruct (enc3_dec3 a b c) as (s0 & s1 & s2 & s3 & E & _).
    cbn [btoa body]; rewrite E; cbn [app strip_padding]; b64.
    rewrite IH; reflexivity.
Qed.

Lemma body_length (l : list ascii) : (length (body l) mod 4 =? 1)%nat = false.
Proof.
  induction l as [| a | a b | a b c r IH] using triples_ind.
  - reflexivity.
  - destruct (enc1_dec3 a) as (s0 & s1 & E & _); cbn [body]; rewrite E; reflexivity.
  - destruct (enc2_dec3 a b) as (s0 & s1 & s2 & E & _); cbn [body]; rewrite E; reflexivity.
  - destruct (enc3_dec3 a b c) as (s0 & s1 & s2 & s3 & E & _).
    cbn [body]; rewrite E; cbn [app length]; b64; exact IH.
Qed.

Lemma body_decodes (l : list ascii) :
  option_map dec_groups (sextets (body l)) = Some l.
Proof.
  induction l as [| a | a b | a b c r IH] using triples_ind.
  - reflexivity.
  - destruct (enc1_dec3 a) as (s0 & s1 & E & D); cbn [body]; rewrite E.
    cbn [sextets]; b64; cbn [option_map]; rewrite D; reflexivity.
  - destruct (enc2_dec3 a b) as (s0 & s1 & s2 & E & D); cbn [body]; rewrite E.
    cbn [sextets]; b64; cbn [option_map]; rewrite D; reflexivity.
  - destruct (enc3_dec3 a b c) as (s0 & s1 & s2 & s3 & E & D).
    cbn [body]; rewrite E; cbn [app sextets]; b64.
    destruct (sextets (body r)) as [ss|]; [|discriminate].
    cbn [option_map] in *. injection IH as IH.
    cbn [dec_groups]. rewrite D, IH. reflexivity.
Qed.

(** Decoding what [btoa] made gives the binary string back. *)
Lemma atob_btoa (l : list ascii) : atob (btoa l) = Some l.
Proof.
  unfold atob.
  rewrite btoa_no_whitespace, btoa_length.
  cbn [Nat.eqb]. rewrite strip_padding_btoa, body_length.
  apply body_decodes.
Qed.

End Base64Facts.

(* ------------------------------------------------------------------ *)
(** ** The 16-bit PCM conversion *)

Module PcmFacts.

Import Js Base64 Pcm Base64Facts.

Lemma charCodeAt_fromCharCode (b : Z) :
  is_byte b -> charCodeAt (fromCharCode b) = b.
Proof.
  intros Hb. unfold charCodeAt, fromCharCode, is_byte in *.
  rewrite N_ascii_embedding by lia. lia.
Qed.

Lemma wrap16_range (z : Z) : -32768 <= wrap16 z < 32768.
Proof.
  unfold wrap16. pose proof (Z.mod_pos_bound z 65536 ltac:(lia)).
  destruct (Z.geb_spec (z mod 65536) 32768); lia.
Qed.

Lemma wrap16_small (z : Z) : -32768 <= z < 32768 -> wrap16 z = z.
Proof.
  intros Hz. unfold wrap16.
  destruct (Z.geb_spec (z mod 65536) 32768) as [H|H];
    Z.to_euclidean_division_equations; lia.
Qed.

Lemma wrap16_idem (z : Z) : wrap16 (wrap16 z) = wrap16 z.
Proof. apply wrap16_small, wrap16_range. Qed.

Lemma wrap16_mod (z : Z) : wrap16 (z mod 65536) = wrap16 z.
Proof. unfold wrap16. rewrite Z.mod_mod by lia. reflexivity. Qed.

Lemma int16_bytes_view (v : Z) :
  exists lo hi,
    int16_bytes v = [lo; hi] /\ is_byte lo /\ is_byte hi
    /\ wrap16 (lo + 256 * hi) = wrap16 v.
Proof.
  exists ((v mod 65536) mod 256), ((v mod 65536) / 256).
  unfold is_byte. repeat split; try (Z.to_euclidean_division_equations; lia).
  rewrite Z.add_comm, <- Z.div_mod by lia. apply wrap16_mod.
Qed.

Lemma Uint8Array_bytes (int16 : list Z) :
  Forall is_byte (Uint8Array_of_buffer int16).
Proof.
  induction int16 as [|v l IH]; [constructor|].
  destruct (int16_bytes_view v) as (lo & hi & E & Hlo & Hhi & _).
  unfold Uint8Array_of_buffer in *. cbn [flat_map]. rewrite E.
  cbn [app]. constructor; [assumption|]. constructor; assumption.
Qed.

Lemma Uint8Array_length (int16 : list Z) :
  length (Uint8Array_of_buffer int16) = (2 * length int16)%nat.
Proof.
  induction int16 as [|v l IH]; [reflexivity|].
  unfold Uint8Array_of_buffer in *. cbn [flat_map int16_bytes app length].
  rewrite IH. lia.
Qed.

(** The 16-bit view of the bytes gives the elements back. *)
Lemma Int16Array_of_Uint8Array (int16 : list Z) :
  Int16Array_of_buffer (Uint8Array_of_buffer int16) = map wrap16 int16.
Proof.
  induction int16 as [|v l IH]; [reflexivity|].
  destruct (int16_bytes_view v) as (lo & hi & E & _ & _ & W).
  unfold Uint8Array_of_buffer in *. cbn [flat_map]. rewrite E.
  cbn [app Int16Array_of_buffer map]. rewrite W, IH. reflexivity.
Qed.

Lemma charCodes_of_binary_string (bytes : list Z) :
  Forall is_byte bytes -> map charCodeAt (map fromCharCode bytes) = bytes.
Proof.
  induction 1 as [|b l Hb _ IH]; [reflexivity|].
  cbn [map]. rewrite charCodeAt_fromCharCode, IH by assumption. reflexivity.
Qed.

(** The payload of a packet, before base64. *)
Definition payload (samples : list Q) : list Z :=
  Uint8Array_of_buffer (map (fun x => ToInt16 (x * 32768)%Q) samples).

Lemma atob_createBlob (samples : list Q) :
  atob (data (createBlob samples)) = Some (map fromCharCode (payload samples)).
Proof. apply atob_btoa. Qed.

(** What the playback side decodes from a packet of the capture side. *)
Lemma decode_createBlob (samples : list Q) :
  samples <> [] ->
  decodeAudioData (data (createBlob samples))
  = inr {| channelData :=
             map (fun x => (inject_Z (ToInt16 (x * 32768)) / 32768)%Q) samples |}.
Proof.
  intros Hne. unfold decodeAudioData.
  rewrite atob_createBlob. unfold payload.
  rewrite charCodes_of_binary_string by apply Uint8Array_bytes.
  rewrite Uint8Array_length, Nat.odd_mul. cbn [Nat.odd Nat.even negb andb].
  rewrite Int16Array_of_Uint8Array.
  rewrite !length_map.
  destruct samples as [|x l]; [contradiction|]. cbn [length Nat.eqb].
  f_equal. f_equal. rewrite !map_map.
  apply map_ext. intros y. unfold ToInt16. rewrite wrap16_idem. reflexivity.
Qed.

(** Truncation stays within one unit, on the side of zero. *)
Lemma Qtrunc_bounds (y : Q) :
  ((0 <= y -> inject_Z (Qtrunc y) <= y /\ y < inject_Z (Qtrunc y) + 1)
   /\ (y <= 0 -> y <= inject_Z (Qtrunc y) /\ inject_Z (Qtrunc y) - 1 < y))%Q.
Proof.
  destruct y as [n d]. unfold Qtrunc, Qle, Qlt, Qminus, Qplus, Qopp, inject_Z.
  cbn [Qnum Qden]. rewrite ?Z.mul_1_r, ?Pos.mul_1_r.
  split; intros H; Z.to_euclidean_division_equations; nia.
Qed.

(** Below full scale the stored integer is the plain truncation. *)
Lemma ToInt16_below_full_scale (x : Q) :
  (-1 <= x)%Q -> (x < 1)%Q -> ToInt16 (x * 32768) = Qtrunc (x * 32768).
Proof.
  intros Hlo Hhi. unfold ToInt16. apply wrap16_small.
  destruct (Qtrunc_bounds (x * 32768)) as [Hpos Hneg].
  assert (A : (-32768 <= inject_Z (Qtrunc (x * 32768))
               /\ inject_Z (Qtrunc (x * 32768)) < 32768)%Q).
  { destruct (Qlt_le_dec (x * 32768) 0) as [Hn|Hp].
    - destruct Hneg as [H1 H2]; Lqa.lra.
    - destruct Hpos as [H1 H2]; Lqa.lra. }
  destruct A as [A B].
  rewrite <- (Zle_Qle (-32768)) in A. rewrite <- (Zlt_Qlt _ 32768) in B. lia.
Qed.

(** The quantization error of one sample below full scale. *)
Lemma sample_roundtrip_error (x : Q) :
  (-1 <= x)%Q -> (x < 1)%Q ->
  (Qabs (inject_Z (ToInt16 (x * 32768)) / 32768 - x) < 1 # 32768)%Q.
Proof.
  intros Hlo Hhi. rewrite ToInt16_below_full_scale by assumption.
  destruct (Qtrunc_bounds (x * 32768)) as [Hpos Hneg].
  set (t := inject_Z (Qtrunc (x * 32768))) in *.
  apply Qabs_Qlt_condition.
  assert (E : (t / 32768 - x == (t - x * 32768) / 32768)%Q) by field.
  rewrite E.
  destruct (Qlt_le_dec (x * 32768) 0) as [Hn|Hp].
  - destruct Hneg as [H1 H2]; [Lqa.lra|]. split.
    + apply Qlt_shift_div_l; Lqa.lra.
    + apply Qlt_shift_div_r; Lqa.lra.
  - destruct Hpos as [H1 H2]; [Lqa.lra|]. split.
    + apply Qlt_shift_div_l; Lqa.lra.
    + apply Qlt_shift_div_r; Lqa.lra.
Qed.

End PcmFacts.

(* ------------------------------------------------------------------ *)
(** ** The playback scheduler *)

Module PlaybackFacts.

Import Pcm Playback.

Lemma duration_nonneg (b : AudioBuffer) : (0 <= duration b)%Q.
Proof.
  unfold duration, sampleRate. apply Qle_shift_div_l; [reflexivity|].
  rewrite Qmult_0_l. change 0%Q with (inject_Z 0). rewrite <- Zle_Qle. lia.
Qed.

(** The start times a run of arrivals gets from a cursor, first to last. *)
Fixpoint startsFrom (cursor : Q) (arrivals : list (Q * AudioBuffer))
  : list (Q * AudioBuffer) :=
  match arrivals with
  | [] => []
  | (now, b) :: r =>
      (Qmax cursor now, b) :: startsFrom (Qmax cursor now + duration b) r
  end.

Fixpoint cursorAfter (cursor : Q) (arrivals : list (Q * AudioBuffer)) : Q :=
  match arrivals with
  | [] => cursor
  | (now, b) :: r => cursorAfter (Qmax cursor now + duration b) r
  end.

Lemma enqueueAll_spec (arrivals : list (Q * AudioBuffer)) (p : Scheduler) :
  enqueueAll arrivals p
  = {| nextStartTime := cursorAfter (nextStartTime p) arrivals;
       started := started p ++ startsFrom (nextStartTime p) arrivals |}.
Proof.
  revert p. induction arrivals as [|[now b] r IH]; intros p.
  - destruct p; cbn. rewrite app_nil_r. reflexivity.
  - change (enqueueAll ((now, b) :: r) p) with (enqueueAll r (schedule b now p)).
    rewrite IH. cbn. rewrite <- app_assoc. reflexivity.
Qed.

Lemma startsFrom_length (cursor : Q) (arrivals : list (Q * AudioBuffer)) :
  length (startsFrom cursor arrivals) = length arrivals.
Proof.
  revert cursor. induction arrivals as [|[now b] r IH]; intros c; cbn; auto.
Qed.

(** Each start is the later of the cursor it found and the device time,
    and the cursor it leaves is that start plus the duration. *)
Lemma startsFrom_nth (arrivals : list (Q * AudioBuffer)) (cursor : Q)
  (i : nat) (now : Q) (b : AudioBuffer) :
  nth_error arrivals i = Some (now, b) ->
  nth_error (startsFrom cursor arrivals) i
  = Some (Qmax (cursorAfter cursor (firstn i arrivals)) now, b)
  /\ cursorAfter cursor (firstn (S i) arrivals)
     = (Qmax (cursorAfter cursor (firstn i arrivals)) now + duration b)%Q.
Proof.
  revert cursor i. induction arrivals as [|[now' b'] r IH]; intros c i H.
  - destruct i; discriminate.
  - destruct i as [|i].
    + injection H as -> ->. cbn. destruct r; split; reflexivity.
    + cbn [nth_error] in H. apply (IH (Qmax c now' + duration b')%Q) in H.
      exact H.
Qed.

End PlaybackFacts.

Import Js Base64 Pcm Session.

(** C1, as amended.  For every sequence of fragments enqueued in playback
    order, from any cursor, every fragment is started once, at the later of
    the cursor it finds and the device time, and leaves the cursor at that
    start plus its duration; the fragment after it starts no earlier than it
    and no earlier than its end (no overlap), exactly at its end when it is
    scheduled no later than that end (gapless), and at the device time, after
    a gap, when it is scheduled later. *)
Theorem playback_starts_back_to_back_unless_late
  (cursor : Q) (arrivals : list (Q * AudioBuffer)) (i : nat)
  (now1 : Q) (b1 : AudioBuffer) :
  nth_error arrivals i = Some (now1, b1) ->
  let before n :=
    Playback.enqueueAll (firstn n arrivals) (Playback.mkScheduler cursor []) in
  let p := Playback.enqueueAll arrivals (Playback.mkScheduler cursor []) in
  length (Playback.started p) = length arrivals
  /\ exists t1 : Q,
      nth_error (Playback.started p) i = Some (t1, b1)
      /\ t1 = Qmax (Playback.nextStartTime (before i)) now1
      /\ Playback.nextStartTime (before (S i)) = (t1 + duration b1)%Q
      /\ forall (now2 : Q) (b2 : AudioBuffer),
          nth_error arrivals (S i) = Some (now2, b2) ->
          exists t2 : Q,
            nth_error (Playback.started p) (S i) = Some (t2, b2)
            /\ t2 = Qmax (t1 + duration b1) now2
            /\ (t1 <= t2)%Q
            /\ (t1 + duration b1 <= t2)%Q
            /\ ((now2 <= t1 + duration b1)%Q -> (t2 == t1 + duration b1)%Q)
            /\ ((t1 + duration b1 < now2)%Q -> (t2 == now2)%Q).
Proof.
  intros H1 before p. subst before p. cbv beta.
  rewrite !PlaybackFacts.enqueueAll_spec.
  cbn [Playback.nextStartTime Playback.started app].
  split; [apply PlaybackFacts.startsFrom_length|].
  destruct (PlaybackFacts.startsFrom_nth arrivals cursor i now1 b1 H1) as [S1 C1].
  eexists. split; [exact S1|]. split; [reflexivity|]. split; [exact C1|].
  intros now2 b2 H2.
  destruct (PlaybackFacts.startsFrom_nth arrivals cursor (S i) now2 b2 H2) as [S2 _].
  eexists. split; [exact S2|]. rewrite C1. split; [reflexivity|].
  set (t1 := Qmax (PlaybackFacts.cursorAfter cursor (firstn i arrivals)) now1).
  pose proof (PlaybackFacts.duration_nonneg b1) as D.
  pose proof (Q.le_max_l (t1 + duration b1) now2) as L.
  repeat split.
  - Lqa.lra.
  - exact L.
  - intros Hle. apply Q.max_l. exact Hle.
  - intros Hlt. apply Q.max_r. apply Qlt_le_weak. exact Hlt.
Qed.

(** C1, as stated, fails: a fragment scheduled after the one ahead of it has
    ended starts at the device time, not at that end.  One frame (1/24000 s)
    scheduled at time 0, the next at time 10: the starts are 0 and 10. *)
Lemma late_fragment_leaves_a_gap :
  exists (b : AudioBuffer) (t1 t2 : Q),
    Playback.started
      (Playback.enqueueAll [(0%Q, b); (10%Q, b)] Playback.initial)
    = [(t1, b); (t2, b)]
    /\ t1 = 0%Q /\ t2 = 10%Q /\ duration b = (1 # 24000)%Q
    /\ ~ (t2 == t1 + duration b)%Q.
Proof.
  exists {| channelData := [0%Q] |}, 0%Q, 10%Q.
  repeat split; try reflexivity.
  vm_compute. discriminate.
Qed.

(** Three fragments of two frames each, all scheduled at device time 0:
    the third starts where the second ends. *)
Lemma playback_starts_back_to_back_witness :
  exists t1 t2 : Q,
    nth_error
      (Playback.started
         (Playback.enqueueAll
            [(0%Q, mkBuffer [0%Q; 0%Q]); (0%Q, mkBuffer [0%Q; 0%Q]);
             (0%Q, mkBuffer [0%Q; 0%Q])]
            (Playback.mkScheduler 0%Q []))) 1 = Some (t1, mkBuffer [0%Q; 0%Q])
    /\ nth_error
         (Playback.started
            (Playback.enqueueAll
               [(0%Q, mkBuffer [0%Q; 0%Q]); (0%Q, mkBuffer [0%Q; 0%Q]);
                (0%Q, mkBuffer [0%Q; 0%Q])]
               (Playback.mkScheduler 0%Q []))) 2 = Some (t2, mkBuffer [0%Q; 0%Q])
    /\ (t2 == t1 + duration (mkBuffer [0%Q; 0%Q]))%Q.
Proof.
  destruct (playback_starts_back_to_back_unless_late 0%Q
              [(0%Q, mkBuffer [0%Q; 0%Q]); (0%Q, mkBuffer [0%Q; 0%Q]);
               (0%Q, mkBuffer [0%Q; 0%Q])] 1 0%Q
              (mkBuffer [0%Q; 0%Q]) eq_refl)
    as (_ & t1 & S1 & E1 & _ & Next).
  destruct (Next 0%Q (mkBuffer [0%Q; 0%Q]) eq_refl)
    as (t2 & S2 & _ & _ & _ & Hback & _).
  exists t1, t2. split; [exact S1|]. split; [exact S2|].
  apply Hback. rewrite E1. vm_compute. discriminate.
Defined.

(* ------------------------------------------------------------------ *)
(** ** Tool dispatch *)

Module ToolFacts.

Lemma handed_thenSend (x : Outgoing) (p : Promise) :
  handed (thenSend x p) = handed p ++ [x].
Proof.
  unfold handed, thenSend. destruct (state p); cbn.
  - rewrite app_assoc. reflexivity.
  - reflexivity.
Qed.

Lemma sent_fulfil (p : Promise) : sent (fulfil p) = handed p.
Proof. unfold handed, fulfil. destruct (state p) eqn:E; cbn; reflexivity. Qed.

Lemma toolResponses_app (l1 l2 : list Outgoing) :
  toolResponses (l1 ++ l2) = toolResponses l1 ++ toolResponses l2.
Proof. apply flat_map_app. Qed.

(** The acknowledgment the lens builds for a call. *)
Definition lensAck (fc : FunctionCall) : FunctionResponse :=
  acknowledge fc {[ "ok" := JBool true ]}.

(** A call of the lens adds one acknowledgment and no tool response of
    its own to the session. *)
Lemma lens_dispatch (frame : list ascii) (st : EboLens.Lens)
  (rs : list FunctionResponse) (fc : FunctionCall) :
  snd (EboLens.dispatch frame (st, rs) fc) = rs ++ [lensAck fc]
  /\ toolResponses (handed (EboLens.session (fst (EboLens.dispatch frame (st, rs) fc))))
     = toolResponses (handed (EboLens.session st)).
Proof.
  unfold EboLens.dispatch, EboLens.startRec, EboLens.isRecording_in_effect,
    EboLens.sendLater, EboLens.setTimeout.
  split; [reflexivity|].
  destruct (String.eqb (fc_name fc) "capture_and_analyze");
    destruct (String.eqb (fc_name fc) "record_video_clip");
    destruct st as [? ? ? ? ? str vid ? ? ses ? ? ? ?];
    destruct str, vid; cbn;
    rewrite ?handed_thenSend, ?toolResponses_app, ?app_nil_r; reflexivity.
Qed.

Lemma lens_loop (frame : list ascii) (calls : list FunctionCall)
  (st : EboLens.Lens) (rs : list FunctionResponse) :
  snd (fold_left (EboLens.dispatch frame) calls (st, rs)) = rs ++ map lensAck calls
  /\ toolResponses
       (handed (EboLens.session (fst (fold_left (EboLens.dispatch frame) calls (st, rs)))))
     = toolResponses (handed (EboLens.session st)).
Proof.
  revert st rs. induction calls as [|fc calls IH]; intros st rs.
  - cbn. rewrite app_nil_r. auto.
  - cbn [fold_left map].
    destruct (lens_dispatch frame st rs fc) as [A B].
    destruct (EboLens.dispatch frame (st, rs) fc) as [st1 rs1].
    cbn [fst snd] in A, B. subst rs1.
    destruct (IH st1 (rs ++ [lensAck fc])) as [C D].
    rewrite C, D, B, <- app_assoc. auto.
Qed.

End ToolFacts.

(* ------------------------------------------------------------------ *)
(** ** The tool loop of [LiveMode.tsx] *)

Module LoopFacts.

Import LiveMode.

(** The state a call's chain has set when it is left. *)
Definition stateOf (b : Branch) : Live :=
  match b with
  | Completes st | Throws st _ | Awaits st => st
  end.

(** What the loop does not touch: everything but the overlays. *)
Definition bridge (st : Live)
  : bool * R * bool * bool * Playback.Scheduler * Promise * list Task :=
  (mountedRef st, volume st, video st, outputContext st, playback st, session st,
   suspended st).

Lemma handleCall_bridge (fc : FunctionCall) (st : Live) :
  bridge (stateOf (handleCall fc st)) = bridge st.
Proof.
  unfold handleCall.
  destruct (String.eqb (fc_name fc) "startNavigation");
    [destruct (fc_args fc); reflexivity|].
  destruct (String.eqb (fc_name fc) "analyzeSurroundings").
  { destruct st as [m v n g a vid o p s k]; destruct vid; reflexivity. }
  destruct (String.eqb (fc_name fc) "generateHologram");
    [destruct (fc_args fc); reflexivity|].
  destruct (String.eqb (fc_name fc) "stopSystem"); reflexivity.
Qed.

Lemma forCalls_bridge (calls : list FunctionCall) (rs : list FunctionResponse)
  (st : Live) :
  bridge (fst (forCalls calls rs st)) = bridge st.
Proof.
  revert rs st. induction calls as [|fc calls IH]; intros rs st; [reflexivity|].
  cbn [forCalls]. pose proof (handleCall_bridge fc st) as H.
  destruct (handleCall fc st) as [st1|st1 e|st1]; cbn [stateOf fst] in *.
  - rewrite IH. exact H.
  - exact H.
  - exact H.
Qed.

(** The acknowledgment the loop pushes for a call, written out. *)
Definition liveAck (fc : FunctionCall) : FunctionResponse :=
  {| fr_id := fc_id fc; fr_name := fc_name fc;
     fr_response := {[ "status" := JStr "ok" ]} |}.

(** A loop that is left at its end has pushed one response per call. *)
Lemma forCalls_finished (calls : list FunctionCall) (rs rs1 : list FunctionResponse)
  (st st1 : Live) :
  forCalls calls rs st = (st1, Finished rs1) -> rs1 = rs ++ map liveAck calls.
Proof.
  revert rs st. induction calls as [|fc calls IH]; intros rs st H.
  - cbn in H. injection H as _ <-. symmetry. apply app_nil_r.
  - cbn [forCalls] in H.
    destruct (handleCall fc st) as [st2|st2 e|st2]; try discriminate.
    apply IH in H. rewrite H, <- app_assoc. reflexivity.
Qed.

(** A call that reads no [args] it does not have, and needs no
    snapshot, runs to its end. *)
Definition runsThrough (video : bool) (fc : FunctionCall) : Prop :=
  (String.eqb (fc_name fc) "startNavigation" = true -> fc_args fc <> None)
  /\ (String.eqb (fc_name fc) "generateHologram" = true -> fc_args fc <> None)
  /\ (String.eqb (fc_name fc) "analyzeSurroundings" = true -> video = false).

Lemma handleCall_completes (fc : FunctionCall) (st : Live) :
  runsThrough (video st) fc -> exists st1, handleCall fc st = Completes st1.
Proof.
  intros (N & G & A). unfold handleCall.
  destruct (String.eqb (fc_name fc) "startNavigation").
  { destruct (fc_args fc); [eauto|]. exfalso. apply N; reflexivity. }
  destruct (String.eqb (fc_name fc) "analyzeSurroundings").
  { change (video (setNavData None (setIsAnalyzing true st))) with (video st).
    rewrite A by reflexivity. eauto. }
  destruct (String.eqb (fc_name fc) "generateHologram").
  { destruct (fc_args fc); [eauto|]. exfalso. apply G; reflexivity. }
  destruct (String.eqb (fc_name fc) "stopSystem"); eauto.
Qed.

Lemma forCalls_runs_through (calls : list FunctionCall) (rs : list FunctionResponse)
  (st : Live) :
  Forall (runsThrough (video st)) calls ->
  exists st1, forCalls calls rs st = (st1, Finished (rs ++ map liveAck calls)).
Proof.
  intros H. revert rs st H. induction calls as [|fc calls IH]; intros rs st H.
  - exists st. cbn. rewrite app_nil_r. reflexivity.
  - inversion H as [|? ? Hfc Hcalls]; subst.
    destruct (handleCall_completes fc st Hfc) as (st1 & E).
    pose proof (handleCall_bridge fc st) as B. rewrite E in B. cbn [stateOf] in B.
    assert (V : video st1 = video st) by (unfold bridge in B; congruence).
    cbn [forCalls]. rewrite E.
    destruct (IH (rs ++ [acknowledge fc result]) st1) as (st2 & E2).
    { rewrite V. exact Hcalls. }
    exists st2. rewrite E2. cbn [map]. rewrite <- app_assoc. reflexivity.
Qed.

End LoopFacts.

(** C3, at the input where the code departs from it.  A batch of two
    calls whose first is a [startNavigation] that carries no [args]: in
    [LiveMode.tsx] the read of [args.destination] throws, the loop is left
    before any response is pushed, and nothing is ever handed to the session,
    so neither call is acknowledged.  The lens, which reads its argument
    through [?.], acknowledges both calls of the same batch, and so does
    [LiveMode.tsx] when the call carries an empty [args]. *)
Theorem call_without_args_is_not_acknowledged :
  let nav := {| fc_id := "1"; fc_name := "startNavigation"; fc_args := None |} in
  let stop := {| fc_id := "2"; fc_name := "stopSystem"; fc_args := None |} in
  let msg := mkMessage None (Some [nav; stop]) in
  let nav' := {| fc_id := "1"; fc_name := "startNavigation"; fc_args := Some ∅ |} in
  let msg' := mkMessage None (Some [nav'; stop]) in
  LiveMode.onmessage 0%Q msg LiveMode.mounted
  = (LiveMode.mounted, LiveMode.Threw TypeError)
  /\ handed (LiveMode.session
               (LiveMode.run [LiveMode.ServerMessage 0%Q msg; LiveMode.SessionReady]
                  LiveMode.mounted)) = []
  /\ toolResponses
       (handed (EboLens.session
                  (EboLens.run [EboLens.ServerMessage 0%Q [] msg] EboLens.mounted)))
     = [[ {| fr_id := "1"; fr_name := "startNavigation";
             fr_response := {[ "ok" := JBool true ]} |};
          {| fr_id := "2"; fr_name := "stopSystem";
             fr_response := {[ "ok" := JBool true ]} |} ]]
  /\ toolResponses
       (handed (LiveMode.session
                  (LiveMode.run [LiveMode.ServerMessage 0%Q msg'] LiveMode.mounted)))
     = [[ {| fr_id := "1"; fr_name := "startNavigation";
             fr_response := {[ "status" := JStr "ok" ]} |};
          {| fr_id := "2"; fr_name := "stopSystem";
             fr_response := {[ "status" := JStr "ok" ]} |} ]].
Proof. cbv zeta. repeat split; vm_compute; reflexivity. Qed.

(* ------------------------------------------------------------------ *)
(** ** The overlays of [LiveMode.tsx] *)

Module OverlayFacts.

Import LiveMode LoopFacts.

(** [startNavigation], [generateHologram] and [stopSystem] leave at most
    the overlay they set. *)
Lemma exclusive_but_for_analyze (fc : FunctionCall) (st st1 : Live) :
  fc_name fc = "startNavigation" \/ fc_name fc = "generateHologram"
  \/ fc_name fc = "stopSystem" ->
  handleCall fc st = Completes st1 ->
  (overlaysShown st1 <= 1)%nat.
Proof.
  unfold handleCall, overlaysShown.
  intros [E | [E | E]]; rewrite E; cbn [String.eqb Ascii.eqb Bool.eqb];
    try (destruct (fc_args fc); [|discriminate]);
    intros H; injection H as <-; cbn; lia.
Qed.

Lemma startNavigation_clears_image (fc : FunctionCall) (st st1 : Live) :
  fc_name fc = "startNavigation" ->
  handleCall fc st = Completes st1 ->
  generatedImage st1 = None /\ isAnalyzing st1 = false.
Proof.
  unfold handleCall. intros ->. cbn [String.eqb Ascii.eqb Bool.eqb].
  destruct (fc_args fc); [|discriminate].
  intros H; injection H as <-. cbn. auto.
Qed.

Lemma stopSystem_clears_all (fc : FunctionCall) (st : Live) :
  fc_name fc = "stopSystem" ->
  exists st1 : Live,
    handleCall fc st = Completes st1
    /\ navData st1 = None /\ generatedImage st1 = None /\ isAnalyzing st1 = false.
Proof. unfold handleCall. intros ->. cbn. eauto. Qed.

(** [analyzeSurroundings] clears the navigation overlay and leaves the
    generated image as it was. *)
Lemma analyze_keeps_image (fc : FunctionCall) (st : Live) :
  fc_name fc = "analyzeSurroundings" ->
  navData (stateOf (handleCall fc st)) = None
  /\ isAnalyzing (stateOf (handleCall fc st)) = true
  /\ generatedImage (stateOf (handleCall fc st)) = generatedImage st.
Proof.
  unfold handleCall. intros ->. cbn [String.eqb Ascii.eqb Bool.eqb].
  change (video (setNavData None (setIsAnalyzing true st))) with (video st).
  destruct (video st); cbn; auto.
Qed.

End OverlayFacts.

(** C4, at the input where the code departs from it.  After
    [generateHologram] then [analyzeSurroundings], in one batch or in two
    messages, the analyzing flag is set and the generated image is still
    there: two overlays show at once, while the handler waits for its
    snapshot and after the snapshot has arrived.  The other three tools clear
    what they do not set ([OverlayFacts.exclusive_but_for_analyze]). *)
Theorem analyze_after_hologram_shows_two_overlays :
  let holo := {| fc_id := "1"; fc_name := "generateHologram";
                 fc_args := Some {[ "prompt" := JStr "a red kite" ]} |} in
  let look := {| fc_id := "2"; fc_name := "analyzeSurroundings"; fc_args := Some ∅ |} in
  let image :=
    LiveMode.Tpl "https://source.unsplash.com/random/800x800/?futuristic,"
                 (JStr "a red kite") in
  let st := fst (LiveMode.toolDispatch [holo; look] LiveMode.mounted) in
  let st' :=
    LiveMode.run [LiveMode.ServerMessage 0%Q (mkMessage None (Some [holo]));
                  LiveMode.ServerMessage 0%Q (mkMessage None (Some [look]))]
                 LiveMode.mounted in
  let st'' := LiveMode.run [LiveMode.SnapshotSettled 0 (inr []) 0%Q] st' in
  LiveMode.isAnalyzing st = true
  /\ LiveMode.generatedImage st = Some image
  /\ LiveMode.navData st = None
  /\ LiveMode.overlaysShown st = 2%nat
  /\ LiveMode.isAnalyzing st' = true
  /\ LiveMode.generatedImage st' = Some image
  /\ LiveMode.overlaysShown st' = 2%nat
  /\ LiveMode.suspended st'' = []
  /\ LiveMode.isAnalyzing st'' = true
  /\ LiveMode.generatedImage st'' = Some image
  /\ LiveMode.overlaysShown st'' = 2%nat.
Proof. cbv zeta. repeat split; vm_compute; reflexivity. Qed.

(** C10, at the input where the code departs from it.  A
    [startNavigation] call that carries no [args]: the read of
    [args.destination] throws before [setNavData] is reached, so no
    navigation overlay is set and no default is filled in.  With an empty
    [args] the defaults are there. *)
Theorem startNavigation_without_args_sets_no_overlay :
  let call := {| fc_id := "1"; fc_name := "startNavigation"; fc_args := None |} in
  let call' := {| fc_id := "1"; fc_name := "startNavigation"; fc_args := Some ∅ |} in
  LiveMode.handleCall call LiveMode.mounted
  = LiveMode.Throws LiveMode.mounted TypeError
  /\ LiveMode.navData
       (LiveMode.run [LiveMode.ServerMessage 0%Q (mkMessage None (Some [call]))]
          LiveMode.mounted) = None
  /\ LiveMode.navData
       (LiveMode.run [LiveMode.ServerMessage 0%Q (mkMessage None (Some [call']))]
          LiveMode.mounted)
     = Some {| LiveMode.nav_isActive := true; LiveMode.destination := JUndefined;
               LiveMode.direction := JStr "STRAIGHT"; LiveMode.distance := JStr "...";
               LiveMode.eta := "5 min" |}.
Proof. cbv zeta. repeat split; vm_compute; reflexivity. Qed.

(** X27.  For every [startNavigation] call that carries [args], the
    navigation overlay is set with [eta] the constant '5 min'; its direction
    is the call's [direction] when that is there and not empty and 'STRAIGHT'
    otherwise (absent, undefined, null or ''), its distance the call's
    [estimatedDistance] when that is there and not empty and '...'
    otherwise. *)
Theorem startNavigation_fills_defaults
  (fc : FunctionCall) (args : gmap string JsVal) (st : LiveMode.Live) :
  fc_name fc = "startNavigation" ->
  fc_args fc = Some args ->
  exists (st1 : LiveMode.Live) (nav : LiveMode.NavigationData),
    LiveMode.handleCall fc st = LiveMode.Completes st1
    /\ LiveMode.navData st1 = Some nav
    /\ LiveMode.nav_isActive nav = true
    /\ LiveMode.destination nav = default JUndefined (args !! "destination")
    /\ LiveMode.eta nav = "5 min"
    /\ (forall v : JsVal,
           args !! "direction" = Some v -> truthy v = true ->
           LiveMode.direction nav = v)
    /\ (forall v : JsVal,
           args !! "direction" = Some v -> truthy v = false ->
           LiveMode.direction nav = JStr "STRAIGHT")
    /\ (args !! "direction" = None -> LiveMode.direction nav = JStr "STRAIGHT")
    /\ (forall v : JsVal,
           args !! "estimatedDistance" = Some v -> truthy v = true ->
           LiveMode.distance nav = v)
    /\ (forall v : JsVal,
           args !! "estimatedDistance" = Some v -> truthy v = false ->
           LiveMode.distance nav = JStr "...")
    /\ (args !! "estimatedDistance" = None -> LiveMode.distance nav = JStr "...")
    /\ truthy JUndefined = false /\ truthy JNull = false
    /\ truthy (JStr "") = false /\ truthy (JNum 0) = false
    /\ truthy (JBool false) = false
    /\ truthy (JStr "LEFT") = true.
Proof.
  intros E A. unfold LiveMode.handleCall. rewrite E, A.
  cbn [String.eqb Ascii.eqb Bool.eqb].
  do 2 eexists. split; [reflexivity|]. cbn. split; [reflexivity|].
  unfold js_or, get.
  repeat split; try reflexivity.
  - intros v -> T. cbn. rewrite T. reflexivity.
  - intros v -> T. cbn. rewrite T. reflexivity.
  - intros ->. reflexivity.
  - intros v -> T. cbn. rewrite T. reflexivity.
  - intros v -> T. cbn. rewrite T. reflexivity.
  - intros ->. reflexivity.
Qed.

(** A call with a destination and an empty direction. *)
Lemma startNavigation_fills_defaults_witness :
  exists (st1 : LiveMode.Live) (nav : LiveMode.NavigationData),
    LiveMode.handleCall
      {| fc_id := "7"; fc_name := "startNavigation";
         fc_args := Some {[ "destination" := JStr "Harbour"; "direction" := JStr "" ]} |}
      LiveMode.mounted = LiveMode.Completes st1
    /\ LiveMode.navData st1 = Some nav
    /\ LiveMode.eta nav = "5 min"
    /\ LiveMode.direction nav = JStr "STRAIGHT"
    /\ LiveMode.distance nav = JStr "...".
Proof.
  destruct (startNavigation_fills_defaults
              {| fc_id := "7"; fc_name := "startNavigation";
                 fc_args := Some {[ "destination" := JStr "Harbour";
                                    "direction" := JStr "" ]} |}
              {[ "destination" := JStr "Harbour"; "direction" := JStr "" ]}
              LiveMode.mounted eq_refl eq_refl)
    as (st1 & nav & H & N & _ & _ & Eta & _ & Dir & _ & _ & _ & Dist & _).
  exists st1, nav. split; [exact H|]. split; [exact N|]. split; [exact Eta|]. split.
  - apply (Dir (JStr "")); vm_compute; reflexivity.
  - apply Dist. vm_compute. reflexivity.
Defined.

(* ------------------------------------------------------------------ *)
(** ** The lens: capture, playback and teardown *)

Module LensFacts.

Import EboLens.

Lemma onaudioprocess_active (data : list Q) (st : Lens) :
  isActive st = true ->
  isActive (onaudioprocess data st) = true
  /\ handed (session (onaudioprocess data st))
     = handed (session st) ++ [RealtimeInput (createBlob data)].
Proof.
  intros A. unfold onaudioprocess, sendLater. rewrite A. cbn.
  rewrite ToolFacts.handed_thenSend. auto.
Qed.

Lemma capture_in_order (frames : list (list Q)) (st : Lens) :
  isActive st = true ->
  handed (session (run (map AudioProcess frames) st))
  = handed (session st) ++ map (fun f => RealtimeInput (createBlob f)) frames.
Proof.
  revert st. induction frames as [|f frames IH]; intros st A.
  - cbn. rewrite app_nil_r. reflexivity.
  - cbn [map run fold_left step].
    destruct (onaudioprocess_active f st A) as [A' H].
    fold (run (map AudioProcess frames) (onaudioprocess f st)).
    rewrite IH by exact A'. rewrite H, <- app_assoc. reflexivity.
Qed.

(** What the scheduler's progress depends on. *)
Definition view (st : Lens) : bool * bool * Playback.Scheduler :=
  (isActive st, outputCtx st, playback st).

Definition viewStep (v : bool * bool * Playback.Scheduler) (e : Event)
  : bool * bool * Playback.Scheduler :=
  let '(active, ctx, p) := v in
  match e with
  | ServerMessage t _ msg =>
      match audio msg with
      | Some (c :: payload) =>
          if active && ctx then
            match decodeAudioData (c :: payload) with
            | inl _ => v
            | inr buffer => (active, ctx, Playback.schedule buffer t p)
            end
          else v
      | _ => v
      end
  | Cleanup => (false, ctx, p)
  | _ => v
  end.

Lemma view_dispatch (frame : list ascii) (st : Lens)
  (rs : list FunctionResponse) (fc : FunctionCall) :
  view (fst (dispatch frame (st, rs) fc)) = view st.
Proof.
  unfold dispatch, startRec, isRecording_in_effect, sendLater, setTimeout.
  destruct (String.eqb (fc_name fc) "capture_and_analyze");
    destruct (String.eqb (fc_name fc) "record_video_clip");
    destruct st as [? ? ? ? ? str vid ? ? ses ? ? ? ?];
    destruct str, vid; reflexivity.
Qed.

Lemma view_toolDispatch (frame : list ascii) (calls : list FunctionCall) (st : Lens) :
  view (toolDispatch frame calls st) = view st.
Proof.
  unfold toolDispatch.
  assert (H : forall rs, view (fst (fold_left (dispatch frame) calls (st, rs))) = view st).
  { revert st. induction calls as [|fc calls IH]; intros st rs; [reflexivity|].
    cbn [fold_left]. pose proof (view_dispatch frame st rs fc) as V.
    destruct (dispatch frame (st, rs) fc) as [st1 rs1]. cbn [fst] in V.
    rewrite IH. exact V. }
  specialize (H []).
  destruct (fold_left (dispatch frame) calls (st, [])) as [st1 rs1].
  exact H.
Qed.

Lemma view_step (st : Lens) (e : Event) : view (step st e) = viewStep (view st) e.
Proof.
  destruct e as [| data | t frame msg | n | chunk | r now |]; cbn [step].
  - reflexivity.
  - unfold onaudioprocess. destruct (isActive st); reflexivity.
  - unfold onmessage, viewStep. unfold view at 2.
    destruct (isActive st) eqn:A; cbn [negb andb].
    2:{ cbn [fst]. unfold view. rewrite A.
        destruct (audio msg) as [[|c payload]|]; reflexivity. }
    destruct (audio msg) as [[|c payload]|];
      [| destruct (outputCtx st) eqn:C;
         [destruct (decodeAudioData (c :: payload)) as [err|buffer] |] |];
      destruct (toolCall msg) as [calls|]; cbn [fst];
      rewrite ?view_toolDispatch; unfold view;
      cbn [isActive outputCtx playback set_playback set_isAiSpeaking];
      rewrite ?A, ?C; reflexivity.
  - unfold view. destruct (timers st !! n) as [[d a [|]]|]; try reflexivity.
    destruct a as [|r]; cbn; [reflexivity|].
    destruct (recorders st !! r) as [[| |]|]; reflexivity.
  - reflexivity.
  - unfold view. destruct (recorders st !! r) as [[| |]|]; reflexivity.
  - unfold cleanup, view. cbn [stream set_isActive].
    destruct (stream st); reflexivity.
Qed.

Lemma view_run (events : list Event) (st : Lens) :
  view (run events st) = fold_left viewStep events (view st).
Proof.
  revert st. induction events as [|e events IH]; intros st; [reflexivity|].
  cbn [run fold_left]. fold (run events (step st e)).
  rewrite IH, view_step. reflexivity.
Qed.

(** X16.  After the cleanup no handler sends: a session that is there stays as
    it is, whatever arrives. *)
Lemma torn_down_is_silent (events : list Event) (st : Lens) :
  isActive st = false ->
  state (session st) = Fulfilled ->
  isActive (run events st) = false
  /\ session (run events st) = session st.
Proof.
  revert st. induction events as [|e events IH]; intros st A F; [auto|].
  cbn [run fold_left]. fold (run events (step st e)).
  assert (H : isActive (step st e) = false /\ session (step st e) = session st).
  { destruct e as [| data | t frame msg | n | chunk | r now |]; cbn [step].
    - unfold fulfil. rewrite F. destruct st; cbn in *. destruct session0; cbn in *.
      subst. auto.
    - unfold onaudioprocess. rewrite A. auto.
    - unfold onmessage. rewrite A. auto.
    - destruct (timers st !! n) as [[d a [|]]|]; auto.
      destruct a as [|r]; cbn; auto.
      destruct (recorders st !! r) as [[| |]|]; auto.
    - auto.
    - destruct (recorders st !! r) as [[| |]|]; auto.
    - unfold cleanup. cbn [stream set_isActive]. destruct (stream st); auto. }
  destruct H as [A' S'].
  destruct (IH (step st e) A') as [A'' S'']; [rewrite S'; exact F|].
  rewrite A'', S'', S'. auto.
Qed.

End LensFacts.

(** C5, at the input where the code departs from it.  A captured frame
    whose first sample is at full scale, 1.0: the product 32768 does not fit
    sixteen bits and the store into the [Int16Array] keeps -32768, so the
    payload of the packet starts with the bytes 0x00 0x80, the integer
    -32768, and not the truncated product.  The packet is the only one for
    the frame, it is tagged audio/pcm;rate=16000 and has two bytes per
    sample, and the second sample, 0.5, is packed as its truncated product
    16384. *)
Theorem full_scale_frame_is_packed_as_minus_32768 :
  let frame := [1%Q; (1 # 2)%Q] in
  let st :=
    EboLens.run [EboLens.AudioProcess frame; EboLens.SessionReady] EboLens.mounted in
  Forall normalized frame
  /\ sent (EboLens.session st)
     = [RealtimeInput {| data := list_ascii_of_string "AIAAQA==";
                         mimeType := "audio/pcm;rate=16000" |}]
  /\ option_map (map (fun c => Z.of_N (N_of_ascii c)))
                (atob (list_ascii_of_string "AIAAQA==")) = Some [0; 128; 0; 64]
  /\ Int16Array_of_buffer [0; 128; 0; 64] = [0 + 256 * 128 - 65536; 0 + 256 * 64]
  /\ (1 * 32768 == inject_Z 32768)%Q
  /\ ((1 # 2) * 32768 == inject_Z 16384)%Q
  /\ 0 + 256 * 128 - 65536 = -32768
  /\ ~ (1 * 32768 == inject_Z (-32768))%Q.
Proof.
  cbv zeta.
  split; [repeat (constructor; [split; discriminate|]); constructor|].
  repeat split; try (vm_compute; reflexivity).
  vm_compute. discriminate.
Qed.

(* ------------------------------------------------------------------ *)
(** ** The packets of the capture callback *)

Module PacketFacts.

Import PcmFacts.

(** The bytes of the i-th element of the buffer. *)
Lemma Uint8Array_nth (int16 : list Z) (i : nat) (v : Z) :
  nth_error int16 i = Some v ->
  nth_error (Uint8Array_of_buffer int16) (2 * i) = Some ((v mod 65536) mod 256)
  /\ nth_error (Uint8Array_of_buffer int16) (2 * i + 1) = Some ((v mod 65536) / 256).
Proof.
  revert i. induction int16 as [|w l IH]; intros i H.
  - destruct i; discriminate.
  - destruct i as [|i].
    + injection H as ->. split; reflexivity.
    + cbn [nth_error] in H. destruct (IH i H) as [A B].
      replace (2 * S i)%nat with (S (S (2 * i))) by lia.
      replace (S (S (2 * i)) + 1)%nat with (S (S (2 * i + 1))) by lia.
      unfold Uint8Array_of_buffer in *. cbn [flat_map int16_bytes app nth_error].
      auto.
Qed.

(** The two bytes of a 16-bit integer, low byte first, in two's
    complement. *)
Lemma int16_two_bytes (v : Z) :
  -32768 <= v < 32768 ->
  (v mod 65536) mod 256 = v mod 256 /\ (v mod 65536) / 256 = (v / 256) mod 256.
Proof. intros H. split; Z.to_euclidean_division_equations; lia. Qed.

Lemma fromCharCode_ascii (b : Z) :
  is_byte b -> Z.of_N (N_of_ascii (fromCharCode b)) = b.
Proof. apply charCodeAt_fromCharCode. Qed.

End PacketFacts.

(** X28.  For every sequence of frames the capture callback of the lens
    receives while the bridge is active, the packets handed to the session
    are one per frame, in the order of the frames, and all of them are sent
    once the session is there; each is tagged audio/pcm;rate=16000, and its
    base64 text decodes to two bytes per sample; for every sample below full
    scale, of [-1, 1), the two bytes are, low byte first and in two's
    complement, the integer that is the product [sample * 32768] with its
    fraction cut off toward zero. *)
Theorem capture_emits_one_packet_per_frame
  (frames : list (list Q)) (st : EboLens.Lens) :
  EboLens.isActive st = true ->
  exists packets : list Blob,
    handed (EboLens.session (EboLens.run (map EboLens.AudioProcess frames) st))
    = handed (EboLens.session st) ++ map RealtimeInput packets
    /\ sent (EboLens.session
               (EboLens.run (map EboLens.AudioProcess frames ++ [EboLens.SessionReady]) st))
       = handed (EboLens.session st) ++ map RealtimeInput packets
    /\ Forall2
         (fun frame packet =>
            mimeType packet = "audio/pcm;rate=16000"
            /\ exists chars : list ascii,
                atob (data packet) = Some chars
                /\ length chars = (2 * length frame)%nat
                /\ forall (i : nat) (x : Q),
                    nth_error frame i = Some x -> (-1 <= x)%Q -> (x < 1)%Q ->
                    exists v : Z,
                      -32768 <= v < 32768
                      /\ option_map (fun c => Z.of_N (N_of_ascii c))
                                    (nth_error chars (2 * i)) = Some (v mod 256)
                      /\ option_map (fun c => Z.of_N (N_of_ascii c))
                                    (nth_error chars (2 * i + 1))
                         = Some ((v / 256) mod 256)
                      /\ ((0 <= x)%Q ->
                          (inject_Z v <= x * 32768)%Q /\ (x * 32768 < inject_Z v + 1)%Q)
                      /\ ((x <= 0)%Q ->
                          (inject_Z v - 1 < x * 32768)%Q /\ (x * 32768 <= inject_Z v)%Q))
         frames packets.
Proof.
  intros A. exists (map createBlob frames). rewrite map_map.
  split; [|split].
  - apply LensFacts.capture_in_order, A.
  - unfold EboLens.run. rewrite fold_left_app. cbn [fold_left EboLens.step].
    fold (EboLens.run (map EboLens.AudioProcess frames) st).
    destruct (EboLens.run (map EboLens.AudioProcess frames) st) eqn:E.
    cbn [EboLens.session EboLens.set_session].
    rewrite ToolFacts.sent_fulfil.
    pose proof (LensFacts.capture_in_order frames st A) as H.
    rewrite E in H. exact H.
  - clear A st. induction frames as [|frame frames IH]; cbn [map]; constructor;
      [|exact IH].
    split; [reflexivity|].
    exists (map fromCharCode (PcmFacts.payload frame)).
    split; [apply PcmFacts.atob_createBlob|].
    split.
    { unfold PcmFacts.payload.
      rewrite length_map, PcmFacts.Uint8Array_length, length_map. reflexivity. }
    intros i x Hi Hlo Hhi.
    exists (Qtrunc (x * 32768)).
    pose proof (PcmFacts.ToInt16_below_full_scale x Hlo Hhi) as T.
    assert (R : -32768 <= Qtrunc (x * 32768) < 32768).
    { rewrite <- T. apply PcmFacts.wrap16_range. }
    destruct (PacketFacts.int16_two_bytes _ R) as [B0 B1].
    assert (N : nth_error (map (fun x => ToInt16 (x * 32768)%Q) frame) i
                = Some (Qtrunc (x * 32768))).
    { rewrite nth_error_map, Hi. cbn [option_map]. rewrite T. reflexivity. }
    destruct (PacketFacts.Uint8Array_nth _ i _ N) as [N0 N1].
    pose proof (PcmFacts.Uint8Array_bytes (map (fun x => ToInt16 (x * 32768)%Q) frame))
      as Bytes.
    rewrite List.Forall_forall in Bytes.
    split; [exact R|]. unfold PcmFacts.payload.
    rewrite !nth_error_map, N0, N1. cbn [option_map].
    rewrite !PacketFacts.fromCharCode_ascii, B0, B1
      by (apply Bytes; eapply nth_error_In; eassumption).
    split; [reflexivity|]. split; [reflexivity|].
    destruct (PcmFacts.Qtrunc_bounds (x * 32768)) as [Hpos Hneg].
    split.
    + intros H0. apply Hpos. Lqa.lra.
    + intros H0. destruct Hneg as [H1 H2]; [Lqa.lra|]. split; assumption.
Qed.

(** Two frames through the lens as it is mounted. *)
Lemma capture_emits_one_packet_per_frame_witness :
  exists packets : list Blob,
    sent (EboLens.session
            (EboLens.run
               (map EboLens.AudioProcess [[(1 # 2)%Q; (-1 # 4)%Q]; [0%Q]]
                  ++ [EboLens.SessionReady]) EboLens.mounted))
    = map RealtimeInput packets
    /\ length packets = 2%nat.
Proof.
  destruct (capture_emits_one_packet_per_frame
              [[(1 # 2)%Q; (-1 # 4)%Q]; [0%Q]] EboLens.mounted eq_refl)
    as (packets & _ & S & F).
  exists packets. split; [exact S|].
  symmetry. exact (List.Forall2_length F).
Defined.

(** C6.  A message whose audio does not decode makes [onmessage] throw
    for that message alone: the cursor and the buffers started are as they
    were, and whatever arrives before and after it, the scheduler ends as if
    the message had never arrived. *)
Theorem malformed_fragment_is_skipped
  (before after : list EboLens.Event) (t : Q) (frame : list ascii)
  (msg : Message) (payload : list ascii) (e : JsError) (st : EboLens.Lens) :
  audio msg = Some payload ->
  decodeAudioData payload = inl e ->
  EboLens.playback (fst (EboLens.onmessage t frame msg st)) = EboLens.playback st
  /\ (EboLens.isActive st = true -> EboLens.outputCtx st = true -> payload <> [] ->
      snd (EboLens.onmessage t frame msg st) = Some e)
  /\ EboLens.playback
       (EboLens.run (before ++ EboLens.ServerMessage t frame msg :: after) st)
     = EboLens.playback (EboLens.run (before ++ after) st).
Proof.
  intros Ha Hd.
  assert (V : forall v, LensFacts.viewStep v (EboLens.ServerMessage t frame msg) = v).
  { intros [[a c] p]. unfold LensFacts.viewStep. rewrite Ha.
    destruct payload as [|ch payload']; [reflexivity|].
    rewrite Hd. destruct (a && c); reflexivity. }
  split; [|split].
  - pose proof (LensFacts.view_step st (EboLens.ServerMessage t frame msg)) as H.
    rewrite V in H. cbn [EboLens.step] in H. unfold LensFacts.view in H.
    congruence.
  - intros A C Hne. unfold EboLens.onmessage. rewrite A, Ha, C. cbn [negb].
    destruct payload as [|ch payload']; [contradiction|].
    rewrite Hd. reflexivity.
  - assert (H : LensFacts.view
                  (EboLens.run (before ++ EboLens.ServerMessage t frame msg :: after) st)
                = LensFacts.view (EboLens.run (before ++ after) st)).
    { rewrite !LensFacts.view_run, !fold_left_app. cbn [fold_left].
      rewrite V. reflexivity. }
    unfold LensFacts.view in H. congruence.
Qed.

(** A payload that is not base64 between two one-frame fragments. *)
Lemma malformed_fragment_is_skipped_witness :
  let good := mkMessage (Some (list_ascii_of_string "AAA=")) None in
  let bad := mkMessage (Some (list_ascii_of_string "!")) None in
  Playback.started
    (EboLens.playback
       (EboLens.run [EboLens.ServerMessage 0%Q [] good;
                     EboLens.ServerMessage 1%Q [] bad;
                     EboLens.ServerMessage 2%Q [] good] EboLens.mounted))
  = [(0%Q, mkBuffer [(0 # 32768)%Q]); (2%Q, mkBuffer [(0 # 32768)%Q])].
Proof.
  cbv zeta.
  destruct (malformed_fragment_is_skipped
              [EboLens.ServerMessage 0%Q [] (mkMessage (Some (list_ascii_of_string "AAA=")) None)]
              [EboLens.ServerMessage 2%Q [] (mkMessage (Some (list_ascii_of_string "AAA=")) None)]
              1%Q [] (mkMessage (Some (list_ascii_of_string "!")) None)
              (list_ascii_of_string "!") InvalidCharacterError EboLens.mounted
              eq_refl eq_refl) as (_ & _ & H).
  cbn [app] in H. rewrite H. vm_compute. reflexivity.
Defined.

(** C7, at the input where the code departs from it.  In [LiveMode.tsx] a
    microphone frame that arrives after the cleanup is still encoded and
    sent: [onaudioprocess] reads the mounted flag for the volume only.  The
    lens tests its flag first and sends nothing
    ([LensFacts.torn_down_is_silent]). *)
Theorem frame_after_teardown_is_still_sent :
  let torn := LiveMode.run [LiveMode.SessionReady; LiveMode.Cleanup] LiveMode.mounted in
  LiveMode.mountedRef torn = false
  /\ sent (LiveMode.session torn) = []
  /\ sent (LiveMode.session (LiveMode.run [LiveMode.AudioProcess [(1 # 2)%Q]] torn))
     = [RealtimeInput (LiveMode.createAudioBlob [(1 # 2)%Q])]
  /\ sent (LiveMode.session
             (LiveMode.run [LiveMode.Cleanup; LiveMode.AudioProcess [(1 # 2)%Q]] torn))
     = [RealtimeInput (LiveMode.createAudioBlob [(1 # 2)%Q])]
  /\ sent (EboLens.session
             (EboLens.run [EboLens.SessionReady; EboLens.Cleanup;
                           EboLens.AudioProcess [(1 # 2)%Q]] EboLens.mounted))
     = [].
Proof. cbv zeta. repeat split; vm_compute; reflexivity. Qed.

(* ------------------------------------------------------------------ *)
(** ** The volume signal *)

Module VolumeFacts.

Lemma square_bounds (x : Q) : normalized x -> (0 <= x * x /\ x * x <= 1)%Q.
Proof. unfold normalized. intros [H1 H2]. split; Lqa.nra. Qed.

Lemma sumSquares_from (data : list Q) (acc : Q) :
  Forall normalized data ->
  (acc <= fold_left (fun sum x => (sum + x * x)%Q) data acc
   /\ fold_left (fun sum x => (sum + x * x)%Q) data acc
      <= acc + inject_Z (Z.of_nat (length data)))%Q.
Proof.
  intros H. revert acc. induction H as [|x l Hx _ IH]; intros acc.
  - cbn [fold_left length]. change (inject_Z (Z.of_nat 0)) with 0%Q.
    split; Lqa.lra.
  - cbn [fold_left length]. destruct (IH (acc + x * x)%Q) as [A B].
    destruct (square_bounds x Hx) as [S0 S1].
    rewrite Nat2Z.inj_succ. unfold Z.succ. rewrite inject_Z_plus.
    change (inject_Z 1) with 1%Q.
    clear IH. revert A B.
    generalize (inject_Z (Z.of_nat (length l))).
    generalize (fold_left (fun sum x => (sum + x * x)%Q) l (acc + x * x)%Q).
    intros f n A B. split; Lqa.lra.
Qed.

(** The root-mean-square of a frame of normalized samples is in [0, 1]. *)
Lemma rms_bounds (data : list Q) :
  data <> [] -> Forall normalized data -> (0 <= rms data <= 1)%R.
Proof.
  intros Hne H. unfold rms, sumSquares.
  destruct (sumSquares_from data 0 H) as [A B].
  set (s := fold_left _ data 0%Q) in *.
  set (n := inject_Z (Z.of_nat (length data))) in *.
  assert (Hn : (0 < n)%Q).
  { subst n. change 0%Q with (inject_Z 0). rewrite <- Zlt_Qlt.
    destruct data; [contradiction|cbn; lia]. }
  split; [apply sqrt_pos|].
  rewrite <- sqrt_1. apply sqrt_le_1_alt.
  replace 1%R with (Q2R 1) by (unfold Q2R; cbn; Lra.lra).
  apply Qle_Rle. apply Qle_shift_div_r; [exact Hn|]. Lqa.lra.
Qed.

Lemma rms_full_scale : rms [1%Q] = 1%R.
Proof.
  unfold rms, sumSquares. cbn [fold_left length].
  transitivity (sqrt 1); [|apply sqrt_1]. f_equal.
  replace 1%R with (Q2R 1) by (unfold Q2R; cbn; Lra.lra).
  apply Qeq_eqR. vm_compute. reflexivity.
Qed.

End VolumeFacts.

(** C8, as amended.  For every frame of at least one sample, all in
    [-1, 1], the volume the capture callback sets is in [0, 100] in
    [LiveMode.tsx], where it is the root-mean-square times 100, and in
    [0, 200] in [EboLens.tsx], where it is the root-mean-square times 200. *)
Theorem volume_signal_bounds (data : list Q) :
  data <> [] ->
  Forall normalized data ->
  (forall st : LiveMode.Live,
      LiveMode.mountedRef st = true ->
      LiveMode.volume (LiveMode.onaudioprocess data st) = (rms data * 100)%R
      /\ (0 <= LiveMode.volume (LiveMode.onaudioprocess data st) <= 100)%R)
  /\ (forall st : EboLens.Lens,
         EboLens.isActive st = true ->
         EboLens.volume (EboLens.onaudioprocess data st) = (rms data * 200)%R
         /\ (0 <= EboLens.volume (EboLens.onaudioprocess data st) <= 200)%R).
Proof.
  intros Hne H. pose proof (VolumeFacts.rms_bounds data Hne H) as [L U].
  split; intros st A.
  - unfold LiveMode.onaudioprocess. rewrite A.
    change (LiveMode.volume _) with (rms data * 100)%R.
    split; [reflexivity|]. split; Lra.lra.
  - unfold EboLens.onaudioprocess. rewrite A. cbn [negb].
    change (EboLens.volume _) with (rms data * 200)%R.
    split; [reflexivity|]. split; Lra.lra.
Qed.

(** C8, as stated, fails in the lens: a frame at full scale sets the
    volume to 200. *)
Lemma lens_volume_exceeds_100 :
  exists data : list Q,
    data <> [] /\ Forall normalized data
    /\ EboLens.volume (EboLens.onaudioprocess data EboLens.mounted) = 200%R
    /\ ~ (EboLens.volume (EboLens.onaudioprocess data EboLens.mounted) <= 100)%R.
Proof.
  exists [1%Q].
  assert (E : EboLens.volume (EboLens.onaudioprocess [1%Q] EboLens.mounted) = 200%R).
  { change (EboLens.volume _) with (rms [1%Q] * 200)%R.
    rewrite VolumeFacts.rms_full_scale. Lra.lra. }
  split; [discriminate|]. split.
  - constructor; [|constructor]. split; discriminate.
  - split; [exact E|]. rewrite E. Lra.lra.
Qed.

(** A frame at half scale through both bridges as they are mounted. *)
Lemma volume_signal_bounds_witness :
  (0 <= LiveMode.volume
          (LiveMode.onaudioprocess [(1 # 2)%Q; (-1 # 2)%Q] LiveMode.mounted) <= 100)%R
  /\ (0 <= EboLens.volume
             (EboLens.onaudioprocess [(1 # 2)%Q; (-1 # 2)%Q] EboLens.mounted) <= 200)%R.
Proof.
  assert (N : Forall normalized [(1 # 2)%Q; (-1 # 2)%Q]).
  { repeat constructor; discriminate. }
  destruct (volume_signal_bounds [(1 # 2)%Q; (-1 # 2)%Q] ltac:(discriminate) N)
    as [HL HE].
  split.
  - apply (HL LiveMode.mounted eq_refl).
  - apply (HE EboLens.mounted eq_refl).
Defined.

(* ------------------------------------------------------------------ *)
(** ** The round trip of the 16-bit PCM conversion *)

(** C2, at the input where the code departs from it.  A sample at full
    scale, 1.0, is multiplied to 32768, which the 16-bit store wraps to
    -32768: the packet is "AIA=", and the playback side decodes it to -1.0, an
    error of 2. *)
Theorem full_scale_sample_comes_back_negative :
  createBlob [1%Q]
  = {| data := list_ascii_of_string "AIA="; mimeType := "audio/pcm;rate=16000" |}
  /\ ToInt16 (1 * 32768) = -32768
  /\ decodeAudioData (data (createBlob [1%Q]))
     = inr {| channelData := [(-32768 # 32768)%Q] |}
  /\ (Qabs ((-32768 # 32768) - 1) == 2)%Q
  /\ ~ (Qabs ((-32768 # 32768) - 1) <= 1 # 32768)%Q.
Proof.
  repeat split; try (vm_compute; reflexivity).
  vm_compute. intros H. apply H. reflexivity.
Qed.

(** X5.  Below full scale the round trip is within the quantization step: every
    sample of [-1, 1) comes back less than 1/32768 away. *)
Lemma roundtrip_below_full_scale (samples : list Q) :
  samples <> [] ->
  Forall (fun x => (-1 <= x)%Q /\ (x < 1)%Q) samples ->
  exists buffer : AudioBuffer,
    decodeAudioData (data (createBlob samples)) = inr buffer
    /\ length (channelData buffer) = length samples
    /\ Forall2 (fun x y => (Qabs (y - x) < 1 # 32768)%Q) samples (channelData buffer).
Proof.
  intros Hne H. eexists. split; [apply PcmFacts.decode_createBlob, Hne|].
  cbn [channelData]. split; [apply length_map|].
  clear Hne. induction H as [|x l [Hlo Hhi] _ IH]; cbn [map]; constructor.
  - apply PcmFacts.sample_roundtrip_error; assumption.
  - exact IH.
Qed.

Lemma roundtrip_below_full_scale_witness :
  exists buffer : AudioBuffer,
    decodeAudioData (data (createBlob [(1 # 2)%Q; (-1 # 3)%Q; (-1)%Q])) = inr buffer
    /\ length (channelData buffer) = 3%nat.
Proof.
  destruct (roundtrip_below_full_scale [(1 # 2)%Q; (-1 # 3)%Q; (-1)%Q]
              ltac:(discriminate)
              ltac:(repeat constructor; discriminate || reflexivity))
    as (buffer & D & L & _).
  exists buffer. split; [exact D|exact L].
Defined.

(* ------------------------------------------------------------------ *)
(** ** Recording a clip *)

Module NumberFacts.

(** The text of some decimal digits, and the number it writes. *)
Definition decimal (ds : list nat) : list ascii :=
  map (fun d => ascii_of_nat (48 + d)) ds.

Definition valueOf (ds : list nat) : Z :=
  fold_left (fun v d => v * 10 + Z.of_nat d) ds 0.

Lemma digit_char (d : nat) :
  (d < 10)%nat ->
  let c := ascii_of_nat (48 + d) in
  digit 10 c = Some (Z.of_nat d)
  /\ isStrWhiteSpaceChar c = false
  /\ Ascii.eqb c "+"%char = false /\ Ascii.eqb c "-"%char = false
  /\ Ascii.eqb c "x"%char = false /\ Ascii.eqb c "X"%char = false
  /\ Ascii.eqb c "o"%char = false /\ Ascii.eqb c "O"%char = false
  /\ Ascii.eqb c "b"%char = false /\ Ascii.eqb c "B"%char = false
  /\ Ascii.eqb c "I"%char = false.
Proof.
  intros H.
  do 10 (destruct d as [|d]; [cbv zeta; repeat split; reflexivity|]). lia.
Qed.

Lemma readDigits_decimal (ds : list nat) (v : Z) (n : nat) :
  Forall (fun d => (d < 10)%nat) ds ->
  readDigits 10 (decimal ds) v n
  = (fold_left (fun v d => v * 10 + Z.of_nat d) ds v, (n + length ds)%nat, []).
Proof.
  intros H. revert v n. induction H as [|d ds Hd _ IH]; intros v n.
  - cbn. rewrite Nat.add_0_r. reflexivity.
  - destruct (digit_char d Hd) as (D & _).
    cbn [decimal map readDigits]. fold (decimal ds). rewrite D, IH.
    cbn [fold_left length]. change (Z.of_nat 10) with 10.
    rewrite Nat.add_succ_r. reflexivity.
Qed.

Lemma trimStart_plain (s : list ascii) :
  Forall (fun c => isStrWhiteSpaceChar c = false) s -> trimStart s = s.
Proof. intros [|c r Hc _]; [reflexivity|]. cbn [trimStart]. rewrite Hc. reflexivity. Qed.

Lemma trim_plain (s : list ascii) :
  Forall (fun c => isStrWhiteSpaceChar c = false) s -> trim s = s.
Proof.
  intros H. unfold trim. rewrite (trimStart_plain s H).
  rewrite trimStart_plain by (apply List.Forall_rev, H). apply rev_involutive.
Qed.

Lemma decimal_plain (ds : list nat) :
  Forall (fun d => (d < 10)%nat) ds ->
  Forall (fun c => isStrWhiteSpaceChar c = false) (decimal ds).
Proof.
  induction 1 as [|d ds Hd _ IH]; [constructor|].
  constructor; [apply (digit_char d Hd)|exact IH].
Qed.

(** A text of decimal digits converts to the number it writes. *)
Lemma StringToNumber_decimal (ds : list nat) :
  ds <> [] -> Forall (fun d => (d < 10)%nat) ds ->
  exists q : Q,
    StringToNumber (decimal ds) = Finite q /\ (q == inject_Z (valueOf ds))%Q.
Proof.
  intros Hne H. unfold StringToNumber.
  rewrite (trim_plain _ (decimal_plain ds H)).
  destruct ds as [|d ds]; [contradiction|].
  inversion H as [|? ? Hd Hds]; subst.
  destruct (digit_char d Hd) as (_ & _ & P & M & _ & _ & _ & _ & _ & _ & I).
  cbn [decimal map]. fold (decimal ds). rewrite P, M.
  assert (U : StrUnsignedDecimalLiteral (ascii_of_nat (48 + d) :: decimal ds)
              = Finite (inject_Z (valueOf (d :: ds))
                        + inject_Z 0 / inject_Z (10 ^ Z.of_nat 0))%Q).
  { unfold StrUnsignedDecimalLiteral.
    cbn [string_of_list_ascii String.eqb]. rewrite I.
    change (ascii_of_nat (48 + d) :: decimal ds) with (decimal (d :: ds)).
    rewrite (readDigits_decimal (d :: ds) 0 0 H). cbn [length Nat.add Nat.eqb andb].
    reflexivity. }
  assert (E : (inject_Z (valueOf (d :: ds)) + inject_Z 0 / inject_Z (10 ^ Z.of_nat 0)
               == inject_Z (valueOf (d :: ds)))%Q).
  { change (inject_Z 0 / inject_Z (10 ^ Z.of_nat 0))%Q with (0 / 1)%Q. field. }
  destruct ds as [|d' ds'].
  - exists (inject_Z (valueOf [d]) + inject_Z 0 / inject_Z (10 ^ Z.of_nat 0))%Q.
    split; [exact U|exact E].
  - inversion Hds as [|? ? Hd' _]; subst.
    destruct (digit_char d' Hd') as (_ & _ & _ & _ & X1 & X2 & O1 & O2 & B1 & B2 & _).
    cbn [decimal map]. fold (decimal ds'). rewrite X1, X2, O1, O2, B1, B2.
    cbn [orb andb]. rewrite !andb_false_r.
    eexists. split; [exact U|exact E].
Qed.

End NumberFacts.

Module RecorderFacts.

Import EboLens.

(** X20.  What one [record_video_clip] call does when there is a stream: a
    new recorder is started and a timer is set to stop it.  The delay of the
    timer is [(fc.args?.duration || 10) * 1000]: ten seconds when the call
    has no [args], no duration or a falsy one; the duration times 1000 when
    it is a number other than zero; 1000 when it is [true]; and for a text
    the number the text converts to, times 1000: the number written, for a
    text of decimal digits, and [NaN] for a text that writes no number. *)
Lemma record_clip_starts (frame : list ascii) (fc : FunctionCall) (st : Lens)
  (rs : list FunctionResponse) :
  fc_name fc = "record_video_clip" ->
  stream st = true ->
  let st' := fst (dispatch frame (st, rs) fc) in
  exists ms : JsNumber,
    recorders st' = recorders st ++ [Recording]
    /\ isRecording st' = true
    /\ videoChunks st' = []
    /\ timers st'
       = timers st ++ [mkTimer ms (StopRecorder (length (recorders st))) false]
    /\ forall duration : JsVal,
        (fc_args fc = None /\ duration = JUndefined)
        \/ (exists args : gmap string JsVal,
               fc_args fc = Some args
               /\ duration = default JUndefined (args !! "duration")) ->
        (duration = JUndefined \/ duration = JNull \/ duration = JBool false
         \/ duration = JStr "" \/ (exists q : Q, duration = JNum q /\ (q == 0)%Q) ->
         exists q : Q, ms = Finite q /\ (q == 10000)%Q)
        /\ (forall d : Q, duration = JNum d -> ~ (d == 0)%Q ->
            exists q : Q, ms = Finite q /\ (q == d * 1000)%Q)
        /\ (duration = JBool true -> exists q : Q, ms = Finite q /\ (q == 1000)%Q)
        /\ (forall ds : list nat,
               ds <> [] -> Forall (fun d => (d < 10)%nat) ds ->
               duration = JStr (string_of_list_ascii (NumberFacts.decimal ds)) ->
               exists q : Q,
                 ms = Finite q /\ (q == inject_Z (NumberFacts.valueOf ds) * 1000)%Q)
        /\ (duration = JStr "soon" -> ms = NaN).
Proof.
  intros E S. unfold dispatch, startRec, isRecording_in_effect. rewrite E.
  cbn [String.eqb Ascii.eqb Bool.eqb fst orb]. rewrite S. cbn [negb].
  exists (milliseconds (js_or (optGet (fc_args fc) "duration") (JNum 10))).
  split; [reflexivity|]. split; [reflexivity|]. split; [reflexivity|].
  split; [reflexivity|].
  intros duration Hd.
  assert (D : optGet (fc_args fc) "duration" = duration).
  { destruct Hd as [[N ->] | (args & A & ->)]; [rewrite N|rewrite A]; reflexivity. }
  rewrite D. clear Hd D. unfold milliseconds, js_or.
  split; [|split; [|split; [|split]]].
  - intros [-> | [-> | [-> | [-> | (q & -> & Hq)]]]];
      try (eexists; split; [reflexivity|vm_compute; reflexivity]).
    cbn [truthy]. apply Qeq_bool_iff in Hq. rewrite Hq. cbn [negb ToNumber multiply].
    eexists. split; [reflexivity|vm_compute; reflexivity].
  - intros d -> Hd. cbn [truthy].
    destruct (Qeq_bool d 0) eqn:Q0; [apply Qeq_bool_iff in Q0; contradiction|].
    cbn [negb ToNumber multiply]. eexists. split; reflexivity.
  - intros ->. eexists. split; [reflexivity|vm_compute; reflexivity].
  - intros ds Hne Hds ->.
    destruct (NumberFacts.StringToNumber_decimal ds Hne Hds) as (q & N & V).
    assert (T : truthy (JStr (string_of_list_ascii (NumberFacts.decimal ds))) = true).
    { destruct ds as [|d ds]; [contradiction|]. reflexivity. }
    rewrite T. cbn [ToNumber]. rewrite list_ascii_of_string_of_list_ascii, N.
    cbn [multiply]. eexists. split; [reflexivity|]. rewrite V. reflexivity.
  - intros ->. vm_compute. reflexivity.
Qed.

(** X21.  The timer stops a recorder that is recording, and the stop offers the
    clip for saving under [EBO_REC_<Date.now()>.webm]. *)
Lemma recording_stops_and_downloads (st : Lens) (n r : nat) (d : JsNumber) (now : Z) :
  timers st !! n = Some (mkTimer d (StopRecorder r) false) ->
  recorders st !! r = Some Recording ->
  let st1 := step st (TimerFired n) in
  let st2 := step st1 (RecorderStop r now) in
  recorders st1 !! r = Some Stopped
  /\ recorders st2 !! r = Some Done
  /\ isRecording st2 = false
  /\ downloads st2
     = downloads st ++ [ {| filename := "EBO_REC_" +:+ pretty now +:+ ".webm";
                            chunks := videoChunks st |} ].
Proof.
  intros T R. cbn [step]. rewrite T. cbn [runAction].
  cbn [recorders set_timers]. rewrite R.
  assert (L : (r < length (recorders st))%nat).
  { apply lookup_lt_is_Some. rewrite R. eauto. }
  cbn [recorders set_recorders set_timers].
  assert (S1 : <[r:=Stopped]> (recorders st) !! r = Some Stopped).
  { apply list_lookup_insert_eq. exact L. }
  rewrite S1. split; [reflexivity|].
  cbn. split; [|auto].
  apply list_lookup_insert_eq. rewrite length_insert. exact L.
Qed.

End RecorderFacts.

(** C9, at the input where the code departs from it.  A second
    [record_video_clip] call, in the same batch or in a later message, starts
    a second recorder while the first is recording, and empties the chunks the
    first has gathered: the [isRecording] that [startRec] tests is the
    constant of the first render, which stays [false]. *)
Theorem second_record_clip_starts_while_recording :
  let clip := {| fc_id := "1"; fc_name := "record_video_clip";
                 fc_args := Some {[ "duration" := JNum 5 ]} |} in
  let msg := mkMessage None (Some [clip]) in
  let st1 := EboLens.run [EboLens.ServerMessage 0%Q [] msg] EboLens.mounted in
  let st2 :=
    EboLens.run [EboLens.DataAvailable "first"; EboLens.ServerMessage 0%Q [] msg] st1 in
  EboLens.isRecording st1 = true
  /\ EboLens.recorders st1 = [EboLens.Recording]
  /\ EboLens.recorders st2 = [EboLens.Recording; EboLens.Recording]
  /\ EboLens.videoChunks st2 = []
  /\ EboLens.recorders (EboLens.toolDispatch [] [clip; clip] EboLens.mounted)
     = [EboLens.Recording; EboLens.Recording].
Proof. cbv zeta. repeat split; vm_compute; reflexivity. Qed.

(* ================================================================== *)
(** * Further properties of the code *)

(* ------------------------------------------------------------------ *)
(** ** The audio helpers, beyond the round trip *)

Module CodecFacts.

Import Base64Facts PcmFacts.

Lemma btoa_text_length (l : list ascii) :
  length (btoa l) = (4 * ((length l + 2) / 3))%nat.
Proof.
  induction l as [| a | a b | a b c r IH] using triples_ind.
  - reflexivity.
  - destruct (enc1_dec3 a) as (s0 & s1 & E & _); cbn [btoa]; rewrite E; reflexivity.
  - destruct (enc2_dec3 a b) as (s0 & s1 & s2 & E & _); cbn [btoa]; rewrite E; reflexivity.
  - destruct (enc3_dec3 a b c) as (s0 & s1 & s2 & s3 & E & _).
    cbn [btoa]; rewrite E. cbn [app length]. rewrite IH.
    replace (S (S (S (length r))) + 2)%nat with ((length r + 2) + 1 * 3)%nat by lia.
    rewrite Nat.div_add by lia. lia.
Qed.

Lemma Int16Array_elements (bytes : list Z) :
  Forall (fun v => -32768 <= v < 32768) (Int16Array_of_buffer bytes).
Proof.
  assert (A : forall l,
             Forall (fun v => -32768 <= v < 32768) (Int16Array_of_buffer l)
             /\ forall x, Forall (fun v => -32768 <= v < 32768)
                                 (Int16Array_of_buffer (x :: l))).
  { induction l as [|y l [IH0 IH1]].
    - split; [constructor|intros x; constructor].
    - split; [apply IH1|]. intros x. cbn [Int16Array_of_buffer].
      constructor; [apply wrap16_range|exact IH0]. }
  apply A.
Qed.

Lemma Int16Array_length (bytes : list Z) :
  length (Int16Array_of_buffer bytes) = Nat.div2 (length bytes).
Proof.
  assert (A : forall l,
             length (Int16Array_of_buffer l) = Nat.div2 (length l)
             /\ forall x, length (Int16Array_of_buffer (x :: l))
                          = Nat.div2 (length (x :: l))).
  { induction l as [|y l [IH0 IH1]].
    - split; [reflexivity|intros x; reflexivity].
    - split; [apply IH1|]. intros x. cbn [Int16Array_of_buffer length Nat.div2].
      rewrite IH0. reflexivity. }
  apply A.
Qed.

Lemma whitespace_filtered (l : list ascii) :
  Forall (fun c => is_ascii_whitespace c = true) l ->
  List.filter (fun c => negb (is_ascii_whitespace c)) l = [].
Proof.
  induction 1 as [|c l Hc _ IH]; [reflexivity|].
  cbn [List.filter]. rewrite Hc. exact IH.
Qed.

Lemma strip_padding_keeps (c : ascii) (l : list ascii) :
  Ascii.eqb c pad = false -> In c l -> In c (strip_padding l).
Proof.
  intros Hc. induction l as [|x l IH]; [contradiction|].
  intros [<- | Hin].
  - cbn [strip_padding]. rewrite Hc. left. reflexivity.
  - cbn [strip_padding].
    destruct (Ascii.eqb x pad) eqn:Ex; [|right; apply IH, Hin].
    destruct l as [|d l']; [contradiction|].
    destruct l' as [|d' l''].
    + destruct Hin as [<- | []]. rewrite Hc. right.
      cbn [strip_padding]. rewrite Hc. left. reflexivity.
    + right. apply IH, Hin.
Qed.

Lemma sextets_reject (c : ascii) (l : list ascii) :
  b64val c = None -> In c l -> sextets l = None.
Proof.
  intros Hc. induction l as [|x l IH]; [contradiction|].
  intros [<- | Hin]; cbn [sextets].
  - rewrite Hc. reflexivity.
  - rewrite (IH Hin). destruct (b64val x); reflexivity.
Qed.

Lemma atob_rejects (c : ascii) (l : list ascii) :
  In c l -> b64val c = None -> is_ascii_whitespace c = false ->
  Ascii.eqb c pad = false -> atob l = None.
Proof.
  intros Hin Hv Hw Hp. unfold atob.
  set (d1 := List.filter _ l).
  assert (H1 : In c d1).
  { apply filter_In. split; [exact Hin|]. rewrite Hw. reflexivity. }
  set (d2 := if (length d1 mod 4 =? 0)%nat then strip_padding d1 else d1).
  assert (H2 : In c d2).
  { subst d2. destruct (length d1 mod 4 =? 0)%nat; [|exact H1].
    apply strip_padding_keeps; assumption. }
  destruct (length d2 mod 4 =? 1)%nat; [reflexivity|].
  rewrite (sextets_reject c d2 Hv H2). reflexivity.
Qed.

End CodecFacts.

(** X1.  Decoding what [encode] made of some bytes gives the bytes back:
    [atob] succeeds and the character codes of its result are the bytes. *)
Theorem encode_round_trip (bytes : list Z) :
  Forall is_byte bytes ->
  option_map (map charCodeAt) (atob (encode bytes)) = Some bytes.
Proof.
  intros H. unfold encode. rewrite Base64Facts.atob_btoa. cbn [option_map].
  rewrite PcmFacts.charCodes_of_binary_string by exact H. reflexivity.
Qed.

Lemma encode_round_trip_witness :
  option_map (map charCodeAt) (atob (encode [0; 128; 255; 7; 64]))
  = Some [0; 128; 255; 7; 64].
Proof.
  apply (encode_round_trip [0; 128; 255; 7; 64]).
  repeat constructor; unfold is_byte; lia.
Defined.

(** X2.  The base64 text of a packet has four characters for every three
    bytes of its payload, the last group padded: a frame of n samples gives
    4 * ceil(2n / 3) characters, 10924 for the 4096 samples of a capture
    frame. *)
Theorem packet_text_length (samples : list Q) :
  length (data (createBlob samples))
  = (4 * ((2 * length samples + 2) / 3))%nat
  /\ (length samples = Z.to_nat 4096 ->
      length (data (createBlob samples)) = Z.to_nat 10924).
Proof.
  assert (E : length (data (createBlob samples))
              = (4 * ((2 * length samples + 2) / 3))%nat).
  { unfold createBlob, encode. cbn [data].
    rewrite CodecFacts.btoa_text_length, length_map,
      PcmFacts.Uint8Array_length, length_map. reflexivity. }
  split; [exact E|]. intros L. rewrite E, L. vm_compute. reflexivity.
Qed.

(** X3.  Whenever [decodeAudioData] returns a buffer, the buffer has at
    least one frame and a positive duration, it has one sample for every two
    bytes of the decoded payload, and every sample is in [-1, 1). *)
Theorem decoded_buffer_is_well_formed (base64 : list ascii) (buffer : AudioBuffer) :
  decodeAudioData base64 = inr buffer ->
  channelData buffer <> []
  /\ (0 < duration buffer)%Q
  /\ (exists binaryString : list ascii,
         atob base64 = Some binaryString
         /\ length binaryString = (2 * length (channelData buffer))%nat)
  /\ Forall (fun y => (-1 <= y)%Q /\ (y < 1)%Q) (channelData buffer).
Proof.
  unfold decodeAudioData. destruct (atob base64) as [binaryString|]; [|discriminate].
  destruct (Nat.odd (length (map charCodeAt binaryString))) eqn:O; [discriminate|].
  destruct (length (Int16Array_of_buffer (map charCodeAt binaryString)) =? 0)%nat eqn:Z0;
    [discriminate|].
  intros H. injection H as <-. cbn [channelData].
  apply Nat.eqb_neq in Z0.
  set (ints := Int16Array_of_buffer (map charCodeAt binaryString)) in *.
  split; [|split; [|split]].
  - destruct ints; [contradiction|discriminate].
  - unfold duration, sampleRate. cbn [channelData]. rewrite length_map.
    apply Qlt_shift_div_l; [reflexivity|]. rewrite Qmult_0_l.
    change 0%Q with (inject_Z 0). rewrite <- Zlt_Qlt. lia.
  - exists binaryString. split; [reflexivity|].
    rewrite length_map. subst ints. rewrite CodecFacts.Int16Array_length.
    rewrite length_map in *.
    pose proof (Nat.div2_odd (length binaryString)) as D. rewrite O in D.
    cbn [Nat.b2n] in D. lia.
  - apply Forall_map.
    eapply List.Forall_impl; [|apply CodecFacts.Int16Array_elements].
    intros v [Hlo Hhi]. cbn beta.
    split.
    + apply Qle_shift_div_l; [reflexivity|].
      change (-1 * 32768)%Q with (inject_Z (-32768)). rewrite <- Zle_Qle. exact Hlo.
    + apply Qlt_shift_div_r; [reflexivity|].
      change (1 * 32768)%Q with (inject_Z 32768). rewrite <- Zlt_Qlt. exact Hhi.
Qed.

Lemma decoded_buffer_is_well_formed_witness :
  channelData (mkBuffer [(-32768 # 32768)%Q; (32767 # 32768)%Q]) <> []
  /\ (0 < duration (mkBuffer [(-32768 # 32768)%Q; (32767 # 32768)%Q]))%Q.
Proof.
  destruct (decoded_buffer_is_well_formed (list_ascii_of_string "AID/fw==")
              (mkBuffer [(-32768 # 32768)%Q; (32767 # 32768)%Q]) eq_refl)
    as (A & B & _).
  split; [exact A|exact B].
Defined.

(** X4.  The payloads [decodeAudioData] fails on, each with its fault: a
    payload of nothing but ASCII whitespace (the empty one too) decodes to
    zero frames, which [createBuffer] refuses; base64 of an odd number of
    bytes cannot be viewed as 16-bit samples; a payload with a character that
    is neither of the base64 alphabet, nor whitespace, nor [=] is not
    base64. *)
Theorem decode_faults :
  (forall payload : list ascii,
      Forall (fun c => is_ascii_whitespace c = true) payload ->
      decodeAudioData payload = inl NotSupportedError)
  /\ (forall bytes : list ascii,
         Nat.odd (length bytes) = true ->
         decodeAudioData (btoa bytes) = inl RangeError)
  /\ (forall (payload : list ascii) (c : ascii),
         In c payload -> b64val c = None ->
         is_ascii_whitespace c = false -> Ascii.eqb c pad = false ->
         decodeAudioData payload = inl InvalidCharacterError).
Proof.
  split; [|split].
  - intros payload H. unfold decodeAudioData, atob.
    rewrite (CodecFacts.whitespace_filtered payload H). reflexivity.
  - intros bytes O. unfold decodeAudioData.
    rewrite Base64Facts.atob_btoa, length_map, O. reflexivity.
  - intros payload c Hin Hv Hw Hp. unfold decodeAudioData.
    rewrite (CodecFacts.atob_rejects c payload Hin Hv Hw Hp). reflexivity.
Qed.

(* ------------------------------------------------------------------ *)
(** ** The playback scheduler, beyond two buffers in a row *)

Module CursorFacts.

Import Playback PlaybackFacts.

(** The play time of a run of arrivals. *)
Definition totalDuration (arrivals : list (Q * AudioBuffer)) : Q :=
  fold_right (fun a sum => (duration (snd a) + sum)%Q) 0%Q arrivals.

Lemma totalDuration_nonneg (arrivals : list (Q * AudioBuffer)) :
  (0 <= totalDuration arrivals)%Q.
Proof.
  induction arrivals as [|[now b] r IH]; cbn [totalDuration fold_right snd].
  - Lqa.lra.
  - pose proof (duration_nonneg b). fold (totalDuration r). Lqa.lra.
Qed.

Lemma Qmax_keeps_cursor (cursor now : Q) : (now <= cursor)%Q -> Qmax cursor now = cursor.
Proof.
  intros H. unfold Qmax, GenericMinMax.gmax.
  destruct (cursor ?= now)%Q eqn:E; try reflexivity.
  apply Qlt_alt in E. exfalso. apply (Qlt_not_le _ _ E H).
Qed.

Lemma cursorAfter_lower (arrivals : list (Q * AudioBuffer)) (cursor : Q) :
  (cursor + totalDuration arrivals <= cursorAfter cursor arrivals)%Q.
Proof.
  revert cursor. induction arrivals as [|[now b] r IH]; intros c;
    cbn [totalDuration fold_right snd cursorAfter].
  - Lqa.lra.
  - fold (totalDuration r). specialize (IH (Qmax c now + duration b)%Q).
    pose proof (Q.le_max_l c now). Lqa.lra.
Qed.

Lemma startsFrom_bounds (arrivals : list (Q * AudioBuffer)) (floor cursor : Q) :
  (floor <= cursor)%Q ->
  Forall2 (fun a s => (fst a <= fst s)%Q /\ (floor <= fst s)%Q /\ snd s = snd a)
          arrivals (startsFrom cursor arrivals).
Proof.
  revert cursor. induction arrivals as [|[now b] r IH]; intros c Hc;
    cbn [startsFrom]; constructor.
  - cbn [fst snd]. pose proof (Q.le_max_l c now). pose proof (Q.le_max_r c now).
    repeat split; Lqa.lra.
  - apply IH. pose proof (Q.le_max_l c now). pose proof (duration_nonneg b).
    Lqa.lra.
Qed.

Lemma cursorAfter_burst (arrivals : list (Q * AudioBuffer)) (floor cursor : Q) :
  (floor <= cursor)%Q ->
  Forall (fun a => (fst a <= floor)%Q) arrivals ->
  (cursorAfter cursor arrivals == cursor + totalDuration arrivals)%Q.
Proof.
  intros Hc H. revert cursor Hc.
  induction H as [|[now b] r Hnow _ IH]; intros c Hc;
    cbn [totalDuration fold_right snd cursorAfter].
  - Lqa.lra.
  - fold (totalDuration r). cbn [fst] in Hnow.
    rewrite Qmax_keeps_cursor by Lqa.lra.
    rewrite IH; [Lqa.lra|]. pose proof (duration_nonneg b). Lqa.lra.
Qed.

Lemma startsFrom_burst (arrivals : list (Q * AudioBuffer)) (floor cursor : Q)
  (i : nat) (a : Q * AudioBuffer) :
  (floor <= cursor)%Q ->
  Forall (fun a => (fst a <= floor)%Q) arrivals ->
  nth_error arrivals i = Some a ->
  exists t : Q,
    nth_error (startsFrom cursor arrivals) i = Some (t, snd a)
    /\ (t == cursor + totalDuration (firstn i arrivals))%Q.
Proof.
  intros Hc H. revert cursor i Hc.
  induction H as [|[now b] r Hnow _ IH]; intros c i Hc Hi.
  - destruct i; discriminate.
  - cbn [fst] in Hnow. destruct i as [|i].
    + injection Hi as <-. cbn [startsFrom nth_error snd firstn totalDuration fold_right].
      rewrite Qmax_keeps_cursor by Lqa.lra.
      eexists. split; [reflexivity|]. Lqa.lra.
    + cbn [nth_error] in Hi. cbn [startsFrom nth_error firstn].
      rewrite Qmax_keeps_cursor by Lqa.lra.
      destruct (IH (c + duration b)%Q i) as (t & S & E); [|exact Hi|].
      { pose proof (duration_nonneg b). Lqa.lra. }
      exists t. split; [exact S|].
      cbn [totalDuration fold_right snd]. fold (totalDuration (firstn i r)).
      rewrite E. Lqa.lra.
Qed.

End CursorFacts.

(** X6.  Whatever the arrival times, enqueueing never moves the cursor
    back and never loses or moves a buffer already started: the cursor ends at
    least the play time of the new buffers past where it was, every new buffer
    is started once, in arrival order, no earlier than the device time at
    which it was scheduled and no earlier than the old cursor. *)
Theorem cursor_never_goes_back
  (arrivals : list (Q * AudioBuffer)) (p : Playback.Scheduler) :
  (Playback.nextStartTime p <= Playback.nextStartTime (Playback.enqueueAll arrivals p))%Q
  /\ (Playback.nextStartTime p + CursorFacts.totalDuration arrivals
      <= Playback.nextStartTime (Playback.enqueueAll arrivals p))%Q
  /\ firstn (length (Playback.started p))
            (Playback.started (Playback.enqueueAll arrivals p))
     = Playback.started p
  /\ Forall2 (fun a s => (fst a <= fst s)%Q
                         /\ (Playback.nextStartTime p <= fst s)%Q
                         /\ snd s = snd a)
             arrivals
             (skipn (length (Playback.started p))
                    (Playback.started (Playback.enqueueAll arrivals p))).
Proof.
  rewrite PlaybackFacts.enqueueAll_spec.
  cbn [Playback.nextStartTime Playback.started].
  pose proof (CursorFacts.cursorAfter_lower arrivals (Playback.nextStartTime p)) as L.
  pose proof (CursorFacts.totalDuration_nonneg arrivals) as T.
  split; [Lqa.lra|]. split; [exact L|]. split.
  - rewrite firstn_app, Nat.sub_diag, firstn_all. cbn [firstn]. apply app_nil_r.
  - rewrite skipn_app, Nat.sub_diag, skipn_all. cbn [skipn app].
    apply CursorFacts.startsFrom_bounds. Lqa.lra.
Qed.

(** X7.  Buffers that are all scheduled before the cursor's time has come
    (a burst that arrives while audio is still queued) play back to back: the
    i-th starts at the cursor plus the play time of the ones before it, and
    the cursor ends at its old value plus the play time of them all. *)
Theorem burst_plays_gapless
  (arrivals : list (Q * AudioBuffer)) (p : Playback.Scheduler) :
  Forall (fun a => (fst a <= Playback.nextStartTime p)%Q) arrivals ->
  (Playback.nextStartTime (Playback.enqueueAll arrivals p)
   == Playback.nextStartTime p + CursorFacts.totalDuration arrivals)%Q
  /\ forall (i : nat) (a : Q * AudioBuffer),
      nth_error arrivals i = Some a ->
      exists t : Q,
        nth_error (Playback.started (Playback.enqueueAll arrivals p))
                  (length (Playback.started p) + i)
        = Some (t, snd a)
        /\ (t == Playback.nextStartTime p
                 + CursorFacts.totalDuration (firstn i arrivals))%Q.
Proof.
  intros H. rewrite PlaybackFacts.enqueueAll_spec.
  cbn [Playback.nextStartTime Playback.started].
  split.
  - apply (CursorFacts.cursorAfter_burst arrivals (Playback.nextStartTime p));
      [Lqa.lra|exact H].
  - intros i a Hi.
    destruct (CursorFacts.startsFrom_burst arrivals (Playback.nextStartTime p)
                (Playback.nextStartTime p) i a ltac:(Lqa.lra) H Hi) as (t & S & E).
    exists t. split; [|exact E].
    rewrite nth_error_app2 by lia.
    replace (length (Playback.started p) + i - length (Playback.started p))%nat
      with i by lia.
    exact S.
Qed.

(** Buffers of 5, 3 and 7 frames, all scheduled at device time 0 with the
    cursor at 0: the cursor ends at 15/24000 s and the third starts at
    8/24000 s. *)
Lemma burst_plays_gapless_witness :
  (Playback.nextStartTime
     (Playback.enqueueAll
        [(0%Q, mkBuffer (repeat 0%Q 5)); (0%Q, mkBuffer (repeat 0%Q 3));
         (0%Q, mkBuffer (repeat 0%Q 7))] Playback.initial) == 15 # 24000)%Q
  /\ exists t : Q,
      nth_error
        (Playback.started
           (Playback.enqueueAll
              [(0%Q, mkBuffer (repeat 0%Q 5)); (0%Q, mkBuffer (repeat 0%Q 3));
               (0%Q, mkBuffer (repeat 0%Q 7))] Playback.initial)) 2
      = Some (t, mkBuffer (repeat 0%Q 7))
      /\ (t == 8 # 24000)%Q.
Proof.
  destruct (burst_plays_gapless
              [(0%Q, mkBuffer (repeat 0%Q 5)); (0%Q, mkBuffer (repeat 0%Q 3));
               (0%Q, mkBuffer (repeat 0%Q 7))] Playback.initial
              ltac:(repeat constructor; discriminate)) as [C N].
  split.
  - rewrite C. vm_compute. reflexivity.
  - destruct (N 2%nat (0%Q, mkBuffer (repeat 0%Q 7)) eq_refl) as (t & S & E).
    exists t. split; [exact S|]. rewrite E. vm_compute. reflexivity.
Defined.

(* ------------------------------------------------------------------ *)
(** ** What a batch of tool calls hands to the session and leaves behind *)

Module BatchFacts.

(** The packet of a snapshot. *)
Definition snapshot (frame : list ascii) : Outgoing :=
  RealtimeInput {| data := frame; mimeType := "image/jpeg" |}.

Lemma lens_dispatch_handed (frame : list ascii) (st : EboLens.Lens)
  (rs : list FunctionResponse) (fc : FunctionCall) :
  EboLens.video (fst (EboLens.dispatch frame (st, rs) fc)) = EboLens.video st
  /\ handed (EboLens.session (fst (EboLens.dispatch frame (st, rs) fc)))
     = handed (EboLens.session st)
       ++ (if String.eqb (fc_name fc) "capture_and_analyze" && EboLens.video st
           then [snapshot frame] else []).
Proof.
  unfold EboLens.dispatch, EboLens.startRec, EboLens.isRecording_in_effect,
    EboLens.sendLater, EboLens.setTimeout, snapshot.
  destruct (String.eqb (fc_name fc) "capture_and_analyze");
    destruct (String.eqb (fc_name fc) "record_video_clip");
    destruct st as [? ? ? ? ? str vid ? ? ses ? ? ? ?];
    destruct str, vid; cbn;
    rewrite ?ToolFacts.handed_thenSend, ?app_nil_r; auto.
Qed.

Lemma lens_loop_handed (frame : list ascii) (calls : list FunctionCall)
  (st : EboLens.Lens) (rs : list FunctionResponse) :
  handed (EboLens.session (fst (fold_left (EboLens.dispatch frame) calls (st, rs))))
  = handed (EboLens.session st)
    ++ flat_map (fun fc =>
                   if String.eqb (fc_name fc) "capture_and_analyze" && EboLens.video st
                   then [snapshot frame] else []) calls.
Proof.
  revert st rs. induction calls as [|fc calls IH]; intros st rs.
  - cbn. rewrite app_nil_r. reflexivity.
  - cbn [fold_left flat_map].
    destruct (lens_dispatch_handed frame st rs fc) as [V H].
    destruct (EboLens.dispatch frame (st, rs) fc) as [st1 rs1].
    cbn [fst] in V, H. rewrite IH, H, V, <- app_assoc. reflexivity.
Qed.

Lemma lens_loop_idle (frame : list ascii) (calls : list FunctionCall)
  (st : EboLens.Lens) (rs : list FunctionResponse) :
  Forall (fun fc => String.eqb (fc_name fc) "capture_and_analyze" = false
                    /\ String.eqb (fc_name fc) "record_video_clip" = false) calls ->
  fold_left (EboLens.dispatch frame) calls (st, rs)
  = (st, rs ++ map ToolFacts.lensAck calls).
Proof.
  intros H. revert rs. induction H as [|fc calls [H1 H2] _ IH]; intros rs.
  - cbn. rewrite app_nil_r. reflexivity.
  - cbn [fold_left map]. unfold EboLens.dispatch at 2. rewrite H1, H2.
    rewrite IH, <- app_assoc. reflexivity.
Qed.

End BatchFacts.

(** X8.  Everything a batch of tool calls makes the lens hand to the
    session: one JPEG snapshot for each [capture_and_analyze] call when the
    video and canvas elements are there (none when they are not), in the order
    of the calls, and after them the single tool response with the
    acknowledgments. *)
Theorem lens_batch_hands_snapshots_then_response
  (frame : list ascii) (calls : list FunctionCall) (st : EboLens.Lens) :
  handed (EboLens.session (EboLens.toolDispatch frame calls st))
  = handed (EboLens.session st)
    ++ flat_map
         (fun fc =>
            if String.eqb (fc_name fc) "capture_and_analyze" && EboLens.video st
            then [RealtimeInput {| data := frame; mimeType := "image/jpeg" |}]
            else []) calls
    ++ [ToolResponse (map (fun fc => acknowledge fc {[ "ok" := JBool true ]}) calls)].
Proof.
  unfold EboLens.toolDispatch.
  pose proof (BatchFacts.lens_loop_handed frame calls st []) as H.
  destruct (ToolFacts.lens_loop frame calls st []) as [A _].
  destruct (fold_left (EboLens.dispatch frame) calls (st, [])) as [st1 rs1].
  cbn [fst snd] in H, A. subst rs1. unfold EboLens.sendLater.
  cbn [EboLens.session EboLens.set_session].
  rewrite ToolFacts.handed_thenSend, H, <- app_assoc. reflexivity.
Qed.

(** X10.  A batch of calls whose names the lens does not know changes
    nothing but the session: the calls are acknowledged as ok and no flag,
    timer or recorder is touched. *)
Theorem lens_unrecognized_tools_only_acknowledge
  (frame : list ascii) (calls : list FunctionCall) (st : EboLens.Lens) :
  Forall (fun fc => String.eqb (fc_name fc) "capture_and_analyze" = false
                    /\ String.eqb (fc_name fc) "record_video_clip" = false) calls ->
  EboLens.toolDispatch frame calls st
  = EboLens.sendLater
      (ToolResponse (map (fun fc => acknowledge fc {[ "ok" := JBool true ]}) calls)) st.
Proof.
  intros H. unfold EboLens.toolDispatch.
  rewrite (BatchFacts.lens_loop_idle frame calls st [] H). reflexivity.
Qed.

Lemma lens_unrecognized_tools_only_acknowledge_witness :
  EboLens.toolDispatch []
    [ {| fc_id := "1"; fc_name := "startNavigation"; fc_args := None |};
      {| fc_id := "2"; fc_name := ""; fc_args := None |} ] EboLens.mounted
  = EboLens.sendLater
      (ToolResponse
         [ acknowledge {| fc_id := "1"; fc_name := "startNavigation"; fc_args := None |}
             {[ "ok" := JBool true ]};
           acknowledge {| fc_id := "2"; fc_name := ""; fc_args := None |}
             {[ "ok" := JBool true ]} ]) EboLens.mounted.
Proof.
  apply (lens_unrecognized_tools_only_acknowledge []
           [ {| fc_id := "1"; fc_name := "startNavigation"; fc_args := None |};
             {| fc_id := "2"; fc_name := ""; fc_args := None |} ] EboLens.mounted).
  repeat constructor.
Defined.

(* ------------------------------------------------------------------ *)
(** ** What the tool loop of [LiveMode.tsx] hands over and leaves behind *)

Module LiveBatchFacts.

Import LiveMode LoopFacts.

(** A call that reads [args] carries them. *)
Definition carriesArgs (fc : FunctionCall) : Prop :=
  fc_name fc = "startNavigation" \/ fc_name fc = "generateHologram" ->
  fc_args fc <> None.

(** The calls of a batch that wait for a snapshot. *)
Definition needsSnapshot (video : bool) (fc : FunctionCall) : bool :=
  String.eqb (fc_name fc) "analyzeSurroundings" && video.

Lemma handleCall_cases (fc : FunctionCall) (st : Live) :
  carriesArgs fc ->
  exists st1 : Live,
    bridge st1 = bridge st
    /\ handleCall fc st = (if needsSnapshot (video st) fc then Awaits st1 else Completes st1).
Proof.
  intros C.
  assert (B : forall b, handleCall fc st = b -> bridge (stateOf b) = bridge st).
  { intros b <-. apply handleCall_bridge. }
  unfold needsSnapshot. revert B. unfold handleCall.
  destruct (String.eqb (fc_name fc) "startNavigation") eqn:E1.
  { apply String.eqb_eq in E1.
    assert (E2 : String.eqb (fc_name fc) "analyzeSurroundings" = false)
      by (rewrite E1; reflexivity).
    rewrite E2. cbn [andb].
    destruct (fc_args fc) eqn:A; [|exfalso; apply C; auto].
    intros B. eexists. split; [|reflexivity]. apply (B _ eq_refl). }
  destruct (String.eqb (fc_name fc) "analyzeSurroundings") eqn:E2.
  { change (video (setNavData None (setIsAnalyzing true st))) with (video st).
    intros B. cbn [andb].
    destruct (video st); eexists; (split; [|reflexivity]); apply (B _ eq_refl). }
  cbn [andb].
  destruct (String.eqb (fc_name fc) "generateHologram") eqn:E3.
  { apply String.eqb_eq in E3.
    destruct (fc_args fc) eqn:A; [|exfalso; apply C; auto].
    intros B. eexists. split; [|reflexivity]. apply (B _ eq_refl). }
  destruct (String.eqb (fc_name fc) "stopSystem");
    intros B; eexists; (split; [|reflexivity]); apply (B _ eq_refl).
Qed.

Lemma playAudio_quiet (t : Q) (msg : Message) (st : Live) :
  session (fst (playAudio t msg st)) = session st
  /\ suspended (fst (playAudio t msg st)) = suspended st
  /\ video (fst (playAudio t msg st)) = video st.
Proof.
  unfold playAudio. destruct (audio msg) as [[|c payload]|]; auto.
  destruct (outputContext st); auto.
  destruct (decodeAudioData (c :: payload)); auto.
Qed.

(** One turn of [proceed]. *)
Lemma proceed_completes (t : Q) (msg : Message) (fc : FunctionCall)
  (calls : list FunctionCall) (rs : list FunctionResponse) (st st1 : Live) :
  handleCall fc st = Completes st1 ->
  proceed t msg (fc :: calls) rs st = proceed t msg calls (rs ++ [liveAck fc]) st1.
Proof.
  intros E. unfold proceed, respond. cbn [forCalls]. rewrite E. reflexivity.
Qed.

Lemma proceed_awaits (t : Q) (msg : Message) (fc : FunctionCall)
  (calls : list FunctionCall) (rs : list FunctionResponse) (st st1 : Live) :
  handleCall fc st = Awaits st1 ->
  proceed t msg (fc :: calls) rs st
  = (set_suspended (suspended st1 ++ [mkTask fc calls rs msg]) st1, Awaiting).
Proof.
  intros E. unfold proceed, respond. cbn [forCalls]. rewrite E. reflexivity.
Qed.

Import BatchFacts.

(** The handler from some call on, and then the snapshots it waits for,
    one after the other and nothing else in between. *)
Lemma proceed_then_snapshots (t : Q) (msg : Message) (calls : list FunctionCall) :
  Forall carriesArgs calls ->
  forall (rs : list FunctionResponse) (st : Live) (frames : list (list ascii)),
    suspended st = [] ->
    length frames = length (List.filter (needsSnapshot (video st)) calls) ->
    let st' := run (map (fun f => SnapshotSettled 0 (inr f) t) frames)
                   (fst (proceed t msg calls rs st)) in
    handed (session st')
    = handed (session st) ++ map snapshot frames
      ++ [ToolResponse (rs ++ map liveAck calls)]
    /\ suspended st' = [].
Proof.
  induction 1 as [|fc calls Hfc _ IH]; intros rs st frames S L; cbv zeta.
  - destruct frames; [|discriminate]. cbn [map run fold_left app].
    unfold proceed, respond. cbn [forCalls].
    destruct (playAudio_quiet t msg (sendLater (ToolResponse rs) st)) as (A & B & _).
    rewrite A, B. unfold sendLater. cbn [session suspended set_session].
    rewrite ToolFacts.handed_thenSend, app_nil_r. auto.
  - destruct (handleCall_cases fc st Hfc) as (st1 & B & E).
    assert (V : video st1 = video st) by (unfold bridge in B; congruence).
    assert (S1 : suspended st1 = []) by (unfold bridge in B; congruence).
    assert (H1 : session st1 = session st) by (unfold bridge in B; congruence).
    cbn [List.filter] in L.
    destruct (needsSnapshot (video st) fc) eqn:N.
    + destruct frames as [|f frames]; [discriminate|]. cbn [length] in L.
      rewrite (proceed_awaits t msg fc calls rs st st1 E). rewrite S1.
      cbn [map run fold_left fst app].
      cbn [step suspended set_suspended lookup list_lookup].
      change (delete 0%nat [mkTask fc calls rs msg]) with (@nil Task).
      unfold resume. cbn [message remaining pushed awaiting].
      fold (run (map (fun f => SnapshotSettled 0 (inr f) t) frames)).
      set (st2 := sendLater _ _).
      destruct (IH (rs ++ [acknowledge fc result]) st2 frames) as [A C].
      { reflexivity. }
      { subst st2. cbn [video sendLater set_session set_suspended].
        rewrite V. lia. }
      cbv zeta in A, C. unfold run in *. rewrite A, C. split; [|reflexivity].
      subst st2. unfold sendLater.
      cbn [session set_session set_suspended]. rewrite ToolFacts.handed_thenSend, H1.
      cbn [map]. rewrite <- !app_assoc. reflexivity.
    + rewrite (proceed_completes t msg fc calls rs st st1 E).
      destruct (IH (rs ++ [liveAck fc]) st1 frames S1) as [A C].
      { rewrite V. exact L. }
      cbv zeta in A, C. rewrite A, C, H1. split; [|reflexivity].
      cbn [map]. rewrite <- !app_assoc. reflexivity.
Qed.

(** A loop over calls the bridge does not know leaves the state as it
    is. *)
Lemma forCalls_idle (calls : list FunctionCall) (rs : list FunctionResponse)
  (st : Live) :
  Forall (fun fc => String.eqb (fc_name fc) "startNavigation" = false
                    /\ String.eqb (fc_name fc) "analyzeSurroundings" = false
                    /\ String.eqb (fc_name fc) "generateHologram" = false
                    /\ String.eqb (fc_name fc) "stopSystem" = false) calls ->
  forCalls calls rs st = (st, Finished (rs ++ map liveAck calls)).
Proof.
  intros H. revert rs. induction H as [|fc calls (H1 & H2 & H3 & H4) _ IH]; intros rs.
  - cbn. rewrite app_nil_r. reflexivity.
  - cbn [forCalls]. unfold handleCall. rewrite H1, H2, H3, H4.
    rewrite IH. cbn [map]. rewrite <- app_assoc. reflexivity.
Qed.

Lemma handleCall_keeps_exclusive (fc : FunctionCall) (st : Live) :
  String.eqb (fc_name fc) "analyzeSurroundings" = false ->
  (overlaysShown st <= 1)%nat ->
  (overlaysShown (stateOf (handleCall fc st)) <= 1)%nat
  /\ forall st1, handleCall fc st <> Awaits st1.
Proof.
  intros A H. unfold handleCall. rewrite A.
  destruct (String.eqb (fc_name fc) "startNavigation").
  { destruct (fc_args fc);
      (split; [cbn [stateOf]; first [exact H|cbn; lia]|discriminate]). }
  destruct (String.eqb (fc_name fc) "generateHologram").
  { destruct (fc_args fc);
      (split; [cbn; try destruct (generatedImage st); lia|discriminate]). }
  destruct (String.eqb (fc_name fc) "stopSystem");
    (split; [cbn [stateOf]; first [exact H|cbn; lia]|discriminate]).
Qed.

Lemma forCalls_keeps_exclusive (calls : list FunctionCall)
  (rs : list FunctionResponse) (st : Live) :
  Forall (fun fc => String.eqb (fc_name fc) "analyzeSurroundings" = false) calls ->
  (overlaysShown st <= 1)%nat ->
  (overlaysShown (fst (forCalls calls rs st)) <= 1)%nat.
Proof.
  intros H. revert rs st. induction H as [|fc calls A _ IH]; intros rs st Hst;
    [exact Hst|].
  cbn [forCalls]. destruct (handleCall_keeps_exclusive fc st A Hst) as [E W].
  destruct (handleCall fc st) as [st1|st1 e|st1]; cbn [stateOf fst] in *.
  - apply IH, E.
  - exact E.
  - exfalso. apply (W st1). reflexivity.
Qed.

(** A loop that reaches its end has run its last call. *)
Lemma forCalls_snoc_finished (calls : list FunctionCall) (fc : FunctionCall)
  (rs rs1 : list FunctionResponse) (st st1 : Live) :
  forCalls (calls ++ [fc]) rs st = (st1, Finished rs1) ->
  exists st0 : Live, handleCall fc st0 = Completes st1.
Proof.
  revert rs st. induction calls as [|c calls IH]; intros rs st H.
  - cbn [app forCalls] in H. exists st.
    destruct (handleCall fc st) as [st2|st2 e|st2]; try discriminate.
    cbn in H. injection H as -> _. reflexivity.
  - cbn [app forCalls] in H.
    destruct (handleCall c st) as [st2|st2 e|st2]; try discriminate.
    exact (IH _ _ H).
Qed.

End LiveBatchFacts.

(** X9.  What a batch of tool calls makes [LiveMode.tsx] hand to the
    session when every call that reads [args] carries them, every snapshot
    succeeds and nothing else arrives while the handler waits: one JPEG
    snapshot for each [analyzeSurroundings] call when the video and canvas
    elements are there (none when they are not), in the order of the calls,
    and after them the single tool response with one acknowledgment per call,
    in the order of the calls, each with the identifier and the name of its
    call; and then no handler is left waiting. *)
Theorem live_batch_hands_snapshots_then_response
  (t : Q) (msg : Message) (calls : list FunctionCall) (frames : list (list ascii))
  (st : LiveMode.Live) :
  LiveMode.mountedRef st = true ->
  LiveMode.suspended st = [] ->
  toolCall msg = Some calls ->
  Forall (fun fc =>
            fc_name fc = "startNavigation" \/ fc_name fc = "generateHologram" ->
            fc_args fc <> None) calls ->
  length frames
  = length (List.filter
              (fun fc => String.eqb (fc_name fc) "analyzeSurroundings"
                         && LiveMode.video st) calls) ->
  let st' :=
    LiveMode.run
      (LiveMode.ServerMessage t msg
       :: map (fun f => LiveMode.SnapshotSettled 0 (inr f) t) frames) st in
  handed (LiveMode.session st')
  = handed (LiveMode.session st)
    ++ map (fun f => RealtimeInput {| data := f; mimeType := "image/jpeg" |}) frames
    ++ [ToolResponse
          (map (fun fc => {| fr_id := fc_id fc; fr_name := fc_name fc;
                             fr_response := {[ "status" := JStr "ok" ]} |}) calls)]
  /\ LiveMode.suspended st' = [].
Proof.
  intros M S T C L. cbv zeta.
  cbn [LiveMode.run fold_left LiveMode.step]. unfold LiveMode.onmessage.
  rewrite M, T. cbn [negb].
  exact (LiveBatchFacts.proceed_then_snapshots t msg calls C [] st frames S L).
Qed.

(** A navigation, two looks and a stop, with the snapshots "AAAA" and
    "BBBB". *)
Lemma live_batch_hands_snapshots_then_response_witness :
  let calls :=
    [ {| fc_id := "1"; fc_name := "startNavigation";
         fc_args := Some {[ "destination" := JStr "Harbour" ]} |};
      {| fc_id := "2"; fc_name := "analyzeSurroundings"; fc_args := None |};
      {| fc_id := "3"; fc_name := "analyzeSurroundings"; fc_args := None |};
      {| fc_id := "4"; fc_name := "stopSystem"; fc_args := None |} ] in
  handed
    (LiveMode.session
       (LiveMode.run
          [LiveMode.ServerMessage 0%Q (mkMessage None (Some calls));
           LiveMode.SnapshotSettled 0 (inr (list_ascii_of_string "AAAA")) 0%Q;
           LiveMode.SnapshotSettled 0 (inr (list_ascii_of_string "BBBB")) 0%Q]
          LiveMode.mounted))
  = [ RealtimeInput {| data := list_ascii_of_string "AAAA"; mimeType := "image/jpeg" |};
      RealtimeInput {| data := list_ascii_of_string "BBBB"; mimeType := "image/jpeg" |};
      ToolResponse
        (map (fun fc => {| fr_id := fc_id fc; fr_name := fc_name fc;
                           fr_response := {[ "status" := JStr "ok" ]} |}) calls) ].
Proof.
  cbv zeta.
  apply (live_batch_hands_snapshots_then_response 0%Q
           (mkMessage None
              (Some [ {| fc_id := "1"; fc_name := "startNavigation";
                         fc_args := Some {[ "destination" := JStr "Harbour" ]} |};
                      {| fc_id := "2"; fc_name := "analyzeSurroundings"; fc_args := None |};
                      {| fc_id := "3"; fc_name := "analyzeSurroundings"; fc_args := None |};
                      {| fc_id := "4"; fc_name := "stopSystem"; fc_args := None |} ]))
           _ [list_ascii_of_string "AAAA"; list_ascii_of_string "BBBB"]
           LiveMode.mounted eq_refl eq_refl eq_refl).
  - repeat constructor; cbn; intros [H|H]; discriminate.
  - reflexivity.
Defined.

(** X11.  A batch of calls whose names [LiveMode.tsx] does not know
    changes nothing but the session: the loop runs to its end, the calls are
    acknowledged as ok and no overlay is touched. *)
Theorem live_unrecognized_tools_only_acknowledge
  (calls : list FunctionCall) (st : LiveMode.Live) :
  Forall (fun fc => String.eqb (fc_name fc) "startNavigation" = false
                    /\ String.eqb (fc_name fc) "analyzeSurroundings" = false
                    /\ String.eqb (fc_name fc) "generateHologram" = false
                    /\ String.eqb (fc_name fc) "stopSystem" = false) calls ->
  LiveMode.toolDispatch calls st
  = (LiveMode.sendLater
       (ToolResponse (map (fun fc => acknowledge fc {[ "status" := JStr "ok" ]}) calls))
       st,
     LiveMode.Finished
       (map (fun fc => acknowledge fc {[ "status" := JStr "ok" ]}) calls)).
Proof.
  intros H. unfold LiveMode.toolDispatch, LiveMode.respond.
  rewrite (LiveBatchFacts.forCalls_idle calls [] st H). reflexivity.
Qed.

Lemma live_unrecognized_tools_only_acknowledge_witness :
  fst (LiveMode.toolDispatch
         [ {| fc_id := "1"; fc_name := "record_video_clip"; fc_args := None |};
           {| fc_id := "2"; fc_name := "StopSystem"; fc_args := Some ∅ |} ]
         LiveMode.mounted)
  = LiveMode.sendLater
      (ToolResponse
         [ acknowledge {| fc_id := "1"; fc_name := "record_video_clip"; fc_args := None |}
             {[ "status" := JStr "ok" ]};
           acknowledge {| fc_id := "2"; fc_name := "StopSystem"; fc_args := Some ∅ |}
             {[ "status" := JStr "ok" ]} ]) LiveMode.mounted.
Proof.
  rewrite (live_unrecognized_tools_only_acknowledge
             [ {| fc_id := "1"; fc_name := "record_video_clip"; fc_args := None |};
               {| fc_id := "2"; fc_name := "StopSystem"; fc_args := Some ∅ |} ]
             LiveMode.mounted).
  - reflexivity.
  - repeat constructor.
Defined.

(** X12.  In [LiveMode.tsx] a batch with no [analyzeSurroundings] call
    keeps the overlays exclusive: if at most one of navigation, analysis and
    generated image shows before the batch, at most one shows when the tool
    block is left, at its end or by the throw of a call without [args]. *)
Theorem overlays_stay_exclusive_without_analyze
  (calls : list FunctionCall) (st : LiveMode.Live) :
  Forall (fun fc => String.eqb (fc_name fc) "analyzeSurroundings" = false) calls ->
  (LiveMode.overlaysShown st <= 1)%nat ->
  (LiveMode.overlaysShown (fst (LiveMode.toolDispatch calls st)) <= 1)%nat.
Proof.
  intros H Hst. unfold LiveMode.toolDispatch, LiveMode.respond.
  pose proof (LiveBatchFacts.forCalls_keeps_exclusive calls [] st H Hst) as E.
  destruct (LiveMode.forCalls calls [] st) as [st1 [rs|e|fc rest rs]]; exact E.
Qed.

Lemma overlays_stay_exclusive_without_analyze_witness :
  (LiveMode.overlaysShown
     (fst (LiveMode.toolDispatch
             [ {| fc_id := "1"; fc_name := "generateHologram";
                  fc_args := Some {[ "prompt" := JStr "a red kite" ]} |};
               {| fc_id := "2"; fc_name := "startNavigation";
                  fc_args := Some {[ "destination" := JStr "Harbour" ]} |};
               {| fc_id := "3"; fc_name := "openDoor"; fc_args := None |} ]
             LiveMode.mounted)) <= 1)%nat.
Proof.
  apply overlays_stay_exclusive_without_analyze.
  - repeat constructor.
  - vm_compute. lia.
Defined.

(** X13.  In [LiveMode.tsx] a tool loop whose last call is [stopSystem]
    and that reaches its end leaves no overlay, whatever came before that
    call and whatever its arguments: this holds of the loop from any of its
    calls on, so also of a handler that went on after a snapshot, and of the
    whole tool block.  The loop does reach its end when every call before the
    last carries the [args] it reads and needs no snapshot. *)
Theorem batch_ending_with_stop_clears_overlays
  (calls : list FunctionCall) (fc : FunctionCall) :
  fc_name fc = "stopSystem" ->
  (forall (rs rs1 : list FunctionResponse) (st st1 : LiveMode.Live),
      LiveMode.forCalls (calls ++ [fc]) rs st = (st1, LiveMode.Finished rs1) ->
      LiveMode.navData st1 = None /\ LiveMode.generatedImage st1 = None
      /\ LiveMode.isAnalyzing st1 = false /\ LiveMode.overlaysShown st1 = 0%nat)
  /\ (forall (rs1 : list FunctionResponse) (st st1 : LiveMode.Live),
         LiveMode.toolDispatch (calls ++ [fc]) st = (st1, LiveMode.Finished rs1) ->
         LiveMode.navData st1 = None /\ LiveMode.generatedImage st1 = None
         /\ LiveMode.isAnalyzing st1 = false /\ LiveMode.overlaysShown st1 = 0%nat)
  /\ (forall st : LiveMode.Live,
         Forall (fun c =>
                   (fc_name c = "startNavigation" \/ fc_name c = "generateHologram" ->
                    fc_args c <> None)
                   /\ (fc_name c = "analyzeSurroundings" -> LiveMode.video st = false))
                calls ->
         exists (st1 : LiveMode.Live) (rs1 : list FunctionResponse),
           LiveMode.toolDispatch (calls ++ [fc]) st = (st1, LiveMode.Finished rs1)).
Proof.
  intros E.
  assert (A : forall rs rs1 st st1,
             LiveMode.forCalls (calls ++ [fc]) rs st = (st1, LiveMode.Finished rs1) ->
             LiveMode.navData st1 = None /\ LiveMode.generatedImage st1 = None
             /\ LiveMode.isAnalyzing st1 = false /\ LiveMode.overlaysShown st1 = 0%nat).
  { intros rs rs1 st st1 H.
    destruct (LiveBatchFacts.forCalls_snoc_finished calls fc rs rs1 st st1 H) as (st0 & H0).
    destruct (OverlayFacts.stopSystem_clears_all fc st0 E) as (st2 & H2 & N & G & I).
    rewrite H2 in H0. injection H0 as <-.
    unfold LiveMode.overlaysShown. rewrite N, G, I. auto. }
  split; [exact A|]. split.
  - intros rs1 st st1 H. unfold LiveMode.toolDispatch, LiveMode.respond in H.
    destruct (LiveMode.forCalls (calls ++ [fc]) [] st) as [st2 [rs|e|c rest rs]] eqn:F;
      try discriminate.
    injection H as <- _.
    destruct (A _ _ _ _ F) as (N & G & I & O).
    unfold LiveMode.sendLater. cbn. auto.
  - intros st H.
    destruct (LoopFacts.forCalls_runs_through (calls ++ [fc]) [] st) as (st1 & F).
    { apply Forall_app. split.
      - eapply List.Forall_impl; [|exact H]. intros c [C V].
        unfold LoopFacts.runsThrough. repeat split.
        + intros N. apply C. left. apply String.eqb_eq, N.
        + intros N. apply C. right. apply String.eqb_eq, N.
        + intros N. apply V. apply String.eqb_eq, N.
      - constructor; [|constructor]. unfold LoopFacts.runsThrough. rewrite E.
        repeat split; discriminate. }
    unfold LiveMode.toolDispatch, LiveMode.respond. rewrite F. eauto.
Qed.

Lemma batch_ending_with_stop_clears_overlays_witness :
  LiveMode.overlaysShown
    (fst (LiveMode.toolDispatch
            ([ {| fc_id := "1"; fc_name := "generateHologram";
                  fc_args := Some {[ "prompt" := JStr "a red kite" ]} |};
               {| fc_id := "2"; fc_name := "startNavigation";
                  fc_args := Some {[ "destination" := JStr "Harbour" ]} |} ]
             ++ [ {| fc_id := "3"; fc_name := "stopSystem"; fc_args := None |} ])
            LiveMode.mounted)) = 0%nat.
Proof.
  destruct (batch_ending_with_stop_clears_overlays
              [ {| fc_id := "1"; fc_name := "generateHologram";
                   fc_args := Some {[ "prompt" := JStr "a red kite" ]} |};
                {| fc_id := "2"; fc_name := "startNavigation";
                   fc_args := Some {[ "destination" := JStr "Harbour" ]} |} ]
              {| fc_id := "3"; fc_name := "stopSystem"; fc_args := None |} eq_refl)
    as (_ & H & _).
  apply (H (map LoopFacts.liveAck
              [ {| fc_id := "1"; fc_name := "generateHologram";
                   fc_args := Some {[ "prompt" := JStr "a red kite" ]} |};
                {| fc_id := "2"; fc_name := "startNavigation";
                   fc_args := Some {[ "destination" := JStr "Harbour" ]} |};
                {| fc_id := "3"; fc_name := "stopSystem"; fc_args := None |} ])
           LiveMode.mounted).
  vm_compute. reflexivity.
Defined.

(* ------------------------------------------------------------------ *)
(** ** Capture and teardown in [LiveMode.tsx], faults in both handlers *)

Module LiveFacts.

Import LiveMode.

Lemma onaudioprocess_handed (inputData : list Q) (st : Live) :
  mountedRef (onaudioprocess inputData st) = mountedRef st
  /\ handed (session (onaudioprocess inputData st))
     = handed (session st) ++ [RealtimeInput (createAudioBlob inputData)].
Proof.
  unfold onaudioprocess, sendLater.
  destruct (mountedRef st) eqn:M; cbn; rewrite ToolFacts.handed_thenSend; auto.
Qed.

(** After the cleanup, with no handler waiting, a step changes the
    session at most. *)
Lemma torn_step (st : Live) (e : Event) :
  mountedRef st = false -> suspended st = [] ->
  step st e = set_session (session (step st e)) st.
Proof.
  intros M S. destruct st as [m v n g a vid o p s k]. cbn in M, S. subst m k.
  destruct e as [| inputData | t msg | i snapshot t |]; reflexivity.
Qed.

End LiveFacts.

(** X14.  [LiveMode.tsx] hands the session one audio packet for every
    frame its capture callback receives, in the order of the frames, whether
    the component is still mounted or not. *)
Theorem live_capture_sends_every_frame
  (frames : list (list Q)) (st : LiveMode.Live) :
  handed (LiveMode.session (LiveMode.run (map LiveMode.AudioProcess frames) st))
  = handed (LiveMode.session st)
    ++ map (fun f => RealtimeInput (LiveMode.createAudioBlob f)) frames.
Proof.
  revert st. induction frames as [|f frames IH]; intros st.
  - cbn. rewrite app_nil_r. reflexivity.
  - cbn [map LiveMode.run fold_left LiveMode.step].
    fold (LiveMode.run (map LiveMode.AudioProcess frames) (LiveMode.onaudioprocess f st)).
    destruct (LiveFacts.onaudioprocess_handed f st) as [_ H].
    rewrite IH, H, <- app_assoc. reflexivity.
Qed.

(** X15.  After the cleanup of [LiveMode.tsx], when no handler is waiting
    for a snapshot, no callback sets any state: whatever arrives, the volume,
    the overlays and the playback cursor stay as they were and only the
    session can change; server messages change nothing at all, and their
    tool calls are not acknowledged. *)
Theorem live_torn_down_keeps_state
  (events : list LiveMode.Event) (st : LiveMode.Live) :
  LiveMode.mountedRef st = false ->
  LiveMode.suspended st = [] ->
  LiveMode.run events st
  = LiveMode.set_session (LiveMode.session (LiveMode.run events st)) st
  /\ (Forall (fun e => match e with
                       | LiveMode.ServerMessage _ _ | LiveMode.SnapshotSettled _ _ _
                       | LiveMode.Cleanup => True
                       | _ => False
                       end) events ->
      LiveMode.run events st = st).
Proof.
  intros M K. split.
  - revert st M K. induction events as [|e events IH]; intros st M K.
    + destruct st; reflexivity.
    + cbn [LiveMode.run fold_left]. fold (LiveMode.run events (LiveMode.step st e)).
      pose proof (LiveFacts.torn_step st e M K) as S.
      assert (M' : LiveMode.mountedRef (LiveMode.step st e) = false).
      { rewrite S. destruct st; exact M. }
      assert (K' : LiveMode.suspended (LiveMode.step st e) = []).
      { rewrite S. destruct st; exact K. }
      rewrite (IH _ M' K'). rewrite S at 2. destruct st; reflexivity.
  - intros H. revert st M K. induction H as [|e events He _ IH]; intros st M K;
      [reflexivity|].
    cbn [LiveMode.run fold_left]. fold (LiveMode.run events (LiveMode.step st e)).
    assert (S : LiveMode.step st e = st).
    { destruct e as [| inputData | t msg | i snapshot t |]; try contradiction.
      - cbn [LiveMode.step]. unfold LiveMode.onmessage. rewrite M. reflexivity.
      - cbn [LiveMode.step]. rewrite K. reflexivity.
      - cbn [LiveMode.step]. destruct st; cbn in M; subst; reflexivity. }
    rewrite S. apply IH; assumption.
Qed.

Lemma live_torn_down_keeps_state_witness :
  LiveMode.isAnalyzing
    (LiveMode.run
       [LiveMode.ServerMessage 0%Q
          (mkMessage (Some (list_ascii_of_string "AAA="))
             (Some [ {| fc_id := "1"; fc_name := "analyzeSurroundings";
                        fc_args := None |} ]));
        LiveMode.SnapshotSettled 0 (inr []) 0%Q;
        LiveMode.AudioProcess [(1 # 2)%Q]]
       (LiveMode.cleanup LiveMode.mounted)) = false.
Proof.
  destruct (live_torn_down_keeps_state
              [LiveMode.ServerMessage 0%Q
                 (mkMessage (Some (list_ascii_of_string "AAA="))
                    (Some [ {| fc_id := "1"; fc_name := "analyzeSurroundings";
                               fc_args := None |} ]));
               LiveMode.SnapshotSettled 0 (inr []) 0%Q;
               LiveMode.AudioProcess [(1 # 2)%Q]]
              (LiveMode.cleanup LiveMode.mounted) eq_refl eq_refl) as [H _].
  rewrite H. reflexivity.
Defined.

(** X29.  A handler of [LiveMode.tsx] that waits for its snapshot when the
    cleanup runs goes on when the snapshot arrives: the mounted flag is read
    at the start of [onmessage] only.  When the call it waits for is the last
    of its batch, the snapshot is sent and after it the tool response, with
    the responses pushed before and the acknowledgment of that call, and no
    handler is left waiting; a snapshot that fails ends the handler with
    nothing sent. *)
Theorem waiting_handler_goes_on_after_cleanup
  (st : LiveMode.Live) (k : LiveMode.Task) (t : Q) :
  LiveMode.suspended st = [k] ->
  LiveMode.remaining k = [] ->
  (forall base64 : list ascii,
      let st' :=
        LiveMode.run [LiveMode.Cleanup; LiveMode.SnapshotSettled 0 (inr base64) t] st in
      LiveMode.mountedRef st' = false
      /\ handed (LiveMode.session st')
         = handed (LiveMode.session st)
           ++ [ RealtimeInput {| data := base64; mimeType := "image/jpeg" |};
                ToolResponse
                  (LiveMode.pushed k
                   ++ [ {| fr_id := fc_id (LiveMode.awaiting k);
                           fr_name := fc_name (LiveMode.awaiting k);
                           fr_response := {[ "status" := JStr "ok" ]} |} ]) ]
      /\ LiveMode.suspended st' = [])
  /\ (forall e : JsError,
         LiveMode.run [LiveMode.Cleanup; LiveMode.SnapshotSettled 0 (inl e) t] st
         = LiveMode.set_suspended [] (LiveMode.cleanup st)).
Proof.
  intros S R.
  destruct st as [m v n g a vid o p s ks]. cbn [LiveMode.suspended] in S. subst ks.
  destruct k as [fc rest rs msg]. cbn [LiveMode.remaining] in R. subst rest.
  split.
  - intros base64. cbv zeta.
    cbn [LiveMode.run fold_left LiveMode.step LiveMode.cleanup LiveMode.set_mountedRef
         LiveMode.suspended lookup list_lookup LiveMode.mountedRef LiveMode.volume
         LiveMode.navData LiveMode.generatedImage LiveMode.isAnalyzing LiveMode.video
         LiveMode.outputContext LiveMode.playback LiveMode.session].
    change (delete 0%nat [LiveMode.mkTask fc [] rs msg]) with (@nil LiveMode.Task).
    unfold LiveMode.resume, LiveMode.proceed, LiveMode.respond.
    cbn [LiveMode.forCalls LiveMode.remaining LiveMode.pushed LiveMode.awaiting
         LiveMode.message].
    unfold LiveMode.playAudio, LiveMode.sendLater, LiveMode.cleanup.
    cbn [LiveMode.set_session LiveMode.set_suspended LiveMode.set_mountedRef
         LiveMode.suspended LiveMode.mountedRef LiveMode.volume LiveMode.navData
         LiveMode.generatedImage LiveMode.isAnalyzing LiveMode.video
         LiveMode.outputContext LiveMode.playback LiveMode.session].
    destruct (audio msg) as [[|c payload]|];
      [| destruct o; [destruct (decodeAudioData (c :: payload))|] |];
      cbn [fst LiveMode.set_playback LiveMode.set_session LiveMode.set_suspended
             LiveMode.set_mountedRef LiveMode.suspended LiveMode.mountedRef
             LiveMode.session];
      rewrite !ToolFacts.handed_thenSend, <- app_assoc; auto.
  - intros e. reflexivity.
Qed.

(** The handler of one [analyzeSurroundings] call, the cleanup, and then
    the snapshot "AAAA". *)
Lemma waiting_handler_goes_on_after_cleanup_witness :
  let look := {| fc_id := "1"; fc_name := "analyzeSurroundings"; fc_args := None |} in
  handed
    (LiveMode.session
       (LiveMode.run
          [LiveMode.Cleanup;
           LiveMode.SnapshotSettled 0 (inr (list_ascii_of_string "AAAA")) 0%Q]
          (LiveMode.run [LiveMode.ServerMessage 0%Q (mkMessage None (Some [look]))]
             LiveMode.mounted)))
  = [ RealtimeInput {| data := list_ascii_of_string "AAAA"; mimeType := "image/jpeg" |};
      ToolResponse [ {| fr_id := "1"; fr_name := "analyzeSurroundings";
                        fr_response := {[ "status" := JStr "ok" ]} |} ] ].
Proof.
  cbv zeta.
  destruct (waiting_handler_goes_on_after_cleanup
              (LiveMode.run
                 [LiveMode.ServerMessage 0%Q
                    (mkMessage None
                       (Some [ {| fc_id := "1"; fc_name := "analyzeSurroundings";
                                  fc_args := None |} ]))]
                 LiveMode.mounted)
              (LiveMode.mkTask
                 {| fc_id := "1"; fc_name := "analyzeSurroundings"; fc_args := None |}
                 [] []
                 (mkMessage None
                    (Some [ {| fc_id := "1"; fc_name := "analyzeSurroundings";
                               fc_args := None |} ])))
              0%Q eq_refl eq_refl) as [H _].
  destruct (H (list_ascii_of_string "AAAA")) as (_ & S & _).
  exact S.
Defined.

(** A frame, a message, a timer and a second cleanup after the lens was
    torn down with its session connected. *)
Lemma torn_down_is_silent_witness :
  EboLens.session
    (EboLens.run
       [EboLens.AudioProcess [(1 # 2)%Q];
        EboLens.ServerMessage 0%Q []
          (mkMessage None
             (Some [ {| fc_id := "1"; fc_name := "capture_and_analyze"; fc_args := None |} ]));
        EboLens.TimerFired 0; EboLens.Cleanup]
       (EboLens.run [EboLens.SessionReady; EboLens.Cleanup] EboLens.mounted))
  = EboLens.session (EboLens.run [EboLens.SessionReady; EboLens.Cleanup] EboLens.mounted).
Proof.
  apply (LensFacts.torn_down_is_silent
           [EboLens.AudioProcess [(1 # 2)%Q];
            EboLens.ServerMessage 0%Q []
              (mkMessage None
                 (Some [ {| fc_id := "1"; fc_name := "capture_and_analyze";
                            fc_args := None |} ]));
            EboLens.TimerFired 0; EboLens.Cleanup]
           (EboLens.run [EboLens.SessionReady; EboLens.Cleanup] EboLens.mounted)
           eq_refl eq_refl).
Defined.

(** X17.  A message whose audio does not decode and that also carries tool
    calls: the lens, which decodes first, throws before its tool loop, so the
    calls are neither run nor acknowledged and only the speaking flag is set;
    [LiveMode.tsx], which runs its tool loop first, has dispatched and
    acknowledged the calls when it throws, if its loop reached its end: if
    every call carries the [args] it reads and none needs a snapshot. *)
Theorem undecodable_audio_and_tool_calls
  (t : Q) (frame : list ascii) (msg : Message) (c : ascii) (payload : list ascii)
  (e : JsError) :
  audio msg = Some (c :: payload) ->
  decodeAudioData (c :: payload) = inl e ->
  (forall st : EboLens.Lens,
      EboLens.isActive st = true -> EboLens.outputCtx st = true ->
      EboLens.onmessage t frame msg st = (EboLens.set_isAiSpeaking true st, Some e))
  /\ (forall (st : LiveMode.Live) (calls : list FunctionCall),
         LiveMode.mountedRef st = true -> LiveMode.outputContext st = true ->
         toolCall msg = Some calls ->
         Forall (fun fc =>
                   (fc_name fc = "startNavigation" \/ fc_name fc = "generateHologram" ->
                    fc_args fc <> None)
                   /\ (fc_name fc = "analyzeSurroundings" -> LiveMode.video st = false))
                calls ->
         exists st1 : LiveMode.Live,
           LiveMode.onmessage t msg st = (st1, LiveMode.Threw e)
           /\ handed (LiveMode.session st1)
              = handed (LiveMode.session st)
                ++ [ToolResponse
                      (map (fun fc => {| fr_id := fc_id fc; fr_name := fc_name fc;
                                         fr_response := {[ "status" := JStr "ok" ]} |})
                           calls)]
           /\ LiveMode.playback st1 = LiveMode.playback st).
Proof.
  intros Ha Hd. split.
  - intros st A C. unfold EboLens.onmessage. rewrite A, Ha, C. cbn [negb].
    change (EboLens.outputCtx (EboLens.set_isAiSpeaking true st)) with (EboLens.outputCtx st).
    rewrite Hd. reflexivity.
  - intros st calls M C T H.
    destruct (LoopFacts.forCalls_runs_through calls [] st) as (st1 & F).
    { eapply List.Forall_impl; [|exact H]. intros fc [A V].
      unfold LoopFacts.runsThrough. repeat split.
      - intros N. apply A. left. apply String.eqb_eq, N.
      - intros N. apply A. right. apply String.eqb_eq, N.
      - intros N. apply V. apply String.eqb_eq, N. }
    pose proof (LoopFacts.forCalls_bridge calls [] st) as B. rewrite F in B.
    cbn [fst] in B. unfold LoopFacts.bridge in B.
    assert (C1 : LiveMode.outputContext st1 = true) by congruence.
    assert (S1 : LiveMode.session st1 = LiveMode.session st) by congruence.
    assert (P1 : LiveMode.playback st1 = LiveMode.playback st) by congruence.
    unfold LiveMode.onmessage. rewrite M, T. cbn [negb].
    unfold LiveMode.proceed, LiveMode.respond. rewrite F.
    unfold LiveMode.playAudio. rewrite Ha.
    change (LiveMode.outputContext (LiveMode.sendLater ?x ?s))
      with (LiveMode.outputContext s).
    rewrite C1, Hd. eexists. split; [reflexivity|].
    unfold LiveMode.sendLater. cbn [LiveMode.session LiveMode.set_session LiveMode.playback].
    rewrite ToolFacts.handed_thenSend, S1. auto.
Qed.

Lemma undecodable_audio_and_tool_calls_witness :
  handed
    (EboLens.session
       (fst (EboLens.onmessage 0%Q []
               (mkMessage (Some (list_ascii_of_string "!"))
                  (Some [ {| fc_id := "1"; fc_name := "record_video_clip";
                             fc_args := None |} ]))
               EboLens.mounted))) = []
  /\ exists st1 : LiveMode.Live,
      LiveMode.onmessage 0%Q
        (mkMessage (Some (list_ascii_of_string "!"))
           (Some [ {| fc_id := "1"; fc_name := "stopSystem"; fc_args := None |} ]))
        LiveMode.mounted = (st1, LiveMode.Threw InvalidCharacterError)
      /\ handed (LiveMode.session st1)
         = [ToolResponse [ {| fr_id := "1"; fr_name := "stopSystem";
                              fr_response := {[ "status" := JStr "ok" ]} |} ]].
Proof.
  split.
  - destruct (undecodable_audio_and_tool_calls 0%Q []
                (mkMessage (Some (list_ascii_of_string "!"))
                   (Some [ {| fc_id := "1"; fc_name := "record_video_clip";
                              fc_args := None |} ]))
                "!"%char [] InvalidCharacterError eq_refl eq_refl) as [H _].
    rewrite (H EboLens.mounted eq_refl eq_refl). reflexivity.
  - destruct (undecodable_audio_and_tool_calls 0%Q []
                (mkMessage (Some (list_ascii_of_string "!"))
                   (Some [ {| fc_id := "1"; fc_name := "stopSystem"; fc_args := None |} ]))
                "!"%char [] InvalidCharacterError eq_refl eq_refl) as [_ H].
    destruct (H LiveMode.mounted _ eq_refl eq_refl eq_refl) as (st1 & O & S & _).
    { repeat constructor; cbn; intros; discriminate || (intuition discriminate). }
    exists st1. split; [exact O|exact S].
Defined.

(* ------------------------------------------------------------------ *)
(** ** The life of the recorders of the lens *)

Module RecorderLife.

Import EboLens.

Definition isDone (r : Recorder) : bool :=
  match r with Done => true | _ => false end.

(** The recorders whose [onstop] has run. *)
Definition finished (st : Lens) : nat := length (List.filter isDone (recorders st)).

(** A name [onstop] gives a clip. *)
Definition clipName (name : string) : Prop :=
  exists now : Z, name = "EBO_REC_" +:+ pretty now +:+ ".webm".

Lemma finished_insert (l : list Recorder) (r : nat) (old new : Recorder) :
  l !! r = Some old ->
  length (List.filter isDone (<[ r := new ]> l))
  = (length (List.filter isDone l) + Nat.b2n (isDone new) - Nat.b2n (isDone old))%nat.
Proof.
  revert r. induction l as [|x l IH]; intros r H; [discriminate|].
  destruct r as [|r].
  - cbn in H. injection H as ->. cbn [list_insert insert List.filter].
    change (<[0%nat:=new]> (old :: l)) with (new :: l). cbn [List.filter].
    destruct (isDone new), (isDone old); cbn [length Nat.b2n]; lia.
  - cbn in H. change (<[S r:=new]> (x :: l)) with (x :: <[r:=new]> l).
    cbn [List.filter]. specialize (IH r H).
    assert (P : (Nat.b2n (isDone old) <= length (List.filter isDone l))%nat).
    { clear -H. revert r H. induction l as [|y l IHl]; intros r H; [discriminate|].
      destruct r as [|r]; cbn in H.
      - injection H as ->. cbn [List.filter].
        destruct (isDone old); cbn [length Nat.b2n]; lia.
      - specialize (IHl r H). cbn [List.filter].
        destruct (isDone y); cbn [length]; lia. }
    destruct (isDone x); cbn [length]; lia.
Qed.

Lemma finished_app_recording (l : list Recorder) (k : nat) :
  List.filter isDone (l ++ repeat Recording k) = List.filter isDone l.
Proof.
  rewrite List.filter_app.
  assert (E : List.filter isDone (repeat Recording k) = []).
  { induction k; [reflexivity|exact IHk]. }
  rewrite E. apply app_nil_r.
Qed.

(** What one call does to the recorders: nothing, or one more recording
    when there is a stream. *)
Lemma dispatch_recorders (frame : list ascii) (st : Lens)
  (rs : list FunctionResponse) (fc : FunctionCall) :
  downloads (fst (dispatch frame (st, rs) fc)) = downloads st
  /\ stream (fst (dispatch frame (st, rs) fc)) = stream st
  /\ exists k : nat,
      recorders (fst (dispatch frame (st, rs) fc)) = recorders st ++ repeat Recording k
      /\ (stream st = false -> k = 0%nat).
Proof.
  unfold dispatch, startRec, isRecording_in_effect, sendLater, setTimeout.
  destruct (String.eqb (fc_name fc) "capture_and_analyze");
    destruct (String.eqb (fc_name fc) "record_video_clip");
    destruct st as [? ? ? ? ? str vid ? ? ses ? recs ? ?];
    destruct str, vid; cbn; (split; [reflexivity|]); (split; [reflexivity|]);
    first [ exists 1%nat; split; [reflexivity|discriminate]
          | exists 0%nat; split; [symmetry; apply app_nil_r|reflexivity] ].
Qed.

Lemma loop_recorders (frame : list ascii) (calls : list FunctionCall)
  (st : Lens) (rs : list FunctionResponse) :
  downloads (fst (fold_left (dispatch frame) calls (st, rs))) = downloads st
  /\ stream (fst (fold_left (dispatch frame) calls (st, rs))) = stream st
  /\ exists k : nat,
      recorders (fst (fold_left (dispatch frame) calls (st, rs)))
      = recorders st ++ repeat Recording k
      /\ (stream st = false -> k = 0%nat).
Proof.
  revert st rs. induction calls as [|fc calls IH]; intros st rs.
  - cbn. split; [reflexivity|]. split; [reflexivity|].
    exists 0%nat. split; [symmetry; apply app_nil_r|reflexivity].
  - cbn [fold_left].
    destruct (dispatch_recorders frame st rs fc) as (D & S & k & R & K).
    destruct (dispatch frame (st, rs) fc) as [st1 rs1]. cbn [fst] in D, S, R.
    destruct (IH st1 rs1) as (D' & S' & k' & R' & K').
    rewrite D', S', R', D, S, R.
    split; [reflexivity|]. split; [reflexivity|].
    exists (k + k')%nat. split.
    + rewrite <- app_assoc, repeat_app. reflexivity.
    + intros F. rewrite (K F), (K' ltac:(rewrite S; exact F)). reflexivity.
Qed.

Lemma step_recorders_created (st : Lens) (e : Event) :
  stream (step st e) = stream st
  /\ (stream st = false -> length (recorders (step st e)) = length (recorders st)).
Proof.
  destruct e as [| data | t frame msg | n | chunk | r now |]; cbn [step].
  - auto.
  - unfold onaudioprocess. destruct (isActive st); auto.
  - unfold onmessage. destruct (isActive st); cbn [negb]; [|auto].
    assert (T : forall s : Lens,
               stream s = stream st -> recorders s = recorders st ->
               forall calls,
                 stream (toolDispatch frame calls s) = stream st
                 /\ (stream st = false ->
                     length (recorders (toolDispatch frame calls s))
                     = length (recorders st))).
    { intros s Hs Hr calls. unfold toolDispatch.
      destruct (loop_recorders frame calls s []) as (_ & S & k & R & K).
      destruct (fold_left (dispatch frame) calls (s, [])) as [s1 rs1].
      cbn [fst] in S, R. unfold sendLater. cbn. rewrite S, R, Hs, Hr.
      split; [reflexivity|]. intros F. rewrite K by (rewrite Hs; exact F).
      cbn [repeat]. rewrite app_nil_r. reflexivity. }
    destruct (audio msg) as [[|c payload]|].
    + destruct (toolCall msg); cbn [fst]; [apply T; reflexivity|auto].
    + destruct (outputCtx st).
      * destruct (decodeAudioData (c :: payload)); cbn [fst]; [auto|].
        destruct (toolCall msg); cbn [fst]; [apply T; reflexivity|auto].
      * destruct (toolCall msg); cbn [fst]; [apply T; reflexivity|auto].
    + destruct (toolCall msg); cbn [fst]; [apply T; reflexivity|auto].
  - destruct (timers st !! n) as [[d a [|]]|]; auto.
    destruct a as [|r]; cbn; auto.
    destruct (recorders st !! r) as [[| |]|]; cbn; auto.
    split; [reflexivity|]. intros _. apply length_insert.
  - auto.
  - destruct (recorders st !! r) as [[| |]|]; cbn; auto;
      (split; [reflexivity|]); intros _; apply length_insert.
  - unfold cleanup. cbn [stream set_isActive].
    destruct (stream st) eqn:S;
      [split; [exact S|discriminate]|split; [exact S|reflexivity]].
Qed.

Lemma finished_trackStopped (l : list Recorder) :
  List.filter isDone (map trackStopped l)
  = map trackStopped (List.filter isDone l).
Proof.
  induction l as [|[| |] l IH]; cbn [map List.filter trackStopped isDone];
    rewrite ?IH; reflexivity.
Qed.

(** Every finished recorder has its download, and every download its
    name. *)
Definition offered (st : Lens) : Prop :=
  length (downloads st) = finished st
  /\ Forall (fun d => clipName (filename d)) (downloads st).

Lemma step_offered (st : Lens) (e : Event) : offered st -> offered (step st e).
Proof.
  unfold offered, finished. intros [L N].
  destruct e as [| data | t frame msg | n | chunk | r now |]; cbn [step].
  - exact (conj L N).
  - unfold onaudioprocess. destruct (isActive st); exact (conj L N).
  - unfold onmessage. destruct (isActive st); cbn [negb]; [|auto].
    assert (T : forall s : Lens,
               downloads s = downloads st -> recorders s = recorders st ->
               forall calls,
                 length (downloads (toolDispatch frame calls s))
                 = length (List.filter isDone (recorders (toolDispatch frame calls s)))
                 /\ Forall (fun d => clipName (filename d))
                           (downloads (toolDispatch frame calls s))).
    { intros s Hs Hr calls. unfold toolDispatch.
      destruct (loop_recorders frame calls s []) as (D & _ & k & R & _).
      destruct (fold_left (dispatch frame) calls (s, [])) as [s1 rs1].
      cbn [fst] in D, R. unfold sendLater. cbn. rewrite D, R, Hs, Hr.
      rewrite finished_app_recording. auto. }
    destruct (audio msg) as [[|c payload]|].
    + destruct (toolCall msg); cbn [fst]; [apply T; reflexivity|auto].
    + destruct (outputCtx st).
      * destruct (decodeAudioData (c :: payload)); cbn [fst]; [auto|].
        destruct (toolCall msg); cbn [fst]; [apply T; reflexivity|auto].
      * destruct (toolCall msg); cbn [fst]; [apply T; reflexivity|auto].
    + destruct (toolCall msg); cbn [fst]; [apply T; reflexivity|auto].
  - destruct (timers st !! n) as [[d a [|]]|]; auto.
    destruct a as [|r]; cbn; auto.
    destruct (recorders st !! r) as [[| |]|] eqn:R; cbn; auto.
    rewrite (finished_insert _ _ Recording Stopped R). cbn [isDone Nat.b2n].
    split; [lia|exact N].
  - exact (conj L N).
  - destruct (recorders st !! r) as [[| |]|] eqn:R; cbn; auto.
    + rewrite (finished_insert _ _ Recording Done R). cbn [isDone Nat.b2n].
      rewrite length_app. cbn [length]. split; [lia|].
      apply Forall_app. split; [exact N|]. constructor; [|constructor].
      exists now. reflexivity.
    + rewrite (finished_insert _ _ Stopped Done R). cbn [isDone Nat.b2n].
      rewrite length_app. cbn [length]. split; [lia|].
      apply Forall_app. split; [exact N|]. constructor; [|constructor].
      exists now. reflexivity.
  - unfold cleanup. cbn [stream set_isActive].
    destruct (stream st); [|exact (conj L N)].
    cbn [downloads recorders set_recorders set_isActive].
    rewrite finished_trackStopped, length_map. exact (conj L N).
Qed.

End RecorderLife.

(** X18.  The lens offers every finished recording for download exactly
    once and under a name [EBO_REC_<number>.webm]: from the mounted
    bridge, after any events, there are as many downloads as recorders whose
    stop event has been handled, and every download has such a name. *)
Theorem every_finished_recording_is_offered_once (events : list EboLens.Event) :
  length (EboLens.downloads (EboLens.run events EboLens.mounted))
  = length (List.filter RecorderLife.isDone
              (EboLens.recorders (EboLens.run events EboLens.mounted)))
  /\ Forall (fun d => exists now : Z,
                 EboLens.filename d = "EBO_REC_" +:+ pretty now +:+ ".webm")
            (EboLens.downloads (EboLens.run events EboLens.mounted)).
Proof.
  assert (H : forall st, RecorderLife.offered st ->
                         RecorderLife.offered (EboLens.run events st)).
  { induction events as [|e events IH]; intros st Hst; [exact Hst|].
    cbn [EboLens.run fold_left]. fold (EboLens.run events (EboLens.step st e)).
    apply IH, RecorderLife.step_offered, Hst. }
  apply (H EboLens.mounted). split; [reflexivity|constructor].
Qed.

(** X19.  Without a media stream the lens never creates a recorder,
    whatever tool calls and other events arrive: [record_video_clip] is
    acknowledged and nothing is recorded. *)
Theorem no_stream_no_recorder (events : list EboLens.Event) (st : EboLens.Lens) :
  EboLens.stream st = false ->
  length (EboLens.recorders (EboLens.run events st)) = length (EboLens.recorders st)
  /\ EboLens.stream (EboLens.run events st) = false.
Proof.
  revert st. induction events as [|e events IH]; intros st F; [auto|].
  cbn [EboLens.run fold_left]. fold (EboLens.run events (EboLens.step st e)).
  destruct (RecorderLife.step_recorders_created st e) as [S L].
  destruct (IH (EboLens.step st e) ltac:(rewrite S; exact F)) as [L' S'].
  rewrite L', S', (L F). auto.
Qed.

Lemma no_stream_no_recorder_witness :
  EboLens.recorders
    (EboLens.run
       [EboLens.ServerMessage 0%Q []
          (mkMessage None
             (Some [ {| fc_id := "1"; fc_name := "record_video_clip"; fc_args := None |} ]))]
       (EboLens.mkLens true false false 0%R false false true true Playback.initial
          pending [] [] [] [])) = [].
Proof.
  destruct (no_stream_no_recorder
              [EboLens.ServerMessage 0%Q []
                 (mkMessage None
                    (Some [ {| fc_id := "1"; fc_name := "record_video_clip";
                               fc_args := None |} ]))]
              (EboLens.mkLens true false false 0%R false false true true
                 Playback.initial pending [] [] [] []) eq_refl) as [L _].
  apply length_zero_iff_nil. exact L.
Defined.

(** A [record_video_clip] call whose duration is the text "5", on the
    mounted lens: the timer is set to 5000 ms. *)
Lemma record_clip_starts_witness :
  exists q : Q,
    EboLens.timers
      (fst (EboLens.dispatch []
              (EboLens.mounted, [])
              {| fc_id := "1"; fc_name := "record_video_clip";
                 fc_args := Some {[ "duration" := JStr "5" ]} |}))
    = [EboLens.mkTimer (Finite q) (EboLens.StopRecorder 0) false]
    /\ (q == 5000)%Q.
Proof.
  destruct (RecorderFacts.record_clip_starts []
              {| fc_id := "1"; fc_name := "record_video_clip";
                 fc_args := Some {[ "duration" := JStr "5" ]} |}
              EboLens.mounted [] eq_refl eq_refl) as (ms & _ & _ & _ & T & D).
  destruct (D (JStr "5")) as (_ & _ & _ & S & _).
  { right. exists {[ "duration" := JStr "5" ]}. split; reflexivity. }
  destruct (S [5%nat]) as (q & M & V).
  - discriminate.
  - repeat constructor.
  - reflexivity.
  - exists q. rewrite T, M. split; [reflexivity|]. rewrite V. reflexivity.
Defined.

(** The timer of a five-second clip runs, and the recorder's stop event
    arrives at time 1730000000000. *)
Lemma recording_stops_and_downloads_witness :
  EboLens.downloads
    (EboLens.step
       (EboLens.step
          (EboLens.toolDispatch []
             [ {| fc_id := "1"; fc_name := "record_video_clip";
                  fc_args := Some {[ "duration" := JNum 5 ]} |} ] EboLens.mounted)
          (EboLens.TimerFired 0))
       (EboLens.RecorderStop 0 1730000000000))
  = [ {| EboLens.filename := "EBO_REC_1730000000000.webm"; EboLens.chunks := [] |} ].
Proof.
  assert (T : EboLens.timers
                (EboLens.toolDispatch []
                   [ {| fc_id := "1"; fc_name := "record_video_clip";
                        fc_args := Some {[ "duration" := JNum 5 ]} |} ] EboLens.mounted)
              !! 0%nat
              = Some (EboLens.mkTimer (Finite (5 * 1000)) (EboLens.StopRecorder 0) false))
    by (vm_compute; reflexivity).
  assert (R : EboLens.recorders
                (EboLens.toolDispatch []
                   [ {| fc_id := "1"; fc_name := "record_video_clip";
                        fc_args := Some {[ "duration" := JNum 5 ]} |} ] EboLens.mounted)
              !! 0%nat = Some EboLens.Recording)
    by (vm_compute; reflexivity).
  destruct (RecorderFacts.recording_stops_and_downloads _ _ _ _ 1730000000000 T R)
    as (_ & _ & _ & D).
  rewrite D. vm_compute. reflexivity.
Defined.

(* ------------------------------------------------------------------ *)
(** ** Data URLs, transcripts and the generated image *)

Module DataUrlFacts.

Import DataUrl.

Lemma split_whole (sep : ascii) (s : list ascii) :
  Forall (fun c => Ascii.eqb c sep = false) s -> split sep s = [s].
Proof.
  induction 1 as [|c s Hc _ IH]; [reflexivity|].
  cbn [split]. rewrite Hc, IH. reflexivity.
Qed.

Lemma split_first (sep : ascii) (h rest : list ascii) :
  Forall (fun c => Ascii.eqb c sep = false) h ->
  split sep (h ++ sep :: rest) = h :: split sep rest.
Proof.
  induction 1 as [|c h Hc _ IH].
  - cbn [app split]. rewrite Ascii.eqb_refl. reflexivity.
  - cbn [app split]. rewrite Hc, IH. reflexivity.
Qed.

Lemma b64char_plain (s : sextet) :
  Ascii.eqb (b64char s) ","%char = false.
Proof. destruct s as [[] [] [] [] [] []]; reflexivity. Qed.

Lemma btoa_plain (l : list ascii) :
  Forall (fun c => Ascii.eqb c ","%char = false) (btoa l).
Proof.
  induction l as [| a | a b | a b c r IH] using Base64Facts.triples_ind.
  - constructor.
  - destruct (Base64Facts.enc1_dec3 a) as (s0 & s1 & E & _); cbn [btoa]; rewrite E.
    repeat constructor; apply b64char_plain.
  - destruct (Base64Facts.enc2_dec3 a b) as (s0 & s1 & s2 & E & _); cbn [btoa]; rewrite E.
    repeat constructor; apply b64char_plain.
  - destruct (Base64Facts.enc3_dec3 a b c) as (s0 & s1 & s2 & s3 & E & _).
    cbn [btoa]; rewrite E. cbn [app].
    repeat (constructor; [apply b64char_plain|]). exact IH.
Qed.

Lemma dataURL_split (type bytes : list ascii) :
  Forall (fun c => Ascii.eqb c ","%char = false) type ->
  split ","%char (dataURL type bytes)
  = [list_ascii_of_string "data:" ++ type ++ list_ascii_of_string ";base64";
     btoa bytes].
Proof.
  intros H. unfold dataURL.
  change (list_ascii_of_string ";base64,")
    with (list_ascii_of_string ";base64" ++ [","%char]).
  rewrite !app_assoc. rewrite <- (app_assoc _ [","%char]). cbn [app].
  rewrite split_first.
  - rewrite split_whole by apply btoa_plain. rewrite <- app_assoc. reflexivity.
  - rewrite !Forall_app. repeat split; [repeat constructor|exact H|repeat constructor].
Qed.

(** What [blobToBase64] resolves to for a blob the reader reads: the
    base64 text of its bytes. *)
Lemma readAsDataURL_payload (blob : FileBlob) :
  Forall (fun c => Ascii.eqb c ","%char = false) (blobType blob) ->
  blobToBase64 (readAsDataURL blob) = Some (btoa (map fromCharCode (blobBytes blob))).
Proof.
  intros H. unfold blobToBase64, readAsDataURL.
  rewrite dataURL_split; [reflexivity|].
  destruct (blobType blob); [repeat constructor|exact H].
Qed.

End DataUrlFacts.

(** X22.  Cutting the data URL of some bytes at its comma gives exactly the
    base64 text of the bytes, whatever the bytes and for every media type
    without a comma, and that text decodes to the bytes: the snapshot the
    components send is the image the canvas or the file reader encoded.  A
    text without a comma gives [undefined]. *)
Theorem snapshot_payload_is_the_base64 (type bytes : list ascii) :
  Forall (fun c => Ascii.eqb c ","%char = false) type ->
  DataUrl.blobToBase64 (DataUrl.dataURL type bytes) = Some (btoa bytes)
  /\ DataUrl.blobToBase64 (DataUrl.dataURL type bytes) ≫= atob = Some bytes
  /\ (forall text : list ascii,
         Forall (fun c => Ascii.eqb c ","%char = false) text ->
         DataUrl.blobToBase64 text = None).
Proof.
  intros H. unfold DataUrl.blobToBase64.
  rewrite (DataUrlFacts.dataURL_split type bytes H). cbn [nth_error].
  split; [reflexivity|]. split.
  - cbn. apply Base64Facts.atob_btoa.
  - intros text Ht. rewrite (DataUrlFacts.split_whole _ text Ht). reflexivity.
Qed.

Lemma snapshot_payload_is_the_base64_witness :
  DataUrl.blobToBase64
    (DataUrl.dataURL (list_ascii_of_string "image/jpeg") (list_ascii_of_string "JFIF"))
  = Some (list_ascii_of_string "SkZJRg==").
Proof.
  destruct (snapshot_payload_is_the_base64
              (list_ascii_of_string "image/jpeg") (list_ascii_of_string "JFIF")
              ltac:(repeat constructor)) as [H _].
  rewrite H. reflexivity.
Defined.

(** X23.  [dataURItoBlob] undoes the data URL: for every media type
    without comma, colon or semicolon and for all bytes, the blob it builds
    from their data URL has those bytes; its type is the media type in lower
    case when that is of printable ASCII characters (so the media type itself
    when it is in lower case already, as the platform writes it), and the
    empty type when it has any other character. *)
Theorem dataURItoBlob_round_trip (type bytes : list ascii) :
  Forall (fun c => Ascii.eqb c ","%char = false /\ Ascii.eqb c ":"%char = false
                   /\ Ascii.eqb c ";"%char = false) type ->
  exists blob : DataUrl.FileBlob,
    DataUrl.dataURItoBlob (DataUrl.dataURL type bytes) = inr blob
    /\ DataUrl.blobBytes blob = map (fun c => Z.of_N (N_of_ascii c)) bytes
    /\ (Forall (fun c => (32 <= nat_of_ascii c <= 126)%nat) type ->
        Forall2 (fun c d =>
                   nat_of_ascii d
                   = if (65 <=? nat_of_ascii c)%nat && (nat_of_ascii c <=? 90)%nat
                     then (nat_of_ascii c + 32)%nat else nat_of_ascii c)
                type (DataUrl.blobType blob))
    /\ (Forall (fun c => (32 <= nat_of_ascii c <= 126)%nat
                         /\ ~ (65 <= nat_of_ascii c <= 90)%nat) type ->
        DataUrl.blobType blob = type)
    /\ (Exists (fun c => (nat_of_ascii c < 32)%nat \/ (126 < nat_of_ascii c)%nat) type ->
        DataUrl.blobType blob = []).
Proof.
  intros H.
  assert (Hc : Forall (fun c => Ascii.eqb c ","%char = false) type).
  { eapply List.Forall_impl; [|exact H]. intros c (A & _ & _). exact A. }
  assert (Hk : Forall (fun c => Ascii.eqb c ":"%char = false) type).
  { eapply List.Forall_impl; [|exact H]. intros c (_ & A & _). exact A. }
  assert (Hs : Forall (fun c => Ascii.eqb c ";"%char = false) type).
  { eapply List.Forall_impl; [|exact H]. intros c (_ & _ & A). exact A. }
  unfold DataUrl.dataURItoBlob.
  rewrite (DataUrlFacts.dataURL_split type bytes Hc). cbn [nth_error hd].
  rewrite Base64Facts.atob_btoa.
  change (list_ascii_of_string "data:" ++ type ++ list_ascii_of_string ";base64")
    with (list_ascii_of_string "data" ++ ":"%char :: (type ++ list_ascii_of_string ";base64")).
  rewrite DataUrlFacts.split_first by repeat constructor.
  rewrite DataUrlFacts.split_whole.
  2:{ rewrite Forall_app. split; [exact Hk|repeat constructor]. }
  cbn [nth_error].
  change (type ++ list_ascii_of_string ";base64")
    with (type ++ ";"%char :: list_ascii_of_string "base64").
  rewrite DataUrlFacts.split_first by exact Hs. cbn [hd].
  eexists. split; [reflexivity|]. unfold DataUrl.newBlob.
  cbn [DataUrl.blobBytes DataUrl.blobType].
  split; [reflexivity|]. clear. split; [|split].
  - intros P.
    assert (F : forallb DataUrl.isPrintable type = true).
    { apply forallb_forall. rewrite List.Forall_forall in P. intros c Hc.
      specialize (P c Hc). unfold DataUrl.isPrintable.
      apply andb_true_iff. split; apply Nat.leb_le; lia. }
    rewrite F. clear F. induction P as [|c type Pc _ IH]; cbn [map]; constructor;
      [|exact IH].
    unfold DataUrl.toLower.
    destruct ((65 <=? nat_of_ascii c)%nat && (nat_of_ascii c <=? 90)%nat) eqn:U;
      [|reflexivity].
    apply andb_true_iff in U. destruct U as [_ U]. apply Nat.leb_le in U.
    apply nat_ascii_embedding. lia.
  - intros P.
    assert (F : forallb DataUrl.isPrintable type = true).
    { apply forallb_forall. rewrite List.Forall_forall in P. intros c Hc.
      destruct (P c Hc) as [Q _]. unfold DataUrl.isPrintable.
      apply andb_true_iff. split; apply Nat.leb_le; lia. }
    rewrite F. clear F. induction P as [|c type [_ Pc] _ IH]; [reflexivity|].
    cbn [map]. rewrite IH. f_equal. unfold DataUrl.toLower.
    destruct ((65 <=? nat_of_ascii c)%nat && (nat_of_ascii c <=? 90)%nat) eqn:U;
      [|reflexivity].
    apply andb_true_iff in U. destruct U as [U1 U2].
    apply Nat.leb_le in U1, U2. exfalso. apply Pc. lia.
  - intros P.
    assert (F : forallb DataUrl.isPrintable type = false).
    { induction P as [c type Pc|c type _ IH]; cbn [forallb].
      - replace (DataUrl.isPrintable c) with false; [reflexivity|].
        symmetry. unfold DataUrl.isPrintable. apply andb_false_iff.
        destruct Pc as [Pc|Pc]; [left|right]; apply Nat.leb_gt; lia.
      - rewrite IH. apply andb_false_r. }
    rewrite F. reflexivity.
Qed.

Lemma dataURItoBlob_round_trip_witness :
  exists blob : DataUrl.FileBlob,
    DataUrl.dataURItoBlob
      (DataUrl.dataURL (list_ascii_of_string "image/jpeg") (list_ascii_of_string "JFIF"))
    = inr blob
    /\ DataUrl.blobBytes blob = [74; 70; 73; 70]
    /\ DataUrl.blobType blob = list_ascii_of_string "image/jpeg".
Proof.
  destruct (dataURItoBlob_round_trip
              (list_ascii_of_string "image/jpeg") (list_ascii_of_string "JFIF"))
    as (blob & D & B & _ & T & _).
  - repeat constructor.
  - exists blob. split; [exact D|]. split; [exact B|]. apply T.
    repeat (constructor; [vm_compute; lia|]). constructor.
Defined.

(** X24.  [dataURItoBlob] throws on every text without a comma: the
    missing payload reads [undefined], which [atob] refuses. *)
Theorem dataURItoBlob_without_comma (dataURI : list ascii) :
  Forall (fun c => Ascii.eqb c ","%char = false) dataURI ->
  DataUrl.dataURItoBlob dataURI = inl DataUrl.InvalidCharacter.
Proof.
  intros H. unfold DataUrl.dataURItoBlob.
  rewrite (DataUrlFacts.split_whole _ dataURI H). reflexivity.
Qed.

Lemma dataURItoBlob_without_comma_witness :
  DataUrl.dataURItoBlob (list_ascii_of_string "data:image/jpeg;base64")
  = inl DataUrl.InvalidCharacter.
Proof.
  apply dataURItoBlob_without_comma. repeat constructor.
Defined.

Module TranscriptFacts.

Import Transcripts.

Lemma sliceLast_short (prev : list TranscriptItem) : (length (sliceLast prev) <= 1)%nat.
Proof. unfold sliceLast. rewrite length_skipn. lia. Qed.

Lemma sliceLast_snoc (prev : list TranscriptItem) (x : TranscriptItem) :
  sliceLast (prev ++ [x]) = [x].
Proof.
  unfold sliceLast. rewrite length_app. cbn [length].
  replace (length prev + 1 - 1)%nat with (length prev) by lia.
  rewrite skipn_app, Nat.sub_diag, skipn_all. reflexivity.
Qed.

Lemma onTranscriptions_short (it ot : option (option string)) (now1 now2 : Z)
  (prev : list TranscriptItem) :
  (length prev <= 2)%nat -> (length (onTranscriptions it ot now1 now2 prev) <= 2)%nat.
Proof.
  intros H. unfold onTranscriptions, push.
  destruct it as [t1|], ot as [t2|]; rewrite ?length_app; cbn [length];
    try pose proof (sliceLast_short prev);
    try pose proof (sliceLast_short
                      (sliceLast prev ++ [ {| item_id := pretty now1; speaker := user;
                                              text := t1 |} ]));
    lia.
Qed.

End TranscriptFacts.

(** X25.  [LiveMode.tsx] never keeps more than two transcript lines: each
    new line is put after the last line only.  After a message with both an
    input and an output transcription the list is exactly those two, user
    first, whatever it held before; a single new line follows the line that
    was last. *)
Theorem transcripts_keep_two_lines :
  (forall msgs, (length (Transcripts.runTranscriptions msgs) <= 2)%nat)
  /\ (forall (prev : list Transcripts.TranscriptItem) (t1 t2 : option string)
             (now1 now2 : Z),
         Transcripts.onTranscriptions (Some t1) (Some t2) now1 now2 prev
         = [ Transcripts.mkItem (pretty now1) Transcripts.user t1;
             Transcripts.mkItem (pretty now2) Transcripts.ai t2 ])
  /\ (forall (prev : list Transcripts.TranscriptItem)
             (last item : Transcripts.TranscriptItem),
         Transcripts.push item (prev ++ [last]) = [last; item])
  /\ (forall item : Transcripts.TranscriptItem, Transcripts.push item [] = [item]).
Proof.
  split; [|split; [|split]].
  - intros msgs. unfold Transcripts.runTranscriptions.
    assert (H : forall prev, (length prev <= 2)%nat ->
                (length (fold_left
                           (fun prev m =>
                              let '(it, ot, now1, now2) := m in
                              Transcripts.onTranscriptions it ot now1 now2 prev)
                           msgs prev) <= 2)%nat).
    { induction msgs as [|[[[it ot] now1] now2] msgs IH]; intros prev Hp; [exact Hp|].
      cbn [fold_left]. apply IH. apply TranscriptFacts.onTranscriptions_short, Hp. }
    apply H. cbn. lia.
  - intros prev t1 t2 now1 now2. unfold Transcripts.onTranscriptions, Transcripts.push.
    rewrite TranscriptFacts.sliceLast_snoc. reflexivity.
  - intros prev last item. unfold Transcripts.push.
    rewrite TranscriptFacts.sliceLast_snoc. reflexivity.
  - reflexivity.
Qed.

Module ProImageFacts.

Import ProImage.

Lemma firstImage_none (parts : list Part) :
  firstImage parts = None <-> Forall (fun p => p = None) parts.
Proof.
  induction parts as [|[data|] rest IH]; cbn [firstImage].
  - split; [constructor|reflexivity].
  - split; [discriminate|]. intros H. inversion H. discriminate.
  - split.
    + intros H. constructor; [reflexivity|apply IH, H].
    + intros H. inversion H. apply IH. assumption.
Qed.

Lemma firstImage_first (before after : list Part) (data : string) :
  Forall (fun p => p = None) before ->
  firstImage (before ++ Some data :: after) = Some ("data:image/png;base64," +:+ data).
Proof.
  induction 1 as [|p before Hp _ IH]; [reflexivity|].
  subst p. exact IH.
Qed.

End ProImageFacts.

(** X26.  [generateProImage] returns [null] exactly when no part of the
    response has inline data (a response without candidate, content or parts
    included); otherwise it returns the PNG data URL of the first part that
    has, whatever parts follow it. *)
Theorem generated_image_is_the_first_inline_part :
  (forall parts : option (list ProImage.Part),
      ProImage.extractImage parts = None
      <-> Forall (fun p => p = None) (default [] parts))
  /\ (forall (before after : list ProImage.Part) (data : string),
         Forall (fun p => p = None) before ->
         ProImage.extractImage (Some (before ++ Some data :: after))
         = Some ("data:image/png;base64," +:+ data)).
Proof.
  split.
  - intros parts. apply ProImageFacts.firstImage_none.
  - intros before after data H. apply ProImageFacts.firstImage_first, H.
Qed.
